(** * edenai-apis: language negotiation and two provider adapters

    A shallow embedding of
      - [edenai_apis/utils/languages.py]  (tag validation, code conversion,
        constraint loading, closest-match negotiation),
      - [edenai_apis/apis/oneai/oneai_api.py]  ([text__sentiment_analysis]),
      - [edenai_apis/apis/amazon/amazon_text_api.py]  ([text__anonymization]),
    together with the properties stated about them.

    Python values are modelled as follows.  A [str] is a list of Unicode code
    points; [None] is [option]'s [None]; exceptions are an inductive type and
    a call that may raise returns an [outcome]; the external libraries
    (langcodes, pycountry, the provider loader, the HTTP and AWS clients) are
    Section variables, so that every statement holds for any behaviour of
    theirs. *)

From Stdlib Require Import String Ascii List Bool Arith NArith ZArith Lia.
Import ListNotations.

Set Implicit Arguments.

(* ===================================================================== *)
(** * Python strings *)
(* ===================================================================== *)

(** A character is its code point ([ord c]); a string is a sequence of
    characters. *)
Abbreviation char := N.
Abbreviation str := (list char).

(** [py "pt-BR"] is the Python string literal ['pt-BR']. *)
Definition py (s : string) : str := map N_of_ascii (list_ascii_of_string s).

Definition chr_eqb (a b : char) : bool := N.eqb a b.

Fixpoint str_eqb (a b : str) : bool :=
  match a, b with
  | [], [] => true
  | x :: a', y :: b' => chr_eqb x y && str_eqb a' b'
  | _, _ => false
  end.

(** ['-' in s] *)
Definition dash : char := 45%N.
Definition contains (c : char) (s : str) : bool := existsb (chr_eqb c) s.

(** Truthiness of an [Optional[str]]: [None] and [''] are falsy. *)
Definition truthy (v : option str) : bool :=
  match v with
  | Some (_ :: _) => true
  | _ => false
  end.

(** [==] on [Optional[str]] values. *)
Definition opt_str_eqb (a b : option str) : bool :=
  match a, b with
  | None, None => true
  | Some x, Some y => str_eqb x y
  | _, _ => false
  end.

(* ===================================================================== *)
(** * The fragment of [re] used by [check_language_format] *)
(* ===================================================================== *)

Module Re.

(** Pattern syntax: [^], a character class, concatenation, [|], and the
    greedy bounded repetition [{lo,hi}] ([?] is [{0,1}], [{n}] is [{n,n}]). *)
Inductive regex : Type :=
| Bol
| Cls (p : char -> bool)
| Cat (r1 r2 : regex)
| Alt (r1 r2 : regex)
| Rep (r : regex) (lo hi : nat).

Definition Opt (r : regex) : regex := Rep r 0 1.
Definition Lit (c : char) : regex := Cls (chr_eqb c).

(** A matcher state is the current position and the text that remains; a
    continuation decides whether what follows the sub-pattern can match. *)
Definition cont := nat -> str -> bool.
Definition matcher := nat -> str -> cont -> bool.

(** Exactly [n] copies. *)
Fixpoint rep_exact (m : matcher) (n : nat) : matcher :=
  fun pos s k =>
    match n with
    | 0 => k pos s
    | S n' => m pos s (fun pos' s' => rep_exact m n' pos' s' k)
    end.

(** At most [n] copies, the longest first (greedy), then backtracking. *)
Fixpoint rep_upto (m : matcher) (n : nat) : matcher :=
  fun pos s k =>
    match n with
    | 0 => k pos s
    | S n' => m pos s (fun pos' s' => rep_upto m n' pos' s' k) || k pos s
    end.

(** The backtracking matcher. *)
Fixpoint bt (r : regex) : matcher :=
  fun pos s k =>
    match r with
    | Bol => Nat.eqb pos 0 && k pos s
    | Cls p =>
        match s with
        | c :: s' => p c && k (S pos) s'
        | [] => false
        end
    | Cat r1 r2 => bt r1 pos s (fun pos' s' => bt r2 pos' s' k)
    | Alt r1 r2 => bt r1 pos s k || bt r2 pos s k
    | Rep r1 lo hi =>
        rep_exact (bt r1) lo pos s
          (fun pos' s' => rep_upto (bt r1) (hi - lo) pos' s' k)
    end.

(** [re.fullmatch(pattern, s)] as a truth value: the match starts at
    position 0 and must end at the end of [s]. *)
Definition at_end : cont := fun _ rest => match rest with [] => true | _ => false end.
Definition fullmatch (r : regex) (s : str) : bool := bt r 0 s at_end.

(** ** Words of a pattern

    [words r pos w]: the pattern [r], started at position [pos], can consume
    exactly [w]. *)
Fixpoint power (L : nat -> str -> Prop) (n : nat) (pos : nat) (w : str) : Prop :=
  match n with
  | 0 => w = []
  | S n' => exists w1 w2,
      w = w1 ++ w2 /\ L pos w1 /\ power L n' (pos + length w1) w2
  end.

Fixpoint words (r : regex) (pos : nat) (w : str) : Prop :=
  match r with
  | Bol => pos = 0 /\ w = []
  | Cls p => exists c, w = [c] /\ p c = true
  | Cat r1 r2 => exists w1 w2,
      w = w1 ++ w2 /\ words r1 pos w1 /\ words r2 (pos + length w1) w2
  | Alt r1 r2 => words r1 pos w \/ words r2 pos w
  | Rep r1 lo hi => exists n,
      lo <= n <= lo + (hi - lo) /\ power (words r1) n pos w
  end.

(** What it means for a matcher to implement a set of words. *)
Definition implements (m : matcher) (L : nat -> str -> Prop) : Prop :=
  forall pos s k,
    m pos s k = true <->
    exists w s', s = w ++ s' /\ L pos w /\ k (pos + length w) s' = true.

End Re.

(* ===================================================================== *)
(** * [languages.py] : [check_language_format] *)
(* ===================================================================== *)

Definition is_lower (c : char) : bool := (97 <=? c)%N && (c <=? 122)%N.
Definition is_upper (c : char) : bool := (65 <=? c)%N && (c <=? 90)%N.

Section Format.

(** [\d] on a [str] pattern matches every Unicode decimal digit; the table
    belongs to the interpreter, not to this repository. *)
Variable is_digit : char -> bool.

(** [r"^[a-z]{2,3}(-[a-z]{2,3})?(-[A-Z][a-z]{3})?(-([A-Z]{2,3}|\d{3}))?"] *)
Definition language_format_re : Re.regex :=
  Re.Cat Re.Bol
 (Re.Cat (Re.Rep (Re.Cls is_lower) 2 3)
 (Re.Cat (Re.Opt (Re.Cat (Re.Lit dash) (Re.Rep (Re.Cls is_lower) 2 3)))
 (Re.Cat (Re.Opt (Re.Cat (Re.Lit dash)
                 (Re.Cat (Re.Cls is_upper) (Re.Rep (Re.Cls is_lower) 3 3))))
         (Re.Opt (Re.Cat (Re.Lit dash)
                 (Re.Alt (Re.Rep (Re.Cls is_upper) 2 3)
                         (Re.Rep (Re.Cls is_digit) 3 3))))))).

(** [check_language_format]: [None] for [None], otherwise
    [bool(re.fullmatch(...))]. *)
Definition check_language_format (iso_code : option str) : option bool :=
  match iso_code with
  | None => None
  | Some s => Some (Re.fullmatch language_format_re s)
  end.

(** Truthiness of the value [check_language_format] returns. *)
Definition is_true_value (v : option bool) : bool :=
  match v with
  | Some true => true
  | _ => false
  end.

(** ** The grammar, as the specification words it

    [lang[-extlang][-Script][-Region]]: 2-3 lowercase letters; optionally a
    dash and 2-3 lowercase letters; optionally a dash, one uppercase and
    three lowercase letters; optionally a dash and either 2-3 uppercase
    letters or three digits; and nothing else before or after. *)
Definition all_of (p : char -> bool) (lo hi : nat) (w : str) : Prop :=
  lo <= length w <= hi /\ forallb p w = true.

Definition optional (P : str -> Prop) (w : str) : Prop :=
  w = [] \/ exists w', w = dash :: w' /\ P w'.

Definition script_shape (w : str) : Prop :=
  exists c t, w = c :: t /\ is_upper c = true /\ all_of is_lower 3 3 t.

Definition region_shape (w : str) : Prop :=
  all_of is_upper 2 3 w \/ all_of is_digit 3 3 w.

Definition LanguageTag_grammar (s : str) : Prop :=
  exists lang extlang script region,
    s = lang ++ extlang ++ script ++ region /\
    all_of is_lower 2 3 lang /\
    optional (all_of is_lower 2 3) extlang /\
    optional script_shape script /\
    optional region_shape region.

End Format.

(* ===================================================================== *)
(** * Exceptions, results and the call log *)
(* ===================================================================== *)

(** The exception classes the modelled code raises, catches or lets
    through.  A constructor stands for the class and its subclasses, which
    is what an [except] clause tests. *)
Inductive exn : Type :=
| SyntaxError (msg : str)
| RuntimeError
| LookupError
| KeyError
| IndexError
| LanguageTagError
| ClientError
| ProviderException (message : option str) (code : option Z)
| ProviderExceptionFrom (cause : exn).

(** [isinstance(e, RuntimeError)] *)
Definition is_RuntimeError (e : exn) : bool :=
  match e with RuntimeError => true | _ => false end.

(** [isinstance(e, LookupError)]: [KeyError] and [IndexError] derive from it. *)
Definition is_LookupError (e : exn) : bool :=
  match e with LookupError | KeyError | IndexError => true | _ => false end.

(** A call either returns a value or raises. *)
Inductive result (A : Type) : Type :=
| Ok (a : A)
| Err (e : exn).
Arguments Ok {A} a.
Arguments Err {A} e.

Definition rbind {A B} (r : result A) (f : A -> result B) : result B :=
  match r with
  | Ok a => f a
  | Err e => Err e
  end.

Declare Scope result_scope.
Delimit Scope result_scope with result.
Notation "x <- r ;; k" := (rbind r (fun x => k))
  (at level 61, r at next level, right associativity) : result_scope.

(** Calls made to the collaborators, in the order they happen. *)
Inductive event : Type :=
| LoadProvider (provider_name feature subfeature : str)
| ClosestMatch (attempt : nat) (desired : str) (supported : list str).

Definition log := list event.

(** How a run of the negotiator ends: it returns, it raises, or it is still
    inside its retry loop when the fuel given to the model is used up. *)
Inductive outcome (A : Type) : Type :=
| Return (a : A)
| Raise (e : exn)
| Spin.
Arguments Return {A} a.
Arguments Raise {A} e.
Arguments Spin {A}.

(** Computations that log their collaborator calls. *)
Definition M (A : Type) : Type := log -> outcome A * log.

Definition ret {A} (a : A) : M A := fun l => (Return a, l).
Definition raise {A} (e : exn) : M A := fun l => (Raise e, l).
Definition spin {A} : M A := fun l => (Spin, l).
Definition emit (e : event) : M unit := fun l => (Return tt, l ++ [e]).

Definition bind {A B} (m : M A) (f : A -> M B) : M B :=
  fun l =>
    match m l with
    | (Return a, l') => f a l'
    | (Raise e, l') => (Raise e, l')
    | (Spin, l') => (Spin, l')
    end.

Definition call {A} (r : result A) : M A :=
  match r with
  | Ok a => ret a
  | Err e => raise e
  end.

Declare Scope run_scope.
Delimit Scope run_scope with run.
Notation "x <- m ;; k" := (bind m (fun x => k))
  (at level 61, m at next level, right associativity) : run_scope.
Notation "m ;; k" := (bind m (fun _ => k))
  (at level 61, right associativity) : run_scope.

(* ===================================================================== *)
(** * [languages.py] : the collaborators' data *)
(* ===================================================================== *)

Definition AUTO_DETECT : str := py "auto-detect".

(** The attributes of a [langcodes.Language] that the module reads. *)
Record Language : Type := {
  language : option str;
  script : option str;
  territory : option str
}.

(** An entry of [pycountry.languages]; [alpha_2] is an attribute only of the
    languages that have a two-letter code. *)
Record pycountry_language : Type := {
  alpha_3 : str;
  alpha_2 : option str
}.

(** The part of a provider's info that [load_language_constraints] reads:
    [info["constraints"]["languages"]] and
    [info["constraints"]["allow_null_language"]], each possibly absent. *)
Record constraints : Type := {
  languages : option (list str);
  allow_null_language : bool
}.

Record provider_info : Type := {
  info_constraints : option constraints
}.

(** [s.split(sep)]: always at least one piece. *)
Fixpoint split (sep : char) (s : str) : list str :=
  match s with
  | [] => [[]]
  | c :: s' =>
      if chr_eqb c sep then [] :: split sep s'
      else match split sep s' with
           | w :: ws => (c :: w) :: ws
           | [] => [[c]]
           end
  end.

(** ["-" in s and len(s.split("-")[0]) == 3]: a dashed tag whose first
    subtag has three characters. *)
Definition three_letter_compound (s : str) : bool :=
  contains dash s && Nat.eqb (List.length (hd [] (split dash s))) 3.

(* ===================================================================== *)
(** * [languages.py] : conversion, loading and negotiation *)
(* ===================================================================== *)

Section Languages.

Variable is_digit : char -> bool.

(** [langcodes]: [Language.get(tag)] parses and normalises a tag and raises
    [LanguageTagError] on one it cannot parse; [str(language)] renders a
    [Language]; [Language.find(name=...)] raises [LookupError] when no
    language has that name. *)
Variable Language_get : str -> result Language.
Variable Language_str : Language -> str.
Variable Language_find : str -> result Language.

(** [pycountry.languages.get(alpha_3=...)]: the entry, or [None]. *)
Variable pycountry_languages_get : str -> option pycountry_language.

(** [load_provider(ProviderDataEnum.PROVIDER_INFO, provider_name, feature,
    subfeature)] *)
Variable load_provider : str -> str -> str -> result provider_info.

(** [closest_supported_match(desired, supported)].  The primitive is not
    stable from one call to the next, so its answer may depend on how many
    times the retry loop has already called it. *)
Variable closest_supported_match : nat -> str -> list str -> result (option str).

(** ** [convert_three_two_letters] *)
Definition convert_three_two_letters (iso_code : option str) : result (option str) :=
  match iso_code with
  | None => Ok None
  | Some s =>
      if contains dash s && Nat.eqb (List.length (hd [] (split dash s))) 3 then
        (l <- Language_get s ;; Ok (Some (Language_str l)))%result
      else if negb (Nat.eqb (List.length s) 3) then
        Ok (Some s)
      else
        match pycountry_languages_get s with
        | None => (l <- Language_get s ;; Ok (Some (Language_str l)))%result
        | Some entry =>
            Ok (Some (match alpha_2 entry with
                      | Some two => two
                      | None => alpha_3 entry
                      end))
        end
  end.

(** ** [load_language_constraints]

    [languages.append(AUTO_DETECT)] extends the list read from the info in
    place; the value returned is that extended list. *)
Definition load_language_constraints (provider_name feature subfeature : str)
  : M (list str) :=
  (emit (LoadProvider provider_name feature subfeature) ;;
   info <- call (load_provider provider_name feature subfeature) ;;
   let langs :=
     match info_constraints info with
     | Some c => match languages c with Some l => l | None => [] end
     | None => []
     end in
   let allow :=
     match info_constraints info with
     | Some c => allow_null_language c
     | None => false
     end in
   ret (if allow then langs ++ [AUTO_DETECT] else langs))%run.

(** ** [get_code_from_language_name] *)
Definition get_code_from_language_name (name : option str) : result str :=
  if negb (truthy name) then Ok (py "Unknow")
  else
    match Language_find (match name with Some n => n | None => [] end) with
    | Ok output => Ok (Language_str output)
    | Err e => if is_LookupError e then Ok (py "Unknow") else Err e
    end.

(** ** [has_language_contrains_script] *)
Definition has_language_contrains_script (iso_code selected_code_language : str)
  : result bool :=
  (l <- Language_get iso_code ;;
   if truthy (script l) then
     a <- Language_get iso_code ;;
     b <- Language_get selected_code_language ;;
     if opt_str_eqb (language a) (language b) then Ok true else Ok false
   else Ok false)%result.

(** ** [compare_language_and_region_code] *)
Definition compare_language_and_region_code (iso_code selected_code_language : str)
  : result bool :=
  (a <- Language_get iso_code ;;
   b <- Language_get selected_code_language ;;
   if opt_str_eqb (language a) (language b) then
     a' <- Language_get iso_code ;;
     b' <- Language_get selected_code_language ;;
     Ok (opt_str_eqb (territory a') (territory b'))
   else Ok false)%result.

(** ** The retry loop of [provide_appropriate_language]

    [while True: try: selected = closest_supported_match(...); break
     except RuntimeError: pass].  One unit of fuel is one iteration. *)
Fixpoint closest_match_loop (fuel attempt : nat) (iso_code : str)
    (list_languages : list str) : M (option str) :=
  match fuel with
  | 0 => spin
  | S fuel' =>
      (emit (ClosestMatch attempt iso_code list_languages) ;;
       match closest_supported_match attempt iso_code list_languages with
       | Ok selected => ret selected
       | Err e =>
           if is_RuntimeError e
           then closest_match_loop fuel' (S attempt) iso_code list_languages
           else raise e
       end)%run
  end.

(** ** [provide_appropriate_language] *)
Definition badly_formatted (iso_code : str) : str :=
  py "Language code '" ++ iso_code ++ py "' badly formatted".

Definition provide_appropriate_language (fuel : nat)
    (iso_code provider_name feature subfeature : str) : M (option str) :=
  if negb (is_true_value (check_language_format is_digit (Some iso_code))) then
    raise (SyntaxError (badly_formatted iso_code))
  else
    (list_languages <- load_language_constraints provider_name feature subfeature ;;
     selected <- closest_match_loop fuel 0 iso_code list_languages ;;
     if contains dash iso_code && truthy selected then
       match selected with
       | Some candidate =>
           has_script <- call (has_language_contrains_script iso_code candidate) ;;
           if has_script then ret selected
           else
             same <- call (compare_language_and_region_code iso_code candidate) ;;
             if same then ret selected else ret None
       | None => ret selected
       end
     else ret selected)%run.

End Languages.

(** The closest-match primitive raises [RuntimeError] on its first [n]
    calls and returns [r] on the next one. *)
Definition settles (closest_supported_match : nat -> str -> list str -> result (option str))
    (desired : str) (supported : list str) (n : nat) (r : option str) : Prop :=
  (forall i, i < n -> closest_supported_match i desired supported = Err RuntimeError) /\
  closest_supported_match n desired supported = Ok r.

(** The two acceptance conditions for a compound tag, on the parsed tags: the
    requested tag carries a script and has the candidate's language; or it
    has the candidate's language and territory. *)
Definition script_and_language (requested candidate : Language) : Prop :=
  truthy (script requested) = true /\ language requested = language candidate.

Definition language_and_territory (requested candidate : Language) : Prop :=
  language requested = language candidate /\ territory requested = territory candidate.

(** The list [load_language_constraints] returns when the loader answers
    with [info]. *)
Definition constraint_list (info : provider_info) : list str :=
  let langs :=
    match info_constraints info with
    | Some c => match languages c with Some l => l | None => [] end
    | None => []
    end in
  match info_constraints info with
  | Some c => if allow_null_language c then langs ++ [AUTO_DETECT] else langs
  | None => langs
  end.

(* ===================================================================== *)
(** * [oneai_api.py] : [text__sentiment_analysis] *)
(* ===================================================================== *)

Module OneAI.

Inductive SentimentEnum : Type := POSITIVE | NEGATIVE | NEUTRAL.

Definition SentimentEnum_eqb (a b : SentimentEnum) : bool :=
  match a, b with
  | POSITIVE, POSITIVE | NEGATIVE, NEGATIVE | NEUTRAL, NEUTRAL => true
  | _, _ => false
  end.

(** A name bound first to an [int] and later to an enum member. *)
Inductive pyval : Type :=
| PyInt (z : Z)
| PyEnum (e : SentimentEnum).

(** [original_response['output'][0]['labels']] and the two keys read from
    each label. *)
Record label : Type := { span_text : str; value : str }.
Record output_block : Type := { labels : list label }.
Record oneai_json : Type := {
  message : option str;
  output : list output_block
}.
Record http_response : Type := { status_code : Z; json : oneai_json }.

Record SegmentSentimentAnalysisDataClass : Type := {
  segment : str;
  sentiment : str
}.
Record SentimentAnalysisDataClass : Type := {
  general_sentiment : str;
  items : list SegmentSentimentAnalysisDataClass
}.
Record ResponseType : Type := {
  original_response : oneai_json;
  standardized_response : SentimentAnalysisDataClass
}.

(** The local variables of [text__sentiment_analysis]. *)
Record locals : Type := {
  l_items : list SegmentSentimentAnalysisDataClass;
  l_general_sentiment : pyval;
  l_general_sentiment_text : SentimentEnum
}.

Section Adapter.

(** [SentimentEnum.X.value]; the enum is declared outside these files. *)
Variable enum_value : SentimentEnum -> str.

(** [requests.post(url=self.url, headers=self.header, data=...)] for the
    ["sentiments"] skill on the given input text. *)
Variable post_sentiments : str -> http_response.

(** [SentimentEnum.NEGATIVE if item['value'] == 'NEG' else SentimentEnum.POSITIVE] *)
Definition sentiment_of (item : label) : SentimentEnum :=
  if str_eqb (value item) (py "NEG") then NEGATIVE else POSITIVE.

(** One iteration of the [for item in ...] loop on [(items, general_sentiment)]. *)
Definition loop_body (st : list SegmentSentimentAnalysisDataClass * Z) (item : label)
  : list SegmentSentimentAnalysisDataClass * Z :=
  let seg := span_text item in
  let s := sentiment_of item in
  let general := (snd st + (if SentimentEnum_eqb s POSITIVE then 1 else -1))%Z in
  (fst st ++ [{| segment := seg; sentiment := enum_value s |}], general).

(** The function body from [items = []] to the last [elif]. *)
Definition aggregate (ls : list label) : locals :=
  let '(its, general) := fold_left loop_body ls ([], 0%Z) in
  let text0 := NEUTRAL in
  if (general <? 0)%Z then
    {| l_items := its; l_general_sentiment := PyInt general;
       l_general_sentiment_text := NEGATIVE |}
  else if (general >? 0)%Z then
    {| l_items := its; l_general_sentiment := PyEnum POSITIVE;
       l_general_sentiment_text := text0 |}
  else
    {| l_items := its; l_general_sentiment := PyInt general;
       l_general_sentiment_text := text0 |}.

Definition text__sentiment_analysis (language text : str) : result ResponseType :=
  let response := post_sentiments text in
  let original := json response in
  if negb (Z.eqb (status_code response) 200) then
    match message original with
    | Some m => Err (ProviderException (Some m) (Some (status_code response)))
    | None => Err KeyError
    end
  else
    match output original with
    | [] => Err IndexError
    | block :: _ =>
        let vars := aggregate (labels block) in
        Ok {| original_response := original;
              standardized_response :=
                {| general_sentiment := enum_value (l_general_sentiment_text vars);
                   items := l_items vars |} |}
    end.

(** Labels the adapter counts as positive, and as negative. *)
Definition positives (ls : list label) : nat :=
  List.length (filter (fun i => SentimentEnum_eqb (sentiment_of i) POSITIVE) ls).
Definition negatives (ls : list label) : nat :=
  List.length (filter (fun i => SentimentEnum_eqb (sentiment_of i) NEGATIVE) ls).

End Adapter.

End OneAI.

(* ===================================================================== *)
(** * [amazon_text_api.py] : [text__anonymization] *)
(* ===================================================================== *)

Module Amazon.

(** An element of [res["Entities"]]. *)
Record entity : Type := {
  BeginOffset : Z;
  EndOffset : Z;
  Type_ : str
}.

Record AnonymizationDataClass : Type := { result_ : str }.
Record ResponseType : Type := {
  original_response : list entity;
  standardized_response : AnonymizationDataClass
}.

(** Python's [s[a:b]] for integer bounds: a negative bound counts from the
    end, and both are clamped to [[0, len(s)]]. *)
Definition clamp (len i : Z) : Z :=
  if (i <? 0)%Z then Z.max 0 (i + len) else Z.min i len.

Definition slice (s : str) (a b : Z) : str :=
  let len := Z.of_nat (List.length s) in
  let lo := clamp len a in
  let hi := clamp len b in
  firstn (Z.to_nat (hi - lo)) (skipn (Z.to_nat lo) s).

(** [f"<{entity['Type']}>"] *)
Definition placeholder (e : entity) : str := py "<" ++ Type_ e ++ py ">".

Section Adapter.

(** [self.clients["text"].detect_pii_entities(Text=..., LanguageCode=...)],
    reduced to the ["Entities"] it returns. *)
Variable detect_pii_entities : str -> str -> result (list entity).

(** One iteration of the loop on [(last_end, new_text)]. *)
Definition loop_body (text : str) (st : Z * str) (e : entity) : Z * str :=
  (EndOffset e, snd st ++ slice text (fst st) (BeginOffset e) ++ placeholder e).

Definition text__anonymization (text language : str) : result ResponseType :=
  match detect_pii_entities text language with
  | Err exc => Err (ProviderExceptionFrom exc)
  | Ok entities =>
      let '(last_end, new_text) := fold_left (loop_body text) entities (0%Z, []) in
      Ok {| original_response := entities;
            standardized_response := {| result_ := new_text |} |}
  end.

End Adapter.

(** ** The result, read off the entity list by position

    The piece contributed by the [i]-th entity: the text between the end of
    entity [i-1] (or the start of the text) and the beginning of entity [i],
    then the placeholder of entity [i]. *)
Definition no_entity : entity := {| BeginOffset := 0; EndOffset := 0; Type_ := [] |}.

Definition previous_end (entities : list entity) (i : nat) : Z :=
  match i with
  | 0 => 0%Z
  | S j => EndOffset (nth j entities no_entity)
  end.

Definition piece (text : str) (entities : list entity) (i : nat) : str :=
  slice text (previous_end entities i) (BeginOffset (nth i entities no_entity))
  ++ placeholder (nth i entities no_entity).

Definition pieces (text : str) (entities : list entity) : str :=
  concat (map (piece text entities) (seq 0 (List.length entities))).

End Amazon.

(* ===================================================================== *)
(** * Further definitions *)
(* ===================================================================== *)

(** The characters a language tag can be made of. *)
Definition tag_char (is_digit : char -> bool) (c : char) : bool :=
  is_lower c || is_upper c || is_digit c || chr_eqb c dash.

(** The exceptions of [exn] together with those that only the functions
    below end with; [ProviderExceptionStr m] is [ProviderException(m)] for a
    string [m], [ProviderExceptionOf] the same for a whole response. *)
Inductive pyexc : Type :=
| Exn (e : exn)
| LanguageException (message : str)
| ProviderExceptionStr (message : str)
| ProviderExceptionOf
| UnboundLocalError (variable : str)
| AttributeError (message : str)
| ValueError.

Inductive pyresult (A : Type) : Type :=
| Value (a : A)
| Raised (e : pyexc).
Arguments Value {A} a.
Arguments Raised {A} e.

Definition pybind {A B} (r : pyresult A) (f : A -> pyresult B) : pyresult B :=
  match r with
  | Value a => f a
  | Raised e => Raised e
  end.

(** A call that raises one of the exceptions of [exn]. *)
Definition lift {A} (r : result A) : pyresult A :=
  match r with
  | Ok a => Value a
  | Err e => Raised (Exn e)
  end.

Declare Scope py_scope.
Delimit Scope py_scope with py.
Notation "x <- r ;; k" := (pybind r (fun x => k))
  (at level 61, r at next level, right associativity) : py_scope.

(** [needle in s] for strings: [needle] occurs in [s] as a substring. *)
Fixpoint starts_with (prefix s : str) : bool :=
  match prefix, s with
  | [], _ => true
  | p :: prefix', c :: s' => chr_eqb p c && starts_with prefix' s'
  | _ :: _, [] => false
  end.

Fixpoint substring_in (needle s : str) : bool :=
  starts_with needle s ||
  match s with
  | [] => false
  | _ :: s' => substring_in needle s'
  end.

(* ===================================================================== *)
(** * [languages.py] : the listing functions *)
(* ===================================================================== *)

Section Listing.

Variable Language_get : str -> result Language.
Variable Language_str : Language -> str.
Variable pycountry_languages_get : str -> option pycountry_language.
Variable load_provider : str -> str -> str -> result provider_info.

(** [Language.display_name()] *)
Variable Language_display_name : Language -> str.

(** [interface.list_providers(feature, subfeature)] *)
Variable list_providers : str -> str -> result (list str).

(** [list(set(l))]: the elements of [l] without repetition, in the order in
    which the interpreter's set yields them. *)
Variable list_of_set : list (option str) -> list (option str).

Local Abbreviation convert :=
  (convert_three_two_letters Language_get Language_str pycountry_languages_get).

(** ** [expand_languages_for_user]

    The body of the [for] loop: what one [language] appends to
    [appended_list]. *)
Definition expand_body (appended_list : list (option str)) (language : str)
  : result (list (option str)) :=
  if str_eqb language AUTO_DETECT then Ok (appended_list ++ [Some language])
  else
    (appended_list' <-
       (if contains dash language then
          l <- Language_get (hd [] (split dash language)) ;;
          if negb (substring_in (py "Unknown language") (Language_display_name l)) then
            c <- convert (Some (hd [] (split dash language))) ;;
            Ok (appended_list ++ [c])
          else Ok appended_list
        else Ok appended_list) ;;
     c <- convert (Some language) ;;
     Ok (appended_list' ++ [c]))%result.

Fixpoint expand_loop (list_languages : list str) (appended_list : list (option str))
  : result (list (option str)) :=
  match list_languages with
  | [] => Ok appended_list
  | language :: rest =>
      (appended_list' <- expand_body appended_list language ;;
       expand_loop rest appended_list')%result
  end.

Definition expand_languages_for_user (list_languages : list str)
  : result (list (option str)) :=
  expand_loop list_languages [].

(** ** [load_standardized_language] *)
Fixpoint standardized_loop (feature subfeature : str) (providers : list str)
    (acc : list (option str)) : M (list (option str)) :=
  match providers with
  | [] => ret acc
  | provider :: rest =>
      (constraints <- load_language_constraints load_provider provider feature subfeature ;;
       list_languages <- call (expand_languages_for_user constraints) ;;
       standardized_loop feature subfeature rest (list_of_set (list_languages ++ acc)))%run
  end.

Definition load_standardized_language (feature subfeature : str)
    (providers : option (list str)) : M (list (option str)) :=
  (providers' <-
     match providers with
     | None => call (list_providers feature subfeature)
     | Some ps => ret ps
     end ;;
   standardized_loop feature subfeature providers' [])%run.

End Listing.

(* ===================================================================== *)
(** * [oneai_api.py] : entity recognition and language detection *)
(* ===================================================================== *)

Module OneAIText.

(** A label of the ["names"] skill: the keys ['value'] and ['name']. *)
Record name_label : Type := { value : str; name : str }.

Record names_response : Type := {
  status_code : Z;
  message : option str;
  output : list (list name_label)
}.

Record InfosNamedEntityRecognitionDataClass : Type := {
  entity : str;
  category : str
}.

Record InfosLanguageDetectionDataClass : Type := {
  language : str;
  display_name : str
}.

Section Adapter.

(** [requests.post] for the ["names"] skill, and for ["detect-language"]. *)
Variable post_names : str -> names_response.
Variable post_detect_language : str -> OneAI.http_response.

Variable Language_str : Language -> str.
Variable Language_find : str -> result Language.

(** One iteration of the loop of [text__named_entity_recognition]. *)
Definition names_body (items : list InfosNamedEntityRecognitionDataClass)
    (item : name_label) : list InfosNamedEntityRecognitionDataClass :=
  let entity0 := value item in
  let category0 := name item in
  let category1 := if str_eqb category0 (py "GEO") then py "LOCATION" else category0 in
  items ++ [{| entity := entity0; category := category1 |}].

Definition text__named_entity_recognition (language text : str)
  : result (list InfosNamedEntityRecognitionDataClass) :=
  let response := post_names text in
  if negb (Z.eqb (status_code response) 200) then
    match message response with
    | Some m => Err (ProviderException (Some m) (Some (status_code response)))
    | None => Err KeyError
    end
  else
    match output response with
    | [] => Err IndexError
    | labels :: _ => Ok (fold_left names_body labels [])
    end.

(** The loop of [translation__language_detection]; the call of
    [get_code_from_language_name] may raise. *)
Fixpoint detection_loop (labels : list OneAI.label)
    (items : list InfosLanguageDetectionDataClass)
  : result (list InfosLanguageDetectionDataClass) :=
  match labels with
  | [] => Ok items
  | item :: rest =>
      (code <- get_code_from_language_name Language_str Language_find
                 (Some (OneAI.value item)) ;;
       detection_loop rest
         (items ++ [{| language := code; display_name := OneAI.value item |}]))%result
  end.

Definition translation__language_detection (text : str)
  : result (list InfosLanguageDetectionDataClass) :=
  let response := post_detect_language text in
  let original := OneAI.json response in
  if negb (Z.eqb (OneAI.status_code response) 200) then
    match OneAI.message original with
    | Some m => Err (ProviderException (Some m) (Some (OneAI.status_code response)))
    | None => Err KeyError
    end
  else
    match OneAI.output original with
    | [] => Err IndexError
    | block :: _ => detection_loop (OneAI.labels block) []
    end.

End Adapter.

End OneAIText.

(* ===================================================================== *)
(** * [amazon_text_api.py] : sentiment, key phrases, entities, syntax *)
(* ===================================================================== *)

Module AmazonText.

(** What a call of the Comprehend client gives: its answer, a
    [botocore] [ClientError] whose [str] is [message], or another
    exception. *)
Inductive client_answer (A : Type) : Type :=
| Answer (a : A)
| ClientErr (message : str)
| OtherErr (e : exn).
Arguments Answer {A} a.
Arguments ClientErr {A} message.
Arguments OtherErr {A} e.

(** A [dict] with string keys, in insertion order. *)
Fixpoint lookup {V : Type} (key : str) (d : list (str * V)) : option V :=
  match d with
  | [] => None
  | (k, v) :: d' => if str_eqb key k then Some v else lookup key d'
  end.

(** What follows an [except ClientError] clause that re-raises only when
    the message mentions ["languageCode"]: otherwise the clause ends, and
    the first use of [response], never assigned, raises. *)
Definition language_error_only {A} (message : str) : pyresult A :=
  if substring_in (py "languageCode") message
  then Raised (LanguageException message)
  else Raised (UnboundLocalError (py "response")).

Section Sentiment.

(** The scores are compared, never computed with; [zero] is the [0] the
    best rate starts from. *)
Variable score : Type.
Variable zero : score.
Variable leb : score -> score -> bool.

(** [detect_sentiment(Text=..., LanguageCode=...)], reduced to its
    ["SentimentScore"]. *)
Variable detect_sentiment : str -> str -> client_answer (list (str * score)).

Record best_sentiment : Type := {
  general_sentiment : option str;
  general_sentiment_rate : score
}.

Definition sentiment_body (scores : list (str * score)) (best : pyresult best_sentiment)
    (key : str) : pyresult best_sentiment :=
  match best with
  | Raised e => Raised e
  | Value b =>
      if str_eqb key (py "Mixed") then Value b
      else
        match lookup key scores with
        | None => Raised (Exn KeyError)
        | Some v =>
            if leb (general_sentiment_rate b) v
            then Value {| general_sentiment := Some key; general_sentiment_rate := v |}
            else Value b
        end
  end.

Definition text__sentiment_analysis (language text : str) : pyresult best_sentiment :=
  match detect_sentiment text language with
  | Answer scores =>
      fold_left (sentiment_body scores) (map fst scores)
        (Value {| general_sentiment := None; general_sentiment_rate := zero |})
  | ClientErr message => language_error_only message
  | OtherErr e => Raised (Exn e)
  end.

End Sentiment.

Section Lists.

(** The scores and importances are JSON numbers passed on as they are. *)
Variable number : Type.

Record key_phrase : Type := { kp_Text : str; kp_Score : number }.
Record InfosKeywordExtractionDataClass : Type := { keyword : str; importance : number }.

Record detected_entity : Type := { ent_Text : str; ent_Score : number; ent_Type : str }.
Record InfosNamedEntityRecognitionDataClass : Type := {
  ner_entity : str;
  ner_importance : number;
  ner_category : str
}.

Record syntax_token : Type := { tok_Text : str; tok_Tag : str; tok_Score : number }.
Record InfosSyntaxAnalysisDataClass : Type := {
  word : str;
  syn_importance : number;
  tag : str
}.

Variable detect_key_phrases : str -> str -> client_answer (list key_phrase).
Variable detect_entities : str -> str -> client_answer (list detected_entity).
Variable detect_syntax : str -> str -> client_answer (list syntax_token).

(** The [tags] dictionary of the provider's [config] module. *)
Variable tags : list (str * str).

Definition text__keyword_extraction (language text : str)
  : pyresult (list InfosKeywordExtractionDataClass) :=
  match detect_key_phrases text language with
  | Answer phrases =>
      Value (fold_left
               (fun items p => items ++ [{| keyword := kp_Text p; importance := kp_Score p |}])
               phrases [])
  | ClientErr message => language_error_only message
  | OtherErr e => Raised (Exn e)
  end.

Definition text__named_entity_recognition (language text : str)
  : pyresult (list InfosNamedEntityRecognitionDataClass) :=
  match detect_entities text language with
  | Answer entities =>
      Value (fold_left
               (fun items ent =>
                  items ++ [{| ner_entity := ent_Text ent;
                               ner_importance := ent_Score ent;
                               ner_category := ent_Type ent |}])
               entities [])
  | ClientErr message =>
      if substring_in (py "languageCode") message
      then Raised (LanguageException message)
      else Raised (ProviderExceptionStr message)
  | OtherErr e => Raised (Exn e)
  end.

Fixpoint syntax_loop (tokens : list syntax_token)
    (items : list InfosSyntaxAnalysisDataClass)
  : pyresult (list InfosSyntaxAnalysisDataClass) :=
  match tokens with
  | [] => Value items
  | ent :: rest =>
      match lookup (tok_Tag ent) tags with
      | None => Raised (Exn KeyError)
      | Some t =>
          syntax_loop rest
            (items ++ [{| word := tok_Text ent; syn_importance := tok_Score ent; tag := t |}])
      end
  end.

Definition text__syntax_analysis (language text : str)
  : pyresult (list InfosSyntaxAnalysisDataClass) :=
  match detect_syntax text language with
  | Answer tokens => syntax_loop tokens []
  | ClientErr message => language_error_only message
  | OtherErr e => Raised (Exn e)
  end.

End Lists.

End AmazonText.

(** What the loop of Amazon's [text__sentiment_analysis] has established
    once the entries [done] of the scores are processed: the rate is at
    least [zero]; with no sentiment chosen it is [zero] and every entry
    other than ['Mixed'] is below it; otherwise the chosen entry is the last
    of the largest ones other than ['Mixed']. *)
Definition best_so_far (score : Type) (zero : score) (leb : score -> score -> bool)
    (done : list (str * score)) (b : AmazonText.best_sentiment score) : Prop :=
  leb zero (AmazonText.general_sentiment_rate b) = true /\
  match AmazonText.general_sentiment b with
  | None =>
      AmazonText.general_sentiment_rate b = zero /\
      forall k v, In (k, v) done -> k <> py "Mixed" -> leb zero v = false
  | Some key =>
      key <> py "Mixed" /\
      exists before after,
        done = before ++ (key, AmazonText.general_sentiment_rate b) :: after /\
        (forall k v, In (k, v) done -> k <> py "Mixed" ->
                     leb v (AmazonText.general_sentiment_rate b) = true) /\
        (forall k v, In (k, v) after -> k <> py "Mixed" ->
                     leb (AmazonText.general_sentiment_rate b) v = false)
  end.

(* ===================================================================== *)
(** * The fragment of [re.search] used by [format_language_name] *)
(* ===================================================================== *)

Module ReSearch.

(** Pattern syntax: a character class, concatenation and the greedy [*]. *)
Inductive regex : Type :=
| Cls (p : char -> bool)
| Cat (r1 r2 : regex)
| Star (r : regex).

Definition Lit (c : char) : regex := Cls (chr_eqb c).

(** A continuation is given the text that remains and answers with the
    text left after the whole match, or with [None] to make the matcher
    backtrack. *)
Definition cont := str -> option str.
Definition matcher := str -> cont -> option str.

(** Greedy repetition, at most [n] more copies: one more copy first, then
    none.  A copy that consumes nothing ends the repetition. *)
Fixpoint star (m : matcher) (n : nat) : matcher :=
  fun s k =>
    match n with
    | 0 => k s
    | S n' =>
        match m s (fun s' =>
                     if List.length s' <? List.length s then star m n' s' k else None) with
        | Some rest => Some rest
        | None => k s
        end
    end.

Fixpoint bt (r : regex) : matcher :=
  fun s k =>
    match r with
    | Cls p =>
        match s with
        | c :: s' => if p c then k s' else None
        | [] => None
        end
    | Cat r1 r2 => bt r1 s (fun s' => bt r2 s' k)
    | Star r1 => star (bt r1) (List.length s) s k
    end.

(** A match that starts at the beginning of [s]: the text after it. *)
Definition match_here (r : regex) (s : str) : option str :=
  bt r s (fun rest => Some rest).

(** [re.search(r, s)]: the first position from which the pattern matches;
    the answer is [m.group()], or [None]. *)
Fixpoint search (r : regex) (s : str) : option str :=
  match match_here r s with
  | Some rest => Some (firstn (List.length s - List.length rest) s)
  | None =>
      match s with
      | [] => None
      | _ :: s' => search r s'
      end
  end.

End ReSearch.

(* ===================================================================== *)
(** * [languages.py] : display names *)
(* ===================================================================== *)

Definition AUTO_DETECT_NAME : str := py "Auto detection".

Definition lparen : char := 40%N.
Definition rparen : char := 41%N.

Fixpoint drop_while (p : char -> bool) (s : str) : str :=
  match s with
  | c :: s' => if p c then drop_while p s' else s
  | [] => []
  end.

Section Names.

(** The characters that [\s] matches and that [str.strip()] removes. *)
Variable is_space : char -> bool.

Variable Language_get : str -> result Language.
Variable Language_display_name : Language -> str.

(** [pycountry.languages.get(alpha_2=...)], [get(alpha_3=...)] and the
    [name] of an entry. *)
Variable pycountry_get_alpha_2 : str -> option pycountry_language.
Variable pycountry_get_alpha_3 : str -> option pycountry_language.
Variable pycountry_name : pycountry_language -> str.

(** [s.strip()] *)
Definition strip (s : str) : str :=
  rev (drop_while is_space (rev (drop_while is_space s))).

(** [[a-zA-Z\s]] *)
Definition letter_or_space (c : char) : bool :=
  is_lower c || is_upper c || is_space c.

(** [r"\([a-zA-Z\s]*\)"] and [r"[a-zA-Z\s]*\("] *)
Definition parenthesised_re : ReSearch.regex :=
  ReSearch.Cat (ReSearch.Lit lparen)
    (ReSearch.Cat (ReSearch.Star (ReSearch.Cls letter_or_space)) (ReSearch.Lit rparen)).

Definition before_parenthesis_re : ReSearch.regex :=
  ReSearch.Cat (ReSearch.Star (ReSearch.Cls letter_or_space)) (ReSearch.Lit lparen).

(** ** [format_language_name] *)
Definition format_language_name (language_name isocode : str) : pyresult str :=
  if substring_in (py "Unknown language") language_name then
    match ReSearch.search parenthesised_re language_name with
    | Some group =>
        match nth_error (split lparen (hd [] (split rparen group))) 1 with
        | Some inner => Value (py "Region: " ++ strip inner)
        | None => Raised (Exn IndexError)
        end
    | None => Value isocode
    end
  else if substring_in (py "Unknown Region") language_name then
    match ReSearch.search before_parenthesis_re language_name with
    | Some group => Value (strip (hd [] (split lparen group)))
    | None => Raised (AttributeError (py "'NoneType' object has no attribute 'group'"))
    end
  else Value language_name.

(** ** [get_language_name_from_code] *)
Definition get_language_name_from_code (isocode : option str) : pyresult str :=
  match isocode with
  | None => Value []
  | Some iso =>
      if str_eqb iso AUTO_DETECT then Value AUTO_DETECT_NAME
      else if negb (contains dash iso) then
        let language :=
          if Nat.eqb (List.length iso) 2 then pycountry_get_alpha_2 iso
          else pycountry_get_alpha_3 iso in
        match language, iso with
        | None, [] => Value []
        | _, _ =>
            (output <-
               match language with
               | None => l <- lift (Language_get iso) ;; Value (Language_display_name l)
               | Some entry => Value (pycountry_name entry)
               end ;;
             format_language_name output iso)%py
        end
      else
        (l <- lift (Language_get iso) ;;
         format_language_name (Language_display_name l) iso)%py
  end.

End Names.

(** The continuation of a matcher that asks for the character [c] next. *)
Definition then_lit (c : char) : ReSearch.cont :=
  fun s => match s with
           | x :: rest => if chr_eqb c x then Some rest else None
           | [] => None
           end.

Definition no_group_message : str := py "'NoneType' object has no attribute 'group'".

(* ===================================================================== *)
(** * [oneai_api.py] : the result of a speech-to-text job *)
(* ===================================================================== *)

(** [s.split(sep)] for a separator of several characters: the separators
    are found from left to right and do not overlap.  [skip] counts the
    characters of a separator that remain to be passed over. *)
Fixpoint split_on (sep : str) (skip : nat) (s : str) : list str :=
  match s with
  | [] => [[]]
  | c :: s' =>
      match skip with
      | S k => split_on sep k s'
      | 0 =>
          if starts_with sep s then [] :: split_on sep (List.length sep - 1) s'
          else match split_on sep 0 s' with
               | w :: ws => (c :: w) :: ws
               | [] => [[c]]
               end
      end
  end.

Definition split_str (sep s : str) : list str := split_on sep 0 s.

(** [speakers.add(x)] on a set kept as the list of its elements. *)
Definition set_add (x : str) (set : list str) : list str :=
  if existsb (str_eqb x) set then set else set ++ [x].

Module OneAIAudio.

Definition newline : char := 10%N.

Section Adapter.

(** Timestamps are passed on as they are. *)
Variable number : Type.

(** [int(s)]: the integer, or [None] where Python raises [ValueError]. *)
Variable py_int : str -> option Z.

Variable is_space : char -> bool.

Record word_info : Type := {
  speaker : str;
  span_text : str;
  timestamp : number;
  timestamp_end : number
}.

(** [original_response["result"]]: ["input_text"] and
    ["output"][0]["labels"]. *)
Record task_result : Type := {
  input_text : str;
  output : list (list word_info)
}.

Record task_response : Type := {
  status_code : Z;
  status : option str;
  result : option task_result
}.

(** [requests.get] on the task of the given job. *)
Variable get_task : str -> task_response.

Record SpeechDiarizationEntry : Type := {
  segment : str;
  start_time : number;
  end_time : number;
  entry_speaker : Z
}.

Record SpeechDiarization : Type := {
  total_speakers : nat;
  entries : list SpeechDiarizationEntry
}.

Inductive job_answer : Type :=
| Finished (text : str) (diarization : SpeechDiarization)
| Pending.

(** The first loop: the last line of every non-empty paragraph, each
    followed by a space. *)
Definition text_body (final_text : str) (item : str) : str :=
  if negb (str_eqb item []) then
    final_text ++ last (split newline item) [] ++ py " "
  else final_text.

(** The second loop, on [(speakers, diarization_entries)]. *)
Fixpoint words_loop (words_info : list word_info)
    (speakers : list str) (diarization_entries : list SpeechDiarizationEntry)
  : pyresult (list str * list SpeechDiarizationEntry) :=
  match words_info with
  | [] => Value (speakers, diarization_entries)
  | info :: rest =>
      let speakers' := set_add (speaker info) speakers in
      match nth_error (split_str (py "speaker") (speaker info)) 1 with
      | None => Raised (Exn IndexError)
      | Some digits =>
          match py_int digits with
          | None => Raised ValueError
          | Some k =>
              words_loop rest speakers'
                (diarization_entries ++
                 [{| segment := span_text info; start_time := timestamp info;
                     end_time := timestamp_end info; entry_speaker := k |}])
          end
      end
  end.

Definition audio__speech_to_text_async__get_job_result (provider_job_id : str)
  : pyresult job_answer :=
  let response := get_task provider_job_id in
  if Z.eqb (status_code response) 200 then
    match status response with
    | None => Raised (Exn KeyError)
    | Some st =>
        if str_eqb st (py "COMPLETED") then
          match result response with
          | None => Raised (Exn KeyError)
          | Some res =>
              let phrase := split_str [newline; newline] (input_text res) in
              let final_text := fold_left text_body phrase [] in
              match output res with
              | [] => Raised (Exn IndexError)
              | words_info :: _ =>
                  (state <- words_loop words_info [] [] ;;
                   Value (Finished (strip is_space final_text)
                            {| total_speakers := List.length (fst state);
                               entries := snd state |}))%py
              end
          end
        else if str_eqb st (py "RUNNING") then Value Pending
        else Raised ProviderExceptionOf
    end
  else Raised ProviderExceptionOf.

End Adapter.

End OneAIAudio.

(** A speaker name that the loop of the speech-to-text result can number:
    it has a second piece after ["speaker"], and [int] accepts that piece. *)
Definition numbered (number : Type) (py_int : str -> option Z)
    (w : OneAIAudio.word_info number) : Prop :=
  exists digits k,
    nth_error (split_str (py "speaker") (OneAIAudio.speaker w)) 1 = Some digits /\
    py_int digits = Some k.

(* ===================================================================== *)
(** * Stand-ins for the collaborators, used to run the model *)
(* ===================================================================== *)

Module Sample.

(** ASCII digits only. *)
Definition is_digit (c : char) : bool := (48 <=? c)%N && (c <=? 57)%N.

Definition is_alpha (c : char) : bool := is_lower c || is_upper c.

(** A tag parser that classifies subtags by their shape alone and rejects
    an empty or otherwise unexpected subtag. *)
Definition add_subtag (acc : result Language) (w : str) : result Language :=
  (l <- acc ;;
   match List.length w with
   | 2 =>
       if forallb is_alpha w
       then Ok {| language := language l; script := script l; territory := Some w |}
       else Err LanguageTagError
   | 3 =>
       if forallb is_digit w
       then Ok {| language := language l; script := script l; territory := Some w |}
       else if forallb is_alpha w then Ok l else Err LanguageTagError
   | 4 =>
       if forallb is_alpha w
       then Ok {| language := language l; script := Some w; territory := territory l |}
       else Err LanguageTagError
   | _ => Err LanguageTagError
   end)%result.

Definition Language_get (tag : str) : result Language :=
  match split dash tag with
  | first :: rest =>
      if (2 <=? List.length first) && (List.length first <=? 3) && forallb is_alpha first
      then fold_left add_subtag rest
             (Ok {| language := Some first; script := None; territory := None |})
      else Err LanguageTagError
  | [] => Err LanguageTagError
  end.

(** A stricter tag parser: like [langcodes], it also refuses a subtag that
    comes out of order.  The number carried along is the least kind of subtag
    still allowed: 1 for an extended language, 2 for a script, 3 for a
    region, 4 for what may follow a region.  A script or a region moves it
    one past their own kind; a three-letter alphabetic subtag is an extended
    language and is refused once a script or a region has been read. *)
Definition add_ordered_subtag (acc : result (nat * Language)) (w : str)
  : result (nat * Language) :=
  (st <- acc ;;
   let expect := fst st in
   let l := snd st in
   match List.length w with
   | 2 =>
       if forallb is_alpha w && (expect <=? 3)
       then Ok (4, {| language := language l; script := script l; territory := Some w |})
       else Err LanguageTagError
   | 3 =>
       if forallb is_alpha w
       then if expect <=? 1 then Ok (1, l) else Err LanguageTagError
       else if forallb is_digit w && (expect <=? 3)
       then Ok (4, {| language := language l; script := script l; territory := Some w |})
       else Err LanguageTagError
   | 4 =>
       if forallb is_alpha w && (expect <=? 2)
       then Ok (3, {| language := language l; script := Some w; territory := territory l |})
       else Err LanguageTagError
   | _ => Err LanguageTagError
   end)%result.

Definition ordered_Language_get (tag : str) : result Language :=
  match split dash tag with
  | first :: rest =>
      if (2 <=? List.length first) && (List.length first <=? 3) && forallb is_alpha first
      then (st <- fold_left add_ordered_subtag rest
                    (Ok (1, {| language := Some first; script := None; territory := None |})) ;;
            Ok (snd st))%result
      else Err LanguageTagError
  | [] => Err LanguageTagError
  end.

Definition sub (v : option str) : str :=
  match v with
  | Some w => dash :: w
  | None => []
  end.

Definition Language_str (l : Language) : str :=
  match language l with
  | Some w => w
  | None => py "und"
  end ++ sub (script l) ++ sub (territory l).

(** Names known to the reverse lookup. *)
Definition Language_find (name : str) : result Language :=
  if str_eqb name (py "French")
  then Ok {| language := Some (py "fr"); script := None; territory := None |}
  else Err LookupError.

Definition pycountry_languages_get (code : str) : option pycountry_language :=
  if str_eqb code (py "fra") then Some {| alpha_3 := py "fra"; alpha_2 := Some (py "fr") |}
  else if str_eqb code (py "ace") then Some {| alpha_3 := py "ace"; alpha_2 := None |}
  else None.

(** A provider whose info lists [langs]. *)
Definition load_provider (langs : list str) (allow_null : bool)
  : str -> str -> str -> result provider_info :=
  fun _ _ _ =>
    Ok {| info_constraints :=
            Some {| languages := Some langs; allow_null_language := allow_null |} |}.

Definition same_language (a b : str) : bool :=
  str_eqb (hd [] (split dash a)) (hd [] (split dash b)).

(** A matcher that fails on its first [flaky] calls, then answers with the
    desired tag if it is supported, else with the first supported tag of
    the same language, else with [None]. *)
Definition closest_supported_match (flaky : nat)
  : nat -> str -> list str -> result (option str) :=
  fun attempt desired supported =>
    if attempt <? flaky then Err RuntimeError
    else if existsb (str_eqb desired) supported then Ok (Some desired)
    else Ok (find (same_language desired) supported).

(** A matcher that never stops failing. *)
Definition unstable_match : nat -> str -> list str -> result (option str) :=
  fun _ _ _ => Err RuntimeError.

Definition enum_value (e : OneAI.SentimentEnum) : str :=
  match e with
  | OneAI.POSITIVE => py "Positive"
  | OneAI.NEGATIVE => py "Negative"
  | OneAI.NEUTRAL => py "Neutral"
  end.

Definition providerX : str := py "providerX".
Definition text_feature : str := py "text".
Definition sentiment_analysis : str := py "sentiment_analysis".

Definition info_of (langs : list str) : provider_info :=
  {| info_constraints :=
       Some {| languages := Some langs; allow_null_language := false |} |}.

(** The negotiator run against these stand-ins, from an empty log. *)
Definition resolve (langs : list str) (flaky fuel : nat) (iso_code : str)
  : outcome (option str) * log :=
  provide_appropriate_language is_digit Language_get (load_provider langs false)
    (closest_supported_match flaky) fuel iso_code
    providerX text_feature sentiment_analysis [].

(** The same run with the parser that checks the order of the subtags. *)
Definition ordered_resolve (langs : list str) (flaky fuel : nat) (iso_code : str)
  : outcome (option str) * log :=
  provide_appropriate_language is_digit ordered_Language_get (load_provider langs false)
    (closest_supported_match flaky) fuel iso_code
    providerX text_feature sentiment_analysis [].

(** A OneAI answer with two positive labels and one negative. *)
Definition post_sentiments (text : str) : OneAI.http_response :=
  {| OneAI.status_code := 200;
     OneAI.json :=
       {| OneAI.message := None;
          OneAI.output :=
            [ {| OneAI.labels :=
                   [ {| OneAI.span_text := py "great"; OneAI.value := py "POS" |};
                     {| OneAI.span_text := py "awful"; OneAI.value := py "NEG" |};
                     {| OneAI.span_text := py "love it"; OneAI.value := py "POS" |} ] |} ] |} |}.

(** A detector that finds a name and a phone number in
    ['Call John at 555-1234 now'], and one that finds nothing. *)
Definition call_john : str := py "Call John at 555-1234 now".

Definition detect_pii_entities (text language : str) : result (list Amazon.entity) :=
  Ok [ {| Amazon.BeginOffset := 5; Amazon.EndOffset := 9; Amazon.Type_ := py "NAME" |};
       {| Amazon.BeginOffset := 13; Amazon.EndOffset := 21; Amazon.Type_ := py "PHONE" |} ].

Definition detect_nothing (text language : str) : result (list Amazon.entity) :=
  Ok [].

(** A loader that fails, and a matcher that raises [LanguageTagError]
    after its flaky calls. *)
Definition failing_load_provider : str -> str -> str -> result provider_info :=
  fun _ _ _ => Err KeyError.

Definition rejecting_match (flaky : nat) : nat -> str -> list str -> result (option str) :=
  fun attempt _ _ => if attempt <? flaky then Err RuntimeError else Err LanguageTagError.

(** Display names: two known languages, the placeholder for the others. *)
Definition Language_display_name (l : Language) : str :=
  match language l with
  | Some w =>
      if str_eqb w (py "fr") then py "French"
      else if str_eqb w (py "en") then py "English"
      else py "Unknown language [" ++ w ++ py "]"
  | None => py "Unknown language"
  end.

Definition opt_str_eq_dec (a b : option str) : {a = b} + {a <> b}.
Proof. decide equality. apply list_eq_dec. apply N.eq_dec. Defined.

(** [list(set(l))] as the distinct elements of [l], in one fixed order. *)
Definition list_of_set (l : list (option str)) : list (option str) :=
  nodup opt_str_eq_dec l.

Definition list_providers (feature subfeature : str) : result (list str) :=
  Ok [py "p1"; py "p2"].

(** Two providers with overlapping lists. *)
Definition provider_info_of (provider : str) : provider_info :=
  if str_eqb provider (py "p1") then info_of [py "fr"; py "en"]
  else info_of [py "en"; py "es"].

Definition load_provider_by_name : str -> str -> str -> result provider_info :=
  fun provider _ _ => Ok (provider_info_of provider).

(** OneAI answers: a net-negative one, named entities, detected languages. *)
Definition ok_response (ls : list OneAI.label) : OneAI.http_response :=
  {| OneAI.status_code := 200;
     OneAI.json := {| OneAI.message := None; OneAI.output := [ {| OneAI.labels := ls |} ] |} |}.

Definition post_negative (text : str) : OneAI.http_response :=
  ok_response [ {| OneAI.span_text := py "awful"; OneAI.value := py "NEG" |};
                {| OneAI.span_text := py "fine"; OneAI.value := py "POS" |};
                {| OneAI.span_text := py "broken"; OneAI.value := py "NEG" |} ].

Definition post_names (text : str) : OneAIText.names_response :=
  {| OneAIText.status_code := 200;
     OneAIText.message := None;
     OneAIText.output :=
       [ [ {| OneAIText.value := py "Paris"; OneAIText.name := py "GEO" |};
           {| OneAIText.value := py "Ada"; OneAIText.name := py "PERSON" |} ] ] |}.

Definition post_detect_language (text : str) : OneAI.http_response :=
  ok_response [ {| OneAI.span_text := py "bonjour"; OneAI.value := py "French" |};
                {| OneAI.span_text := py "nuqneH"; OneAI.value := py "Klingonese" |} ].

(** Comprehend answers, with scores in thousandths. *)
Definition detect_sentiment (text language : str)
  : AmazonText.client_answer (list (str * Z)) :=
  AmazonText.Answer
    [ (py "Positive", 450%Z); (py "Negative", 50%Z);
      (py "Neutral", 450%Z); (py "Mixed", 900%Z) ].

Definition throttled {A : Type} (text language : str) : AmazonText.client_answer A :=
  AmazonText.ClientErr (py "ThrottlingException: Rate exceeded").

Definition tags : list (str * str) :=
  [ (py "NOUN", py "Noun"); (py "VERB", py "Verb") ].

Definition detect_syntax (text language : str)
  : AmazonText.client_answer (list (AmazonText.syntax_token Z)) :=
  AmazonText.Answer
    [ {| AmazonText.tok_Text := py "dogs"; AmazonText.tok_Tag := py "NOUN";
         AmazonText.tok_Score := 990%Z |};
      {| AmazonText.tok_Text := py "bark"; AmazonText.tok_Tag := py "VERB";
         AmazonText.tok_Score := 980%Z |} ].

Definition detect_syntax_unknown (text language : str)
  : AmazonText.client_answer (list (AmazonText.syntax_token Z)) :=
  AmazonText.Answer
    [ {| AmazonText.tok_Text := py "wow"; AmazonText.tok_Tag := py "INTJ";
         AmazonText.tok_Score := 900%Z |} ].

(** ASCII whitespace. *)
Definition is_space (c : char) : bool :=
  chr_eqb c 32%N || ((9 <=? c)%N && (c <=? 13)%N).

(** pycountry entries by two-letter code, and their names. *)
Definition pycountry_get_alpha_2 (code : str) : option pycountry_language :=
  if str_eqb code (py "fr") then Some {| alpha_3 := py "fra"; alpha_2 := Some (py "fr") |}
  else None.

Definition pycountry_name (entry : pycountry_language) : str :=
  if str_eqb (alpha_3 entry) (py "fra") then py "French" else py "Achinese".

(** Display names in the style of langcodes. *)
Definition display_name_with_region (l : Language) : str :=
  match language l, territory l with
  | Some w, None =>
      if str_eqb w (py "fr") then py "French" else py "Unknown language [" ++ w ++ py "]"
  | Some w, Some t =>
      if str_eqb w (py "fr") then
        if str_eqb t (py "FR") then py "French (France)" else py "French (Unknown Region)"
      else
        if str_eqb t (py "FR") then py "Unknown language (France)"
        else py "Unknown language [" ++ w ++ py "] (Unknown Region)"
  | None, _ => py "Unknown language"
  end.

(** [int(s)] on strings of ASCII digits (what the model needs of it). *)
Definition py_int (s : str) : option Z :=
  match s with
  | [] => None
  | _ =>
      if forallb is_digit s
      then Some (fold_left (fun acc c => (10 * acc + Z.of_N (c - 48))%Z) s 0%Z)
      else None
  end.

(** A finished job with two speakers and three words, and a running one. *)
Definition finished_task : OneAIAudio.task_response Z :=
  {| OneAIAudio.status_code := 200;
     OneAIAudio.status := Some (py "COMPLETED");
     OneAIAudio.result :=
       Some {| OneAIAudio.input_text :=
                 [115; 49; 10; 104; 101; 108; 108; 111; 32; 121; 111; 117; 10; 10;
                  115; 50; 10; 104; 105; 10; 10]%N;
               OneAIAudio.output :=
                 [ [ {| OneAIAudio.speaker := py "speaker1"; OneAIAudio.span_text := py "hello";
                        OneAIAudio.timestamp := 0%Z; OneAIAudio.timestamp_end := 400%Z |};
                     {| OneAIAudio.speaker := py "speaker1"; OneAIAudio.span_text := py "you";
                        OneAIAudio.timestamp := 400%Z; OneAIAudio.timestamp_end := 700%Z |};
                     {| OneAIAudio.speaker := py "speaker2"; OneAIAudio.span_text := py "hi";
                        OneAIAudio.timestamp := 900%Z; OneAIAudio.timestamp_end := 1100%Z |} ] ]
            |} |}.

Definition running_task : OneAIAudio.task_response Z :=
  {| OneAIAudio.status_code := 200;
     OneAIAudio.status := Some (py "RUNNING");
     OneAIAudio.result := None |}.

Definition get_task (provider_job_id : str) : OneAIAudio.task_response Z :=
  if str_eqb provider_job_id (py "done") then finished_task else running_task.

Definition detect_key_phrases (text language : str)
  : AmazonText.client_answer (list (AmazonText.key_phrase Z)) :=
  AmazonText.Answer
    [ {| AmazonText.kp_Text := py "the dogs"; AmazonText.kp_Score := 990%Z |};
      {| AmazonText.kp_Text := py "a bark"; AmazonText.kp_Score := 870%Z |} ].

Definition detect_entities (text language : str)
  : AmazonText.client_answer (list (AmazonText.detected_entity Z)) :=
  AmazonText.Answer
    [ {| AmazonText.ent_Text := py "Ada"; AmazonText.ent_Score := 950%Z;
         AmazonText.ent_Type := py "PERSON" |} ].

End Sample.

(* ===================================================================== *)
(** * Properties *)
(* ===================================================================== *)

(** ** Strings *)

Lemma str_eqb_eq a b : str_eqb a b = true <-> a = b.
Proof.
  revert b; induction a as [|x a IH]; intros [|y b]; simpl; try easy.
  unfold chr_eqb. rewrite andb_true_iff, N.eqb_eq, IH.
  split; [intros [-> ->]; reflexivity | intros H; inversion H; auto].
Qed.

Lemma opt_str_eqb_eq a b : opt_str_eqb a b = true <-> a = b.
Proof.
  destruct a, b; simpl; try easy.
  rewrite str_eqb_eq. split; congruence.
Qed.

Lemma truthy_Some (c : str) : c <> [] -> truthy (Some c) = true.
Proof. destruct c; [congruence | reflexivity]. Qed.

(** ** The matcher accepts exactly the words of its pattern *)

Module ReFacts.
Import Re.

Lemma rep_exact_spec m L :
  implements m L -> forall n, implements (rep_exact m n) (power L n).
Proof.
  intros Hm n; induction n as [|n IH]; intros pos s k; simpl.
  - split.
    + intros Hk. exists [], s. now rewrite Nat.add_0_r.
    + intros (w & s' & -> & -> & Hk). now rewrite Nat.add_0_r in Hk.
  - rewrite (Hm pos s). split.
    + intros (w1 & s1 & -> & HL & Hrest).
      apply IH in Hrest. destruct Hrest as (w2 & s2 & -> & Hp & Hk).
      exists (w1 ++ w2), s2. rewrite <- app_assoc. split; [reflexivity|].
      split; [now exists w1, w2|].
      now rewrite length_app, Nat.add_assoc.
    + intros (w & s' & -> & (w1 & w2 & -> & HL & Hp) & Hk).
      exists w1, (w2 ++ s'). rewrite <- app_assoc. split; [reflexivity|].
      split; [assumption|]. apply IH.
      exists w2, s'. rewrite length_app, Nat.add_assoc in Hk. auto.
Qed.

Lemma rep_upto_spec m L :
  implements m L ->
  forall n pos s k,
    rep_upto m n pos s k = true <->
    exists j w s', j <= n /\ s = w ++ s' /\ power L j pos w /\
                   k (pos + length w) s' = true.
Proof.
  intros Hm n; induction n as [|n IH]; intros pos s k; simpl.
  - split.
    + intros Hk. exists 0, [], s. rewrite Nat.add_0_r. simpl. auto.
    + intros (j & w & s' & Hj & -> & Hp & Hk).
      assert (j = 0) by lia; subst j. simpl in Hp; subst w.
      now rewrite Nat.add_0_r in Hk.
  - rewrite orb_true_iff, (Hm pos s). split.
    + intros [(w1 & s1 & -> & HL & Hrest) | Hk].
      * apply IH in Hrest. destruct Hrest as (j & w2 & s2 & Hj & -> & Hp & Hk).
        exists (S j), (w1 ++ w2), s2. rewrite <- app_assoc.
        split; [lia|]. split; [reflexivity|].
        split; [now exists w1, w2|].
        now rewrite length_app, Nat.add_assoc.
      * exists 0, [], s. rewrite Nat.add_0_r. simpl.
        split; [lia|]. auto.
    + intros (j & w & s' & Hj & -> & Hp & Hk). destruct j as [|j].
      * simpl in Hp; subst w. right. now rewrite Nat.add_0_r in Hk.
      * left. destruct Hp as (w1 & w2 & -> & HL & Hp).
        exists w1, (w2 ++ s'). rewrite <- app_assoc. split; [reflexivity|].
        split; [assumption|]. apply IH.
        exists j, w2, s'. rewrite length_app, Nat.add_assoc in Hk.
        split; [lia|]. auto.
Qed.

Lemma power_app L a b : forall pos w1 w2,
  power L a pos w1 -> power L b (pos + length w1) w2 -> power L (a + b) pos (w1 ++ w2).
Proof.
  induction a as [|a IH]; intros pos w1 w2 H1 H2; simpl in *.
  - subst w1. now rewrite Nat.add_0_r in H2.
  - destruct H1 as (u & v & -> & HL & Hp).
    exists u, (v ++ w2). rewrite <- app_assoc. split; [reflexivity|].
    split; [assumption|]. apply IH; [assumption|].
    now rewrite length_app, Nat.add_assoc in H2.
Qed.

Lemma power_split L a b : forall pos w,
  power L (a + b) pos w ->
  exists w1 w2, w = w1 ++ w2 /\ power L a pos w1 /\ power L b (pos + length w1) w2.
Proof.
  induction a as [|a IH]; intros pos w H; simpl in *.
  - exists [], w. now rewrite Nat.add_0_r.
  - destruct H as (u & v & -> & HL & Hp).
    apply IH in Hp. destruct Hp as (w1 & w2 & -> & H1 & H2).
    exists (u ++ w1), w2. rewrite <- app_assoc. split; [reflexivity|].
    split; [now exists u, w1|].
    now rewrite length_app, Nat.add_assoc.
Qed.

Theorem bt_spec r : implements (bt r) (words r).
Proof.
  induction r as [|p|r1 IH1 r2 IH2|r1 IH1 r2 IH2|r1 IH1 lo hi];
    intros pos s k; simpl.
  - rewrite andb_true_iff, Nat.eqb_eq. split.
    + intros [-> Hk]. exists [], s. simpl. auto.
    + intros (w & s' & -> & [-> ->] & Hk). simpl in Hk. auto.
  - destruct s as [|c s].
    + split; [discriminate|].
      intros (w & s' & Hs & (c & -> & _) & _). discriminate.
    + rewrite andb_true_iff. split.
      * intros [Hp Hk]. exists [c], s. simpl. rewrite Nat.add_1_r.
        split; [reflexivity|]. split; [now exists c | assumption].
      * intros (w & s' & Hs & (c' & -> & Hp) & Hk).
        simpl in Hs, Hk. rewrite Nat.add_1_r in Hk. now inversion Hs; subst.
  - rewrite (IH1 pos s). split.
    + intros (w1 & s1 & -> & H1 & Hrest).
      apply IH2 in Hrest. destruct Hrest as (w2 & s2 & -> & H2 & Hk).
      exists (w1 ++ w2), s2. rewrite <- app_assoc. split; [reflexivity|].
      split; [now exists w1, w2|].
      now rewrite length_app, Nat.add_assoc.
    + intros (w & s' & -> & (w1 & w2 & -> & H1 & H2) & Hk).
      exists w1, (w2 ++ s'). rewrite <- app_assoc. split; [reflexivity|].
      split; [assumption|]. apply IH2.
      exists w2, s'. rewrite length_app, Nat.add_assoc in Hk. auto.
  - rewrite orb_true_iff, (IH1 pos s k), (IH2 pos s k). split.
    + intros [(w & s' & Hs & Hw & Hk) | (w & s' & Hs & Hw & Hk)];
        exists w, s'; auto.
    + intros (w & s' & Hs & [Hw | Hw] & Hk); [left | right]; exists w, s'; auto.
  - rewrite (rep_exact_spec IH1 lo pos s). split.
    + intros (w1 & s1 & -> & Hp1 & Hrest).
      apply (rep_upto_spec IH1) in Hrest.
      destruct Hrest as (j & w2 & s2 & Hj & -> & Hp2 & Hk).
      exists (w1 ++ w2), s2. rewrite <- app_assoc. split; [reflexivity|].
      split.
      * exists (lo + j). split; [lia|]. now apply power_app.
      * now rewrite length_app, Nat.add_assoc.
    + intros (w & s' & -> & (n & Hn & Hp) & Hk).
      replace n with (lo + (n - lo)) in Hp by lia.
      apply power_split in Hp. destruct Hp as (w1 & w2 & -> & Hp1 & Hp2).
      exists w1, (w2 ++ s'). rewrite <- app_assoc. split; [reflexivity|].
      split; [assumption|]. apply (rep_upto_spec IH1).
      exists (n - lo), w2, s'. rewrite length_app, Nat.add_assoc in Hk.
      split; [lia|]. auto.
Qed.

Corollary fullmatch_spec r s : fullmatch r s = true <-> words r 0 s.
Proof.
  unfold fullmatch. rewrite (bt_spec r 0 s at_end). split.
  - intros (w & s' & -> & Hw & Hk). destruct s'; [|discriminate].
    now rewrite app_nil_r.
  - intros Hw. exists s, []. rewrite app_nil_r. auto.
Qed.

End ReFacts.

(** ** [check_language_format] and the tag grammar *)

Section FormatFacts.
Import Re.

Variable is_digit : char -> bool.

Lemma power_class p n : forall pos w,
  power (words (Cls p)) n pos w <-> length w = n /\ forallb p w = true.
Proof.
  induction n as [|n IH]; intros pos w; simpl.
  - split.
    + intros ->. auto.
    + intros [Hl _]. now destruct w.
  - split.
    + intros (w1 & w2 & -> & (c & -> & Hc) & Hp).
      apply IH in Hp. destruct Hp as [Hl Hall]. simpl.
      rewrite Hl, Hc, Hall. auto.
    + intros [Hl Hall]. destruct w as [|c w]; [discriminate|].
      simpl in Hl, Hall. apply andb_true_iff in Hall. destruct Hall as [Hc Hall].
      exists [c], w. split; [reflexivity|]. split; [now exists c|].
      apply IH. split; [lia | assumption].
Qed.

Lemma words_rep_class p lo hi pos w :
  lo <= hi ->
  words (Rep (Cls p) lo hi) pos w <-> all_of p lo hi w.
Proof.
  intros Hle. unfold all_of. simpl. split.
  - intros (n & Hn & Hp). apply power_class in Hp. destruct Hp as [<- Hall].
    split; [lia | assumption].
  - intros [Hl Hall]. exists (length w). split; [lia|].
    apply power_class. auto.
Qed.

Lemma words_optional_dash r (P : str -> Prop) :
  (forall pos w, words r pos w <-> P w) ->
  forall pos w, words (Opt (Cat (Lit dash) r)) pos w <-> optional P w.
Proof.
  intros Hr pos w. unfold optional, Opt. split.
  - intros (n & Hn & Hp). destruct n as [|[|n]]; [| |lia].
    + left. exact Hp.
    + right. destruct Hp as (w1 & w2 & -> & (u & v & -> & (c & -> & Hc) & Hv) & ->).
      exists v. rewrite app_nil_r. split.
      * simpl. unfold chr_eqb in Hc. apply N.eqb_eq in Hc. now subst c.
      * now apply Hr in Hv.
  - intros [-> | (w' & -> & HP)].
    + exists 0. split; [lia | reflexivity].
    + exists 1. split; [lia|].
      exists (dash :: w'), []. rewrite app_nil_r. split; [reflexivity|].
      split; [|reflexivity].
      exists [dash], w'. split; [reflexivity|]. split.
      * exists dash. split; [reflexivity | apply N.eqb_refl].
      * now apply Hr.
Qed.

Lemma words_script pos w :
  words (Cat (Cls is_upper) (Rep (Cls is_lower) 3 3)) pos w <-> script_shape w.
Proof.
  unfold script_shape. split.
  - intros (w1 & w2 & -> & (c & -> & Hc) & Hrest).
    apply words_rep_class in Hrest; [|lia]. now exists c, w2.
  - intros (c & t & -> & Hc & Ht).
    exists [c], t. split; [reflexivity|]. split; [now exists c|].
    apply words_rep_class; [lia | assumption].
Qed.

Lemma words_region pos w :
  words (Alt (Rep (Cls is_upper) 2 3) (Rep (Cls is_digit) 3 3)) pos w
  <-> region_shape is_digit w.
Proof.
  unfold region_shape.
  change (words (Alt (Rep (Cls is_upper) 2 3) (Rep (Cls is_digit) 3 3)) pos w)
    with (words (Rep (Cls is_upper) 2 3) pos w \/ words (Rep (Cls is_digit) 3 3) pos w).
  rewrite !words_rep_class by lia. reflexivity.
Qed.

Lemma words_language_format s :
  words (language_format_re is_digit) 0 s <-> LanguageTag_grammar is_digit s.
Proof.
  unfold language_format_re, LanguageTag_grammar. split.
  - intros (w0 & s0 & -> & [_ ->] & (lang & s1 & -> & Hlang &
                                     (ext & s2 & -> & Hext &
                                      (scr & reg & -> & Hscr & Hreg)))).
    exists lang, ext, scr, reg. split; [reflexivity|].
    split; [apply words_rep_class in Hlang; [assumption | lia]|].
    split; [|split].
    + revert Hext. apply words_optional_dash.
      intros pos w. apply words_rep_class. lia.
    + revert Hscr. apply words_optional_dash. apply words_script.
    + revert Hreg. apply words_optional_dash. apply words_region.
  - intros (lang & ext & scr & reg & -> & Hlang & Hext & Hscr & Hreg).
    exists [], (lang ++ ext ++ scr ++ reg). split; [reflexivity|].
    split; [split; reflexivity|].
    exists lang, (ext ++ scr ++ reg). split; [reflexivity|].
    split; [apply words_rep_class; [lia | assumption]|].
    exists ext, (scr ++ reg). split; [reflexivity|]. split.
    + revert Hext. apply words_optional_dash.
      intros pos w. apply words_rep_class. lia.
    + exists scr, reg. split; [reflexivity|]. split.
      * revert Hscr. apply words_optional_dash. apply words_script.
      * revert Hreg. apply words_optional_dash. apply words_region.
Qed.

Lemma check_language_format_true s :
  is_true_value (check_language_format is_digit (Some s)) = true <->
  LanguageTag_grammar is_digit s.
Proof.
  simpl. rewrite <- words_language_format, <- ReFacts.fullmatch_spec.
  destruct (fullmatch (language_format_re is_digit) s); simpl; split; congruence.
Qed.

End FormatFacts.

(** ** The retry loop *)

Section LoopFacts.

Variable closest_supported_match : nat -> str -> list str -> result (option str).
Variables (iso_code : str) (list_languages : list str).

Let loop := fun fuel attempt =>
  closest_match_loop closest_supported_match fuel attempt iso_code list_languages.

(** The log entries of the attempts [a], [a+1], ..., [a+n-1]. *)
Let attempts (a n : nat) : log :=
  map (fun i => ClosestMatch i iso_code list_languages) (seq a n).

Lemma loop_returns n r : forall fuel a l,
  (forall i, i < n -> closest_supported_match (a + i) iso_code list_languages = Err RuntimeError) ->
  closest_supported_match (a + n) iso_code list_languages = Ok r ->
  n < fuel ->
  loop fuel a l = (Return r, l ++ attempts a (S n)).
Proof.
  induction n as [|n IH]; intros fuel a l Hfail Hok Hfuel;
    (destruct fuel as [|fuel]; [lia|]).
  - unfold loop, attempts; simpl. unfold bind, emit; simpl.
    rewrite Nat.add_0_r in Hok. now rewrite Hok.
  - unfold loop; simpl. unfold bind, emit; simpl.
    pose proof (Hfail 0 ltac:(lia)) as H0. rewrite Nat.add_0_r in H0.
    rewrite H0; simpl.
    fold (loop fuel (S a) (l ++ [ClosestMatch a iso_code list_languages])).
    rewrite (IH fuel (S a)).
    + unfold attempts. rewrite <- app_assoc. reflexivity.
    + intros i Hi. replace (S a + i) with (a + S i) by lia. apply Hfail. lia.
    + replace (S a + n) with (a + S n) by lia. exact Hok.
    + lia.
Qed.

Lemma loop_spins : forall fuel a l,
  (forall i, closest_supported_match i iso_code list_languages = Err RuntimeError) ->
  loop fuel a l = (Spin, l ++ attempts a fuel).
Proof.
  induction fuel as [|fuel IH]; intros a l Hfail.
  - unfold loop, attempts; simpl. now rewrite app_nil_r.
  - unfold loop; simpl. unfold bind, emit; simpl. rewrite Hfail; simpl.
    fold (loop fuel (S a) (l ++ [ClosestMatch a iso_code list_languages])).
    rewrite IH by assumption. unfold attempts. now rewrite <- app_assoc.
Qed.

Lemma loop_settles n r fuel l :
  settles closest_supported_match iso_code list_languages n r ->
  n < fuel ->
  loop fuel 0 l = (Return r, l ++ attempts 0 (S n)).
Proof.
  intros [Hfail Hans] Hfuel. now apply loop_returns.
Qed.

(** Whatever the loop raises, the primitive raised it, and it is not a
    [RuntimeError]. *)
Lemma loop_raises : forall fuel a l e l',
  loop fuel a l = (Raise e, l') ->
  is_RuntimeError e = false /\
  exists i, closest_supported_match i iso_code list_languages = Err e.
Proof.
  induction fuel as [|fuel IH]; intros a l e l' H.
  - discriminate H.
  - unfold loop in H; simpl in H. unfold bind, emit in H; simpl in H.
    destruct (closest_supported_match a iso_code list_languages) as [r|e0] eqn:Hc.
    + discriminate H.
    + destruct (is_RuntimeError e0) eqn:He0.
      * apply IH in H. exact H.
      * inversion H; subst. split; [assumption|]. now exists a.
Qed.

(** Whatever the loop returns, the primitive returned it. *)
Lemma loop_return_inv : forall fuel a l r l',
  loop fuel a l = (Return r, l') ->
  exists i, closest_supported_match i iso_code list_languages = Ok r.
Proof.
  induction fuel as [|fuel IH]; intros a l r l' H.
  - discriminate H.
  - unfold loop in H; simpl in H. unfold bind, emit in H; simpl in H.
    destruct (closest_supported_match a iso_code list_languages) as [r0|e0] eqn:Hc.
    + inversion H; subst. now exists a.
    + destruct (is_RuntimeError e0) eqn:He0.
      * apply IH in H. exact H.
      * discriminate H.
Qed.

End LoopFacts.

(** ** [provide_appropriate_language] *)

Section NegotiatorFacts.

Variable is_digit : char -> bool.
Variable Language_get : str -> result Language.
Variable load_provider : str -> str -> str -> result provider_info.
Variable closest_supported_match : nat -> str -> list str -> result (option str).

Let provide :=
  provide_appropriate_language is_digit Language_get load_provider closest_supported_match.
Let loop := closest_match_loop closest_supported_match.

Lemma load_language_constraints_run provider_name feature subfeature info l :
  load_provider provider_name feature subfeature = Ok info ->
  load_language_constraints load_provider provider_name feature subfeature l =
  (Return (constraint_list info), l ++ [LoadProvider provider_name feature subfeature]).
Proof.
  intros H. unfold load_language_constraints, bind, emit, call. rewrite H.
  unfold ret, constraint_list. destruct (info_constraints info) as [c|]; reflexivity.
Qed.

Lemma load_language_constraints_fails provider_name feature subfeature e l :
  load_provider provider_name feature subfeature = Err e ->
  load_language_constraints load_provider provider_name feature subfeature l =
  (Raise e, l ++ [LoadProvider provider_name feature subfeature]).
Proof.
  intros H. unfold load_language_constraints, bind, emit, call. now rewrite H.
Qed.

Lemma provide_malformed fuel iso_code provider_name feature subfeature l :
  ~ LanguageTag_grammar is_digit iso_code ->
  provide fuel iso_code provider_name feature subfeature l =
  (Raise (SyntaxError (badly_formatted iso_code)), l).
Proof.
  intros Hbad. unfold provide, provide_appropriate_language.
  destruct (is_true_value (check_language_format is_digit (Some iso_code))) eqn:Hf.
  - apply check_language_format_true in Hf. contradiction.
  - reflexivity.
Qed.

(** Once the tag is well formed and the list is loaded, the run is the
    retry loop followed by the disambiguation of a compound tag. *)
Lemma provide_run fuel iso_code provider_name feature subfeature info l :
  LanguageTag_grammar is_digit iso_code ->
  load_provider provider_name feature subfeature = Ok info ->
  provide fuel iso_code provider_name feature subfeature l =
  match loop fuel 0 iso_code (constraint_list info)
          (l ++ [LoadProvider provider_name feature subfeature]) with
  | (Return selected, l') =>
      if contains dash iso_code && truthy selected then
        match selected with
        | Some candidate =>
            match has_language_contrains_script Language_get iso_code candidate with
            | Ok true => (Return selected, l')
            | Ok false =>
                match compare_language_and_region_code Language_get iso_code candidate with
                | Ok true => (Return selected, l')
                | Ok false => (Return None, l')
                | Err e => (Raise e, l')
                end
            | Err e => (Raise e, l')
            end
        | None => (Return selected, l')
        end
      else (Return selected, l')
  | (Raise e, l') => (Raise e, l')
  | (Spin, l') => (Spin, l')
  end.
Proof.
  intros Hok Hload. unfold provide, provide_appropriate_language.
  apply check_language_format_true in Hok. rewrite Hok. cbn [negb]. cbv beta iota.
  unfold bind at 1. rewrite (load_language_constraints_run _ Hload).
  unfold bind at 1. unfold loop.
  destruct (closest_match_loop closest_supported_match fuel 0 iso_code
              (constraint_list info) _) as [[selected|e|] l']; try reflexivity.
  destruct (contains dash iso_code && truthy selected); [|reflexivity].
  destruct selected as [candidate|]; [|reflexivity].
  unfold bind, call, ret, raise.
  destruct (has_language_contrains_script Language_get iso_code candidate) as [[|]|e];
    try reflexivity.
  destruct (compare_language_and_region_code Language_get iso_code candidate) as [[|]|e];
    reflexivity.
Qed.

Lemma has_script_parsed iso_code candidate requested chosen :
  Language_get iso_code = Ok requested ->
  Language_get candidate = Ok chosen ->
  has_language_contrains_script Language_get iso_code candidate =
  Ok (truthy (script requested) && opt_str_eqb (language requested) (language chosen)).
Proof.
  intros H1 H2. unfold has_language_contrains_script, rbind. rewrite H1.
  destruct (truthy (script requested)); [|reflexivity].
  rewrite H2. now destruct (opt_str_eqb _ _).
Qed.

Lemma compare_parsed iso_code candidate requested chosen :
  Language_get iso_code = Ok requested ->
  Language_get candidate = Ok chosen ->
  compare_language_and_region_code Language_get iso_code candidate =
  Ok (opt_str_eqb (language requested) (language chosen) &&
      opt_str_eqb (territory requested) (territory chosen)).
Proof.
  intros H1 H2. unfold compare_language_and_region_code, rbind. rewrite H1, H2.
  now destruct (opt_str_eqb (language requested) (language chosen)).
Qed.

Lemma script_and_language_iff requested chosen :
  truthy (script requested) && opt_str_eqb (language requested) (language chosen) = true
  <-> script_and_language requested chosen.
Proof.
  unfold script_and_language. now rewrite andb_true_iff, opt_str_eqb_eq.
Qed.

Lemma language_and_territory_iff requested chosen :
  opt_str_eqb (language requested) (language chosen) &&
  opt_str_eqb (territory requested) (territory chosen) = true
  <-> language_and_territory requested chosen.
Proof.
  unfold language_and_territory. now rewrite andb_true_iff, !opt_str_eqb_eq.
Qed.

(** The run on a compound tag for which the matcher proposes [candidate]. *)
Lemma provide_compound fuel iso_code provider_name feature subfeature info l
      n candidate requested chosen :
  LanguageTag_grammar is_digit iso_code ->
  contains dash iso_code = true ->
  load_provider provider_name feature subfeature = Ok info ->
  settles closest_supported_match iso_code (constraint_list info) n (Some candidate) ->
  candidate <> [] ->
  Language_get iso_code = Ok requested ->
  Language_get candidate = Ok chosen ->
  n < fuel ->
  fst (provide fuel iso_code provider_name feature subfeature l) =
  Return (if (truthy (script requested) && opt_str_eqb (language requested) (language chosen))
             || (opt_str_eqb (language requested) (language chosen) &&
                 opt_str_eqb (territory requested) (territory chosen))
          then Some candidate else None).
Proof.
  intros Hok Hdash Hload Hset Hne Hreq Hcho Hfuel.
  rewrite (provide_run _ _ Hok Hload). unfold loop.
  erewrite loop_settles by eassumption.
  cbv beta iota. rewrite Hdash, (truthy_Some Hne). cbn [andb]. cbv beta iota.
  rewrite (has_script_parsed Hreq Hcho), (compare_parsed Hreq Hcho).
  destruct (truthy (script requested) && _); [reflexivity|].
  destruct (opt_str_eqb (language requested) (language chosen) && _); reflexivity.
Qed.

(** No call of [Language.get] is guarded: the error it raises on the
    requested tag, or on the candidate, leaves the negotiator. *)
Lemma has_script_unparsed iso_code candidate e :
  Language_get iso_code = Err e ->
  has_language_contrains_script Language_get iso_code candidate = Err e.
Proof.
  intros H. unfold has_language_contrains_script, rbind. now rewrite H.
Qed.

Lemma compare_unparsed_candidate iso_code candidate requested e :
  Language_get iso_code = Ok requested ->
  Language_get candidate = Err e ->
  (has_language_contrains_script Language_get iso_code candidate = Err e \/
   has_language_contrains_script Language_get iso_code candidate = Ok false) /\
  compare_language_and_region_code Language_get iso_code candidate = Err e.
Proof.
  intros H1 H2.
  unfold has_language_contrains_script, compare_language_and_region_code, rbind.
  rewrite H1, H2. destruct (truthy (script requested)); auto.
Qed.

Lemma provide_compound_raises fuel iso_code provider_name feature subfeature info l
      n candidate e :
  LanguageTag_grammar is_digit iso_code ->
  contains dash iso_code = true ->
  load_provider provider_name feature subfeature = Ok info ->
  settles closest_supported_match iso_code (constraint_list info) n (Some candidate) ->
  candidate <> [] ->
  Language_get iso_code = Err e \/
  (exists requested, Language_get iso_code = Ok requested /\ Language_get candidate = Err e) ->
  n < fuel ->
  fst (provide fuel iso_code provider_name feature subfeature l) = Raise e.
Proof.
  intros Hok Hdash Hload Hset Hne Hget Hfuel.
  rewrite (provide_run _ _ Hok Hload). unfold loop.
  erewrite loop_settles by eassumption.
  cbv beta iota. rewrite Hdash, (truthy_Some Hne). cbn [andb]. cbv beta iota.
  destruct Hget as [Hreq | (requested & Hreq & Hcho)].
  - now rewrite (has_script_unparsed _ Hreq).
  - destruct (compare_unparsed_candidate Hreq Hcho) as [[Hs | Hs] Hc]; rewrite Hs.
    + reflexivity.
    + now rewrite Hc.
Qed.

End NegotiatorFacts.

Section NegotiatorRuns.

Variable is_digit : char -> bool.
Variable Language_get : str -> result Language.
Variable load_provider : str -> str -> str -> result provider_info.
Variable closest_supported_match : nat -> str -> list str -> result (option str).

Let provide :=
  provide_appropriate_language is_digit Language_get load_provider closest_supported_match.
Let loop := closest_match_loop closest_supported_match.

Lemma provide_load_fails fuel iso_code provider_name feature subfeature e l :
  LanguageTag_grammar is_digit iso_code ->
  load_provider provider_name feature subfeature = Err e ->
  provide fuel iso_code provider_name feature subfeature l =
  (Raise e, l ++ [LoadProvider provider_name feature subfeature]).
Proof.
  intros Hok Hload. unfold provide, provide_appropriate_language.
  apply check_language_format_true in Hok. rewrite Hok. cbn [negb]. cbv beta iota.
  unfold bind at 1. now erewrite load_language_constraints_fails by eassumption.
Qed.

(** Nothing is logged after the retry loop. *)
Lemma provide_log fuel iso_code provider_name feature subfeature info l :
  LanguageTag_grammar is_digit iso_code ->
  load_provider provider_name feature subfeature = Ok info ->
  snd (provide fuel iso_code provider_name feature subfeature l) =
  snd (loop fuel 0 iso_code (constraint_list info)
         (l ++ [LoadProvider provider_name feature subfeature])).
Proof.
  intros Hok Hload. unfold provide.
  erewrite provide_run by eassumption.
  unfold loop.
  destruct (closest_match_loop _ _ _ _ _ _) as [[selected|e|] l']; try reflexivity.
  destruct (contains dash iso_code && truthy selected); [|reflexivity].
  destruct selected as [candidate|]; [|reflexivity].
  destruct (has_language_contrains_script _ _ _) as [[|]|e]; try reflexivity.
  destruct (compare_language_and_region_code _ _ _) as [[|]|e]; reflexivity.
Qed.

(** A value returned by the negotiator is the one the loop returned, or
    [None]. *)
Lemma provide_return_inv fuel iso_code provider_name feature subfeature info l v :
  LanguageTag_grammar is_digit iso_code ->
  load_provider provider_name feature subfeature = Ok info ->
  fst (provide fuel iso_code provider_name feature subfeature l) = Return v ->
  v = None \/
  exists l', loop fuel 0 iso_code (constraint_list info)
               (l ++ [LoadProvider provider_name feature subfeature]) = (Return v, l').
Proof.
  intros Hok Hload. unfold provide.
  erewrite provide_run by eassumption.
  unfold loop.
  destruct (closest_match_loop _ _ _ _ _ _) as [[selected|e|] l']; simpl;
    try discriminate.
  destruct (contains dash iso_code && truthy selected).
  - destruct selected as [candidate|].
    + destruct (has_language_contrains_script _ _ _) as [[|]|e]; simpl.
      * intros H; inversion H; subst. right. now exists l'.
      * destruct (compare_language_and_region_code _ _ _) as [[|]|e]; simpl;
          intros H; inversion H; subst; [right; now exists l' | now left].
      * discriminate.
    + intros H; inversion H; subst. now left.
  - intros H; inversion H; subst. right. now exists l'.
Qed.

(** An exception raised after loading comes from the loop or from the tag
    parser. *)
Lemma provide_raise_inv fuel iso_code provider_name feature subfeature info l e :
  LanguageTag_grammar is_digit iso_code ->
  load_provider provider_name feature subfeature = Ok info ->
  fst (provide fuel iso_code provider_name feature subfeature l) = Raise e ->
  (exists l', loop fuel 0 iso_code (constraint_list info)
                (l ++ [LoadProvider provider_name feature subfeature]) = (Raise e, l'))
  \/ exists tag, Language_get tag = Err e.
Proof.
  intros Hok Hload. unfold provide.
  erewrite provide_run by eassumption.
  unfold loop.
  destruct (closest_match_loop _ _ _ _ _ _) as [[selected|e0|] l']; simpl;
    try discriminate.
  - destruct (contains dash iso_code && truthy selected); [|discriminate].
    destruct selected as [candidate|]; [|discriminate].
    destruct (has_language_contrains_script _ _ _) as [[|]|e1] eqn:Hs; simpl.
    + discriminate.
    + destruct (compare_language_and_region_code _ _ _) as [[|]|e2] eqn:Hc; simpl;
        try discriminate.
      intros H; inversion H; subst. right.
      unfold compare_language_and_region_code, rbind in Hc.
      destruct (Language_get iso_code) eqn:H1; [|inversion Hc; subst; eauto].
      destruct (Language_get candidate) eqn:H2; [|inversion Hc; subst; eauto].
      destruct (opt_str_eqb _ _); discriminate.
    + intros H; inversion H; subst. right.
      unfold has_language_contrains_script, rbind in Hs.
      destruct (Language_get iso_code) eqn:H1; [|inversion Hs; subst; eauto].
      destruct (truthy _); [|discriminate].
      destruct (Language_get candidate) eqn:H2; [|inversion Hs; subst; eauto].
      destruct (opt_str_eqb _ _); discriminate.
  - intros H; inversion H; subst. left. now exists l'.
Qed.

End NegotiatorRuns.

(* ===================================================================== *)
(** * The tag format *)
(* ===================================================================== *)

(** C3.  [check_language_format] answers [True] exactly on the strings of
    the grammar [lang[-extlang][-Script][-Region]] (2-3 lowercase letters;
    optionally a dash and 2-3 lowercase letters; optionally a dash, an
    uppercase and three lowercase letters; optionally a dash and 2-3
    uppercase letters or three digits; anchored at both ends), and [False]
    on every other string; ['ENG'], ['e-n'] and ['123'] are rejected. *)
Theorem check_language_format_iff_grammar :
  forall is_digit : char -> bool,
    (forall s, check_language_format is_digit (Some s) = Some true
               <-> LanguageTag_grammar is_digit s) /\
    (forall s, check_language_format is_digit (Some s) = Some false
               <-> ~ LanguageTag_grammar is_digit s) /\
    check_language_format is_digit (Some (py "ENG")) = Some false /\
    check_language_format is_digit (Some (py "e-n")) = Some false /\
    check_language_format is_digit (Some (py "123")) = Some false.
Proof.
  intros is_digit.
  assert (Htrue : forall s, check_language_format is_digit (Some s) = Some true
                            <-> LanguageTag_grammar is_digit s).
  { intros s. rewrite <- check_language_format_true. simpl.
    destruct (Re.fullmatch _ s); split; congruence. }
  split; [exact Htrue|]. split; [|repeat split; reflexivity].
  intros s. rewrite <- Htrue. simpl.
  destruct (Re.fullmatch _ s); split; congruence.
Qed.

(* ===================================================================== *)
(** * The negotiator *)
(* ===================================================================== *)

Section Negotiation.

Variable is_digit : char -> bool.
Variable Language_get : str -> result Language.
Variable load_provider : str -> str -> str -> result provider_info.
Variable closest_supported_match : nat -> str -> list str -> result (option str).

Local Abbreviation provide :=
  (provide_appropriate_language is_digit Language_get load_provider closest_supported_match).

(** C1, amended.  For a well-formed tag that contains a dash, when the
    matcher settles on a non-empty candidate tag and [Language.get] parses
    both the requested tag and the candidate, the negotiator returns that
    candidate if and only if the requested tag carries a script and has the
    candidate's language, or has the candidate's language and territory;
    otherwise it returns [None].  In particular ['pt-BR'] against the list
    [['pt-PT']] resolves to [None], whatever the matcher answers from that
    list.  When [Language.get] refuses the requested tag, or accepts it and
    refuses the candidate, the negotiator raises that error: it returns
    neither the candidate nor [None]. *)
Theorem compound_tag_disambiguation :
  (forall fuel iso_code provider_name feature subfeature info l
          n candidate requested chosen,
      LanguageTag_grammar is_digit iso_code ->
      contains dash iso_code = true ->
      load_provider provider_name feature subfeature = Ok info ->
      settles closest_supported_match iso_code (constraint_list info) n (Some candidate) ->
      candidate <> [] ->
      Language_get iso_code = Ok requested ->
      Language_get candidate = Ok chosen ->
      n < fuel ->
      let answer := fst (provide fuel iso_code provider_name feature subfeature l) in
      (answer = Return (Some candidate) <->
       script_and_language requested chosen \/ language_and_territory requested chosen) /\
      (~ (script_and_language requested chosen \/ language_and_territory requested chosen) ->
       answer = Return None)) /\
  (forall fuel provider_name feature subfeature info l n r,
      load_provider provider_name feature subfeature = Ok info ->
      constraint_list info = [py "pt-PT"] ->
      settles closest_supported_match (py "pt-BR") [py "pt-PT"] n r ->
      r = None \/ r = Some (py "pt-PT") ->
      Language_get (py "pt-BR") =
        Ok {| language := Some (py "pt"); script := None; territory := Some (py "BR") |} ->
      Language_get (py "pt-PT") =
        Ok {| language := Some (py "pt"); script := None; territory := Some (py "PT") |} ->
      n < fuel ->
      fst (provide fuel (py "pt-BR") provider_name feature subfeature l) = Return None) /\
  (forall fuel iso_code provider_name feature subfeature info l n candidate e,
      LanguageTag_grammar is_digit iso_code ->
      contains dash iso_code = true ->
      load_provider provider_name feature subfeature = Ok info ->
      settles closest_supported_match iso_code (constraint_list info) n (Some candidate) ->
      candidate <> [] ->
      Language_get iso_code = Err e \/
      (exists requested,
          Language_get iso_code = Ok requested /\ Language_get candidate = Err e) ->
      n < fuel ->
      fst (provide fuel iso_code provider_name feature subfeature l) = Raise e).
Proof.
  split; [|split].
  - intros fuel iso_code provider_name feature subfeature info l n candidate
      requested chosen Hok Hdash Hload Hset Hne Hreq Hcho Hfuel answer.
    rewrite <- script_and_language_iff, <- language_and_territory_iff, <- orb_true_iff.
    unfold answer. erewrite provide_compound by eassumption.
    destruct (_ || _); split.
    + split; auto.
    + intros H; exfalso; apply H; reflexivity.
    + split; [discriminate | discriminate].
    + reflexivity.
  - intros fuel provider_name feature subfeature info l n r Hload Hlist Hset Hr
      Hreq Hcho Hfuel.
    assert (Hok : LanguageTag_grammar is_digit (py "pt-BR"))
      by (apply check_language_format_true; reflexivity).
    rewrite <- Hlist in Hset.
    destruct Hr as [-> | ->].
    + erewrite provide_run by eassumption.
      erewrite loop_settles by eassumption. reflexivity.
    + assert (Hne : py "pt-PT" <> []) by discriminate.
      erewrite provide_compound; try eassumption; reflexivity.
  - intros fuel iso_code provider_name feature subfeature info l n candidate e
      Hok Hdash Hload Hset Hne Hget Hfuel.
    eapply provide_compound_raises; eassumption.
Qed.

(** C2.  On a string outside the grammar the negotiator raises
    [SyntaxError] at once: the collaborator log is left as it was (no
    constraint is loaded, no match is attempted) and no value is returned,
    whatever the fuel; so it is for ['not a tag!!']. *)
Theorem malformed_tag_raises_before_lookup :
  (forall fuel iso_code provider_name feature subfeature l,
      ~ LanguageTag_grammar is_digit iso_code ->
      provide fuel iso_code provider_name feature subfeature l =
      (Raise (SyntaxError (badly_formatted iso_code)), l)) /\
  (forall fuel provider_name feature subfeature,
      provide fuel (py "not a tag!!") provider_name feature subfeature [] =
      (Raise (SyntaxError (py "Language code 'not a tag!!' badly formatted")), [])).
Proof.
  split.
  - intros. now apply provide_malformed.
  - intros. reflexivity.
Qed.

(** C4.  Once the tag is well formed and the constraints are loaded:
    an exception that leaves the negotiator is never a [RuntimeError] of the
    matcher (it is another exception of the matcher, or one of the tag
    parser); if the matcher raises [RuntimeError] [n] times and then answers,
    the loop has called it exactly [n + 1] times, and an answer [None] is
    returned as [None]; and while the matcher keeps raising [RuntimeError]
    the negotiator neither returns nor raises, however long it runs. *)
Theorem runtime_errors_are_retried :
  forall fuel iso_code provider_name feature subfeature info l,
    LanguageTag_grammar is_digit iso_code ->
    load_provider provider_name feature subfeature = Ok info ->
    let run := provide fuel iso_code provider_name feature subfeature l in
    let calls := fun k =>
      map (fun i => ClosestMatch i iso_code (constraint_list info)) (seq 0 k) in
    (forall e, fst run = Raise e ->
       (is_RuntimeError e = false /\
        exists i, closest_supported_match i iso_code (constraint_list info) = Err e)
       \/ exists tag, Language_get tag = Err e) /\
    (forall n r,
       settles closest_supported_match iso_code (constraint_list info) n r -> n < fuel ->
       snd run = l ++ LoadProvider provider_name feature subfeature :: calls (S n) /\
       (r = None -> fst run = Return None)) /\
    ((forall i, closest_supported_match i iso_code (constraint_list info) = Err RuntimeError) ->
     run = (Spin, l ++ LoadProvider provider_name feature subfeature :: calls fuel)).
Proof.
  intros fuel iso_code provider_name feature subfeature info l Hok Hload run calls.
  split; [|split].
  - intros e He. eapply provide_raise_inv in He; try eassumption.
    destruct He as [[l' Hl] | Hp]; [left | now right].
    now apply loop_raises in Hl.
  - intros n r Hset Hfuel.
    assert (Hloop := @loop_settles closest_supported_match iso_code (constraint_list info)
                       n r fuel (l ++ [LoadProvider provider_name feature subfeature])
                       Hset Hfuel).
    split.
    + unfold run. erewrite provide_log by eassumption.
      rewrite Hloop. simpl snd. now rewrite <- app_assoc.
    + intros ->. unfold run. erewrite provide_run by eassumption.
      rewrite Hloop. cbv beta iota. cbn [truthy]. now rewrite andb_false_r.
  - intros Hfail. unfold run. erewrite provide_run by eassumption.
    rewrite loop_spins by assumption. now rewrite <- app_assoc.
Qed.

(** C5.  For a well-formed tag, once the constraints are loaded and the
    matcher has answered: a tag without a dash resolves to exactly the
    matcher's answer, [None] included; and whenever the matcher answers
    [None] the negotiator returns [None] and raises nothing, as for
    ['xx-YY'] against an empty list. *)
Theorem simple_tag_returns_matcher_answer :
  forall fuel iso_code provider_name feature subfeature info l n r,
    LanguageTag_grammar is_digit iso_code ->
    load_provider provider_name feature subfeature = Ok info ->
    settles closest_supported_match iso_code (constraint_list info) n r ->
    n < fuel ->
    let answer := fst (provide fuel iso_code provider_name feature subfeature l) in
    (contains dash iso_code = false -> answer = Return r) /\
    (r = None -> answer = Return None).
Proof.
  intros fuel iso_code provider_name feature subfeature info l n r Hok Hload
    Hset Hfuel answer.
  unfold answer. erewrite provide_run by eassumption.
  erewrite loop_settles by eassumption. cbv beta iota.
  split.
  - intros ->. reflexivity.
  - intros ->. cbn [truthy]. now rewrite andb_false_r.
Qed.

(** C6.  If the matcher only ever answers [None] or an element of the list
    it is given, then a tag returned by the negotiator is a member of the
    constraint list loaded for the provider, feature and subfeature of the
    call. *)
Theorem resolved_tag_in_constraint_list :
  forall fuel iso_code provider_name feature subfeature l tag l',
    (forall attempt desired supported c,
        closest_supported_match attempt desired supported = Ok (Some c) ->
        In c supported) ->
    provide fuel iso_code provider_name feature subfeature l = (Return (Some tag), l') ->
    exists info,
      load_provider provider_name feature subfeature = Ok info /\
      In tag (constraint_list info).
Proof.
  intros fuel iso_code provider_name feature subfeature l tag l' Hmem Hrun.
  destruct (is_true_value (check_language_format is_digit (Some iso_code))) eqn:Hf.
  - apply check_language_format_true in Hf.
    destruct (load_provider provider_name feature subfeature) as [info|e] eqn:Hload.
    + exists info. split; [reflexivity|].
      assert (Hfst : fst (provide fuel iso_code provider_name feature subfeature l)
                     = Return (Some tag)) by now rewrite Hrun.
      eapply provide_return_inv in Hfst; try eassumption.
      destruct Hfst as [Hnone | [l1 Hloop]]; [discriminate|].
      apply loop_return_inv in Hloop. destruct Hloop as [i Hi].
      now apply Hmem in Hi.
    + erewrite provide_load_fails in Hrun by eassumption.
      discriminate.
  - unfold provide_appropriate_language in Hrun. rewrite Hf in Hrun.
    discriminate.
Qed.

End Negotiation.

(* ===================================================================== *)
(** * The conversion helpers *)
(* ===================================================================== *)

Lemma split_nonempty sep s : split sep s <> [].
Proof.
  destruct s as [|c s]; simpl; [discriminate|].
  destruct (chr_eqb c sep); [discriminate|].
  destruct (split sep s); discriminate.
Qed.

(** The first piece of a string that contains the separator is shorter than
    the string. *)
Lemma first_piece_shorter sep s :
  contains sep s = true -> length (hd [] (split sep s)) < length s.
Proof.
  induction s as [|c s IH]; simpl; [discriminate|].
  unfold chr_eqb. rewrite N.eqb_sym. fold (chr_eqb c sep).
  destruct (chr_eqb c sep) eqn:Hc; simpl.
  - intros _. lia.
  - intros H. specialize (IH H).
    pose proof (split_nonempty sep s) as Hne.
    destruct (split sep s) as [|w ws]; [contradiction|]. simpl in *. lia.
Qed.

Section Helpers.

Variable Language_get : str -> result Language.
Variable Language_str : Language -> str.
Variable Language_find : str -> result Language.
Variable pycountry_languages_get : str -> option pycountry_language.

Local Abbreviation convert :=
  (convert_three_two_letters Language_get Language_str pycountry_languages_get).

Lemma three_chars_not_three_letter_compound s : length s = 3 -> three_letter_compound s = false.
Proof.
  intros Hl. unfold three_letter_compound. destruct (contains dash s) eqn:Hd; [|reflexivity].
  apply first_piece_shorter in Hd. simpl. apply Nat.eqb_neq. lia.
Qed.

(** C7.  When the name is [None] or empty, or [Language.find] raises a
    [LookupError] on it, [get_code_from_language_name] raises nothing and
    returns the string ['Unknow'], which is not the string ['Unknown']. *)
Theorem lookup_failure_returns_Unknow :
  forall name,
    (truthy name = false \/
     exists n e, name = Some n /\ Language_find n = Err e /\ is_LookupError e = true) ->
    get_code_from_language_name Language_str Language_find name = Ok (py "Unknow") /\
    py "Unknow" <> py "Unknown".
Proof.
  intros name H. split; [|discriminate].
  unfold get_code_from_language_name.
  destruct H as [Hf | (n & e & -> & Hfind & He)].
  - now rewrite Hf.
  - destruct (truthy (Some n)); [|reflexivity]. simpl. now rewrite Hfind, He.
Qed.

(** C8 (amended).  On a string the conversion returns a string whenever
    the tag parser accepts that string, and raises only what the parser
    raises: a three-character code that pycountry knows gives its
    two-letter code, or its three-letter code when it has no two-letter
    one; a string whose length is not 3 and which is not a dashed tag with a
    three-character first subtag is returned unchanged; in the remaining
    cases the result is the parser's rendering of the input.  On [None] the
    result is [None]. *)
Theorem convert_three_two_letters_cases :
  forall s,
    (forall l, Language_get s = Ok l -> exists r, convert (Some s) = Ok (Some r)) /\
    (forall e, convert (Some s) = Err e -> Language_get s = Err e) /\
    (forall entry two,
        length s = 3 -> pycountry_languages_get s = Some entry ->
        alpha_2 entry = Some two -> convert (Some s) = Ok (Some two)) /\
    (forall entry,
        length s = 3 -> pycountry_languages_get s = Some entry ->
        alpha_2 entry = None -> convert (Some s) = Ok (Some (alpha_3 entry))) /\
    (length s <> 3 -> three_letter_compound s = false -> convert (Some s) = Ok (Some s)) /\
    (three_letter_compound s = true \/ (length s = 3 /\ pycountry_languages_get s = None) ->
     convert (Some s) =
     match Language_get s with
     | Ok l => Ok (Some (Language_str l))
     | Err e => Err e
     end) /\
    convert None = Ok None.
Proof.
  intros s. unfold convert_three_two_letters. fold (three_letter_compound s).
  repeat split.
  - intros l Hl. unfold rbind. rewrite Hl.
    destruct (three_letter_compound s); [eauto|].
    destruct (negb (length s =? 3)); [eauto|].
    destruct (pycountry_languages_get s); eauto.
  - intros e. unfold rbind.
    destruct (three_letter_compound s).
    + destruct (Language_get s); [discriminate | congruence].
    + destruct (negb (length s =? 3)); [discriminate|].
      destruct (pycountry_languages_get s); [discriminate|].
      destruct (Language_get s); [discriminate | congruence].
  - intros entry two Hl Hp Ha.
    rewrite (three_chars_not_three_letter_compound _ Hl), Hl, Hp, Ha. reflexivity.
  - intros entry Hl Hp Ha.
    rewrite (three_chars_not_three_letter_compound _ Hl), Hl, Hp, Ha. reflexivity.
  - intros Hl Hc. rewrite Hc. apply Nat.eqb_neq in Hl. now rewrite Hl.
  - intros [Hc | [Hl Hp]]; unfold rbind.
    + now rewrite Hc.
    + now rewrite (three_chars_not_three_letter_compound _ Hl), Hl, Hp.
Qed.

End Helpers.

(* ===================================================================== *)
(** * The OneAI sentiment adapter *)
(* ===================================================================== *)

Module OneAIFacts.
Import OneAI.

Section Aggregation.

Variable enum_value : SentimentEnum -> str.
Variable post_sentiments : str -> http_response.

Lemma sentiment_of_cases item :
  sentiment_of item = POSITIVE \/ sentiment_of item = NEGATIVE.
Proof. unfold sentiment_of. destruct (str_eqb _ _); auto. Qed.

(** The integer the loop accumulates is the signed count of the labels. *)
Lemma loop_counts ls : forall its g,
  snd (fold_left (loop_body enum_value) ls (its, g)) =
  (g + Z.of_nat (positives ls) - Z.of_nat (negatives ls))%Z.
Proof.
  induction ls as [|item ls IH]; intros its g.
  - simpl. lia.
  - simpl fold_left. unfold loop_body at 2. simpl fst. simpl snd. rewrite IH.
    unfold positives, negatives. simpl filter.
    destruct (sentiment_of_cases item) as [-> | ->]; simpl SentimentEnum_eqb;
      cbv iota; simpl length; lia.
Qed.

Lemma loop_counts_from_start ls :
  snd (fold_left (loop_body enum_value) ls ([], 0%Z)) =
  (Z.of_nat (positives ls) - Z.of_nat (negatives ls))%Z.
Proof. rewrite loop_counts. lia. Qed.

(** C9.  When the provider answers 200 and the first output block has
    strictly more labels counted positive than negative, the branch for a
    positive total rebinds the integer accumulator [general_sentiment] to
    [SentimentEnum.POSITIVE] and leaves [general_sentiment_text] at
    [SentimentEnum.NEUTRAL]; the [general_sentiment] of the standardized
    response is therefore the value of [NEUTRAL]. *)
Theorem net_positive_yields_neutral :
  forall language text block rest,
    status_code (post_sentiments text) = 200%Z ->
    output (json (post_sentiments text)) = block :: rest ->
    negatives (labels block) < positives (labels block) ->
    l_general_sentiment (aggregate enum_value (labels block)) = PyEnum POSITIVE /\
    l_general_sentiment_text (aggregate enum_value (labels block)) = NEUTRAL /\
    exists response,
      text__sentiment_analysis enum_value post_sentiments language text = Ok response /\
      general_sentiment (standardized_response response) = enum_value NEUTRAL.
Proof.
  intros language text block rest Hstatus Hout Hnet.
  assert (Hagg : l_general_sentiment (aggregate enum_value (labels block)) = PyEnum POSITIVE /\
                 l_general_sentiment_text (aggregate enum_value (labels block)) = NEUTRAL).
  { unfold aggregate.
    pose proof (loop_counts_from_start (labels block)) as Hg.
    destruct (fold_left (loop_body enum_value) (labels block) ([], 0%Z)) as [its g].
    simpl in Hg. subst g.
    destruct (Z.ltb_spec (Z.of_nat (positives (labels block)) -
                          Z.of_nat (negatives (labels block))) 0); [lia|].
    destruct (Z.gtb_spec (Z.of_nat (positives (labels block)) -
                          Z.of_nat (negatives (labels block))) 0); [|lia].
    split; reflexivity. }
  destruct Hagg as [Hacc Htext]. split; [assumption|]. split; [assumption|].
  unfold text__sentiment_analysis. rewrite Hstatus, Hout. simpl.
  eexists. split; [reflexivity|]. simpl. now rewrite Htext.
Qed.

End Aggregation.

End OneAIFacts.

(* ===================================================================== *)
(** * The Amazon anonymization adapter *)
(* ===================================================================== *)

Module AmazonFacts.
Import Amazon.

Lemma slice_prefix text tail a b :
  (0 <= a)%Z -> (0 <= b <= Z.of_nat (length text))%Z ->
  slice (text ++ tail) a b = slice text a b.
Proof.
  intros Ha Hb. unfold slice, clamp. rewrite length_app, Nat2Z.inj_add.
  destruct (Z.ltb_spec a 0); [lia|]. destruct (Z.ltb_spec b 0); [lia|].
  set (n := Z.of_nat (length text)) in *. set (m := Z.of_nat (length tail)).
  assert (Hm : (0 <= m)%Z) by (unfold m; lia).
  replace (Z.min b (n + m)) with b by lia.
  replace (Z.min b n) with b by lia.
  destruct (Z.le_gt_cases a n) as [Han | Han].
  - replace (Z.min a (n + m)) with a by lia. replace (Z.min a n) with a by lia.
    rewrite skipn_app.
    replace (Z.to_nat a - length text) with 0 by (unfold n in *; lia).
    simpl skipn. rewrite firstn_app.
    destruct (Z.le_gt_cases b a) as [Hba | Hba].
    + replace (Z.to_nat (b - a)) with 0 by lia. reflexivity.
    + rewrite length_skipn.
      replace (Z.to_nat (b - a) - (length text - Z.to_nat a)) with 0
        by (unfold n in *; lia).
      simpl. now rewrite app_nil_r.
  - replace (Z.to_nat (b - Z.min a (n + m))) with 0 by lia.
    replace (Z.to_nat (b - Z.min a n)) with 0 by lia. reflexivity.
Qed.

Section Anonymization.

Variable detect_pii_entities : str -> str -> result (list entity).

(** The loop, resumed after the entities [done], appends the pieces of the
    remaining ones. *)
Lemma loop_pieces text : forall todo done acc,
  snd (fold_left (loop_body text) todo (previous_end (done ++ todo) (length done), acc)) =
  acc ++ concat (map (piece text (done ++ todo)) (seq (length done) (length todo))).
Proof.
  induction todo as [|e todo IH]; intros done acc.
  - simpl. now rewrite app_nil_r.
  - simpl fold_left. unfold loop_body at 2. simpl fst. simpl snd.
    specialize (IH (done ++ [e])
                   (acc ++ slice text (previous_end (done ++ e :: todo) (length done))
                                 (BeginOffset e) ++ placeholder e)).
    rewrite <- app_assoc in IH. simpl app in IH.
    rewrite length_app in IH. simpl length in IH. rewrite Nat.add_1_r in IH.
    assert (Hnth : nth (length done) (done ++ e :: todo) no_entity = e)
      by apply nth_middle.
    assert (Hprev : previous_end (done ++ e :: todo) (S (length done)) = EndOffset e)
      by (simpl; now rewrite Hnth).
    rewrite Hprev in IH. etransitivity; [exact IH|].
    simpl length. simpl seq. simpl map. simpl concat.
    unfold piece at 2. rewrite Hnth. now rewrite <- !app_assoc.
Qed.

Lemma pieces_prefix text tail entities :
  Forall (fun e => (0 <= BeginOffset e <= Z.of_nat (length text))%Z /\
                   (0 <= EndOffset e)%Z) entities ->
  pieces (text ++ tail) entities = pieces text entities.
Proof.
  intros Hall. unfold pieces. f_equal. apply map_ext_in. intros i Hi.
  apply in_seq in Hi. unfold piece. f_equal.
  assert (Hnth : forall j, j < length entities ->
            (0 <= BeginOffset (nth j entities no_entity) <= Z.of_nat (length text))%Z /\
            (0 <= EndOffset (nth j entities no_entity))%Z).
  { intros j Hj. rewrite Forall_forall in Hall. apply Hall. now apply nth_In. }
  apply slice_prefix.
  - destruct i as [|j]; simpl; [lia|]. apply Hnth. lia.
  - apply Hnth. lia.
Qed.

(** C10.  When the provider returns its entities, the result string is the
    concatenation, entity by entity, of the text from the previous entity's
    [EndOffset] (from 0 for the first) up to this entity's [BeginOffset]
    followed by ["<Type>"]; nothing is appended after the last entity, so
    whatever follows the offsets in the text has no effect on the result;
    and with no entity the result is the empty string, which differs from
    any non-empty input text. *)
Theorem anonymization_keeps_only_text_before_entities :
  forall text language entities,
    detect_pii_entities text language = Ok entities ->
    exists response,
      text__anonymization detect_pii_entities text language = Ok response /\
      result_ (standardized_response response) = pieces text entities /\
      (forall head tail,
          text = head ++ tail ->
          Forall (fun e => (0 <= BeginOffset e <= Z.of_nat (length head))%Z /\
                           (0 <= EndOffset e)%Z) entities ->
          result_ (standardized_response response) = pieces head entities) /\
      (entities = [] ->
       result_ (standardized_response response) = [] /\
       (text <> [] -> result_ (standardized_response response) <> text)).
Proof.
  intros text language entities Hdetect.
  unfold text__anonymization. rewrite Hdetect.
  pose proof (loop_pieces text entities [] []) as Hloop. simpl in Hloop.
  destruct (fold_left (loop_body text) entities (0%Z, [])) as [last_end new_text].
  simpl in Hloop. eexists. split; [reflexivity|]. simpl.
  fold (pieces text entities) in Hloop. subst new_text.
  split; [reflexivity|]. split.
  - intros head tail -> Hall. now apply pieces_prefix.
  - intros ->. split; [reflexivity|]. intros Hne Heq. apply Hne. now rewrite <- Heq.
Qed.

End Anonymization.

End AmazonFacts.

(* ===================================================================== *)
(** * Further properties of the tag format *)
(* ===================================================================== *)

Lemma is_lower_not_dash c : is_lower c = true -> chr_eqb c dash = false.
Proof.
  unfold is_lower, chr_eqb, dash. intros H. apply andb_true_iff in H.
  destruct H as [H1 _]. apply N.leb_le in H1. apply N.eqb_neq. lia.
Qed.

(** The first piece of [w ++ rest] is [w] when [w] has no separator and
    [rest] is empty or starts with one. *)
Lemma split_first_piece sep w rest :
  forallb (fun c => negb (chr_eqb c sep)) w = true ->
  rest = [] \/ (exists r, rest = sep :: r) ->
  hd [] (split sep (w ++ rest)) = w.
Proof.
  intros Hw Hrest. induction w as [|c w IH]; simpl in *.
  - destruct Hrest as [-> | [r ->]]; [reflexivity|].
    simpl. unfold chr_eqb. now rewrite N.eqb_refl.
  - apply andb_true_iff in Hw. destruct Hw as [Hc Hw]. specialize (IH Hw).
    apply negb_true_iff in Hc. rewrite Hc.
    pose proof (split_nonempty sep (w ++ rest)) as Hne.
    destruct (split sep (w ++ rest)) as [|p ps]; [contradiction|].
    simpl in *. now subst.
Qed.

Lemma contains_cons c a s : contains c (a :: s) = chr_eqb c a || contains c s.
Proof. reflexivity. Qed.

Lemma contains_app c a b : contains c (a ++ b) = contains c a || contains c b.
Proof. unfold contains. apply existsb_app. Qed.

Lemma lowers_no_dash w :
  forallb is_lower w = true -> forallb (fun c => negb (chr_eqb c dash)) w = true.
Proof.
  intros H. rewrite forallb_forall in *. intros c Hc.
  apply negb_true_iff. apply is_lower_not_dash. auto.
Qed.

Lemma lowers_contains_no_dash w :
  forallb is_lower w = true -> contains dash w = false.
Proof.
  intros H. unfold contains. apply not_true_is_false. intros Hex.
  apply existsb_exists in Hex. destruct Hex as (c & Hin & Hc).
  rewrite forallb_forall in H. specialize (H c Hin).
  apply is_lower_not_dash in H. unfold chr_eqb in *.
  rewrite N.eqb_sym in Hc. congruence.
Qed.

Section FormatShape.

Variable is_digit : char -> bool.

Lemma accepted_grammar s :
  check_language_format is_digit (Some s) = Some true <-> LanguageTag_grammar is_digit s.
Proof.
  rewrite <- check_language_format_true. unfold check_language_format, is_true_value.
  destruct (Re.fullmatch _ s); split; congruence.
Qed.

Lemma grammar_nonempty s : LanguageTag_grammar is_digit s -> s <> [].
Proof.
  intros (lang & ext & scr & reg & -> & [Hl _] & _) Hnil.
  apply (f_equal (@length char)) in Hnil. rewrite length_app in Hnil.
  simpl in Hnil. lia.
Qed.

Local Abbreviation tag_char := (tag_char is_digit).

Lemma forallb_weaken (p q : char -> bool) w :
  (forall c, p c = true -> q c = true) -> forallb p w = true -> forallb q w = true.
Proof.
  intros Hpq H. rewrite forallb_forall in *. auto.
Qed.

Lemma optional_part_shape (P : str -> Prop) lo hi w :
  (forall v, P v -> lo <= length v <= hi /\ forallb tag_char v = true) ->
  optional P w -> length w <= S hi /\ forallb tag_char w = true /\
                  (w = [] \/ exists r, w = dash :: r).
Proof.
  intros HP [-> | (v & -> & Hv)].
  - simpl. repeat split; [lia | now left].
  - apply HP in Hv. destruct Hv as [Hl Hall]. simpl. rewrite Hall.
    unfold tag_char at 1. unfold chr_eqb at 1. rewrite N.eqb_refl, orb_true_r.
    repeat split; [lia | right; now exists v].
Qed.

(** X1.  A tag accepted by [check_language_format] has between 2 and 16
    characters, each of them a lowercase or uppercase ASCII letter, a digit
    of [\d] or a dash, and it starts with two lowercase letters. *)
Theorem accepted_tag_shape :
  forall s,
    check_language_format is_digit (Some s) = Some true ->
    2 <= length s <= 16 /\
    forallb tag_char s = true /\
    forallb is_lower (firstn 2 s) = true.
Proof.
  intros s H. apply accepted_grammar in H.
  destruct H as (lang & ext & scr & reg & -> & [Hl Hlang] & Hext & Hscr & Hreg).
  assert (Hlower : forall c, is_lower c = true -> tag_char c = true)
    by (intros c Hc; unfold tag_char; now rewrite Hc).
  assert (Hupper : forall c, is_upper c = true -> tag_char c = true)
    by (intros c Hc; unfold tag_char; rewrite Hc; now rewrite orb_true_r).
  assert (Hdigit : forall c, is_digit c = true -> tag_char c = true)
    by (intros c Hc; unfold tag_char; rewrite Hc; now rewrite !orb_true_r).
  apply (@optional_part_shape _ 2 3) in Hext.
  2:{ intros v [Hv Hall]. split; [lia|]. exact (@forallb_weaken _ _ _ Hlower Hall). }
  apply (@optional_part_shape _ 4 4) in Hscr.
  2:{ intros v (c & t & -> & Hc & [Ht Hall]). simpl. split; [lia|].
      rewrite (Hupper c Hc). exact (@forallb_weaken _ _ _ Hlower Hall). }
  apply (@optional_part_shape _ 2 3) in Hreg.
  2:{ intros v [[Hv Hall] | [Hv Hall]]; (split; [lia|]);
        [exact (@forallb_weaken _ _ _ Hupper Hall) | exact (@forallb_weaken _ _ _ Hdigit Hall)]. }
  destruct Hext as (He & Hea & _), Hscr as (Hs & Hsa & _), Hreg as (Hr & Hra & _).
  rewrite !length_app, !forallb_app, Hea, Hsa, Hra.
  rewrite (@forallb_weaken _ _ _ Hlower Hlang).
  split; [lia|]. split; [reflexivity|].
  destruct lang as [|a [|b lang]]; simpl in Hl; try lia.
  simpl in *. apply andb_true_iff in Hlang. destruct Hlang as [Ha Hlang].
  apply andb_true_iff in Hlang. destruct Hlang as [Hb _]. now rewrite Ha, Hb.
Qed.

(** X2.  The first subtag of an accepted tag, [tag.split("-")[0]], is its
    language subtag: 2 or 3 lowercase letters, without a dash, itself an
    accepted tag; and the tag has no dash exactly when it is that subtag
    alone. *)
Theorem first_subtag_of_accepted_tag :
  forall s,
    check_language_format is_digit (Some s) = Some true ->
    let first := hd [] (split dash s) in
    all_of is_lower 2 3 first /\
    contains dash first = false /\
    check_language_format is_digit (Some first) = Some true /\
    (contains dash s = false <-> s = first).
Proof.
  intros s H first. apply accepted_grammar in H.
  destruct H as (lang & ext & scr & reg & -> & Hlang & Hext & Hscr & Hreg).
  assert (Hrest : ext ++ scr ++ reg = [] \/ exists r, ext ++ scr ++ reg = dash :: r).
  { destruct Hext as [-> | (e & -> & _)]; [|right; simpl; eauto].
    destruct Hscr as [-> | (e & -> & _)]; [|right; simpl; eauto].
    destruct Hreg as [-> | (e & -> & _)]; [now left | right; simpl; eauto]. }
  assert (Hfirst : first = lang).
  { unfold first. apply split_first_piece; [|assumption].
    apply lowers_no_dash. apply Hlang. }
  rewrite Hfirst. split; [assumption|].
  split; [apply lowers_contains_no_dash, Hlang|].
  split.
  - assert (Hg : LanguageTag_grammar is_digit lang).
    { exists lang, [], [], []. rewrite !app_nil_r.
      repeat split; try apply Hlang; now left. }
    now apply accepted_grammar.
  - rewrite contains_app, (lowers_contains_no_dash _ (proj2 Hlang)). simpl.
    destruct Hrest as [-> | [r Hr]].
    + rewrite app_nil_r. split; reflexivity.
    + assert (Hd : contains dash (dash :: r) = true) by reflexivity.
      rewrite Hr, Hd. simpl.
      split; [discriminate|]. intros Heq.
      apply (f_equal (@length char)) in Heq. rewrite length_app in Heq.
      simpl in Heq. lia.
Qed.

End FormatShape.

(* ===================================================================== *)
(** * Further properties of the negotiator *)
(* ===================================================================== *)

Section LoopErrors.

Variable closest_supported_match : nat -> str -> list str -> result (option str).
Variables (iso_code : str) (list_languages : list str).

(** After [n] [RuntimeError]s, another exception ends the loop. *)
Lemma loop_raises_at n e : forall fuel a l,
  (forall i, i < n -> closest_supported_match (a + i) iso_code list_languages = Err RuntimeError) ->
  closest_supported_match (a + n) iso_code list_languages = Err e ->
  is_RuntimeError e = false ->
  n < fuel ->
  closest_match_loop closest_supported_match fuel a iso_code list_languages l =
  (Raise e, l ++ map (fun i => ClosestMatch i iso_code list_languages) (seq a (S n))).
Proof.
  induction n as [|n IH]; intros fuel a l Hfail Herr He Hfuel;
    (destruct fuel as [|fuel]; [lia|]).
  - simpl. unfold bind, emit; simpl.
    rewrite Nat.add_0_r in Herr. now rewrite Herr, He.
  - simpl. unfold bind, emit; simpl.
    pose proof (Hfail 0 ltac:(lia)) as H0. rewrite Nat.add_0_r in H0.
    rewrite H0; simpl.
    rewrite (IH fuel (S a)).
    + rewrite <- app_assoc. reflexivity.
    + intros i Hi. replace (S a + i) with (a + S i) by lia. apply Hfail. lia.
    + replace (S a + n) with (a + S n) by lia. exact Herr.
    + assumption.
    + lia.
Qed.

End LoopErrors.

Section NegotiationMore.

Variable is_digit : char -> bool.
Variable Language_get : str -> result Language.
Variable load_provider : str -> str -> str -> result provider_info.
Variable closest_supported_match : nat -> str -> list str -> result (option str).

Local Abbreviation provide :=
  (provide_appropriate_language is_digit Language_get load_provider closest_supported_match).

(** X3.  Only [RuntimeError] is retried: when the matcher raises
    [RuntimeError] [n] times and then another exception, the negotiator
    raises that exception after exactly [n + 1] calls of the matcher. *)
Theorem other_matcher_errors_propagate :
  forall fuel iso_code provider_name feature subfeature info l n e,
    check_language_format is_digit (Some iso_code) = Some true ->
    load_provider provider_name feature subfeature = Ok info ->
    (forall i, i < n ->
       closest_supported_match i iso_code (constraint_list info) = Err RuntimeError) ->
    closest_supported_match n iso_code (constraint_list info) = Err e ->
    is_RuntimeError e = false ->
    n < fuel ->
    provide fuel iso_code provider_name feature subfeature l =
    (Raise e,
     l ++ LoadProvider provider_name feature subfeature
       :: map (fun i => ClosestMatch i iso_code (constraint_list info)) (seq 0 (S n))).
Proof.
  intros fuel iso_code provider_name feature subfeature info l n e
    Hok Hload Hfail Herr He Hfuel.
  apply accepted_grammar in Hok.
  erewrite provide_run by eassumption.
  erewrite loop_raises_at; eauto. now rewrite <- app_assoc.
Qed.

(** X4.  When the provider loader raises, the negotiator raises the same
    exception and the matcher is never called, whatever the fuel. *)
Theorem loader_error_propagates :
  forall fuel iso_code provider_name feature subfeature e l,
    check_language_format is_digit (Some iso_code) = Some true ->
    load_provider provider_name feature subfeature = Err e ->
    provide fuel iso_code provider_name feature subfeature l =
    (Raise e, l ++ [LoadProvider provider_name feature subfeature]).
Proof.
  intros fuel iso_code provider_name feature subfeature e l Hok Hload.
  apply accepted_grammar in Hok.
  now erewrite provide_load_fails by eassumption.
Qed.

(** X5.  A tag that the matcher finds as it is in the list is never
    refused: when the matcher settles on the requested tag itself, and the
    tag parser accepts it, the negotiator returns it, dashed or not. *)
Theorem supported_tag_is_returned :
  forall fuel iso_code provider_name feature subfeature info l n parsed,
    check_language_format is_digit (Some iso_code) = Some true ->
    load_provider provider_name feature subfeature = Ok info ->
    settles closest_supported_match iso_code (constraint_list info) n (Some iso_code) ->
    Language_get iso_code = Ok parsed ->
    n < fuel ->
    fst (provide fuel iso_code provider_name feature subfeature l) = Return (Some iso_code).
Proof.
  intros fuel iso_code provider_name feature subfeature info l n parsed
    Hok Hload Hset Hparse Hfuel.
  apply accepted_grammar in Hok.
  destruct (contains dash iso_code) eqn:Hdash.
  - assert (Hne : iso_code <> []) by (eapply grammar_nonempty; eassumption).
    erewrite provide_compound by eassumption.
    assert (Hl : opt_str_eqb (language parsed) (language parsed) = true)
      by now apply opt_str_eqb_eq.
    assert (Ht : opt_str_eqb (territory parsed) (territory parsed) = true)
      by now apply opt_str_eqb_eq.
    rewrite Hl, Ht. simpl. now rewrite orb_true_r.
  - erewrite provide_run by eassumption.
    erewrite loop_settles by eassumption. cbv beta iota. now rewrite Hdash.
Qed.

(** X6.  On tags that the parser accepts, [compare_language_and_region_code]
    is an equivalence: every tag compares equal to itself, the order of the
    two arguments does not matter, and equality carries over a third tag. *)
Theorem compare_language_and_region_code_equivalence :
  forall a b c pa pb pc,
    Language_get a = Ok pa -> Language_get b = Ok pb -> Language_get c = Ok pc ->
    compare_language_and_region_code Language_get a a = Ok true /\
    compare_language_and_region_code Language_get a b =
      compare_language_and_region_code Language_get b a /\
    (compare_language_and_region_code Language_get a b = Ok true ->
     compare_language_and_region_code Language_get b c = Ok true ->
     compare_language_and_region_code Language_get a c = Ok true).
Proof.
  intros a b c pa pb pc Ha Hb Hc.
  rewrite (compare_parsed _ _ _ Ha Ha), (compare_parsed _ _ _ Ha Hb),
    (compare_parsed _ _ _ Hb Ha), (compare_parsed _ _ _ Hb Hc),
    (compare_parsed _ _ _ Ha Hc).
  assert (Hiff : forall x y : Language,
            opt_str_eqb (language x) (language y) &&
            opt_str_eqb (territory x) (territory y) = true <->
            language x = language y /\ territory x = territory y).
  { intros x y. now rewrite andb_true_iff, !opt_str_eqb_eq. }
  split; [|split].
  - f_equal. now apply Hiff.
  - f_equal.
    destruct (opt_str_eqb (language pa) (language pb) &&
              opt_str_eqb (territory pa) (territory pb)) eqn:H1;
    destruct (opt_str_eqb (language pb) (language pa) &&
              opt_str_eqb (territory pb) (territory pa)) eqn:H2; try reflexivity.
    + apply Hiff in H1. destruct H1 as [E1 E2].
      assert (H3 : language pb = language pa /\ territory pb = territory pa) by auto.
      apply Hiff in H3. congruence.
    + apply Hiff in H2. destruct H2 as [E1 E2].
      assert (H3 : language pa = language pb /\ territory pa = territory pb) by auto.
      apply Hiff in H3. congruence.
  - intros H1 H2. injection H1 as H1'. injection H2 as H2'. f_equal.
    apply Hiff in H1'. apply Hiff in H2'. apply Hiff.
    destruct H1', H2'. split; congruence.
Qed.

End NegotiationMore.

(* ===================================================================== *)
(** * The listing functions *)
(* ===================================================================== *)

Section ListingFacts.

Variable Language_get : str -> result Language.
Variable Language_str : Language -> str.
Variable pycountry_languages_get : str -> option pycountry_language.
Variable load_provider : str -> str -> str -> result provider_info.
Variable Language_display_name : Language -> str.
Variable list_providers : str -> str -> result (list str).
Variable list_of_set : list (option str) -> list (option str).

Local Abbreviation convert :=
  (convert_three_two_letters Language_get Language_str pycountry_languages_get).
Local Abbreviation expand_body :=
  (expand_body Language_get Language_str pycountry_languages_get Language_display_name).
Local Abbreviation expand_loop :=
  (expand_loop Language_get Language_str pycountry_languages_get Language_display_name).
Local Abbreviation expand :=
  (expand_languages_for_user Language_get Language_str pycountry_languages_get
     Language_display_name).

Lemma convert_string_result s r :
  convert (Some s) = Ok r -> exists x, r = Some x.
Proof.
  unfold convert_three_two_letters, rbind.
  destruct (contains dash s && _).
  - destruct (Language_get s); [|discriminate]. intros H; inversion H; eauto.
  - destruct (negb _); [intros H; inversion H; eauto|].
    destruct (pycountry_languages_get s).
    + intros H; inversion H; eauto.
    + destruct (Language_get s); [|discriminate]. intros H; inversion H; eauto.
Qed.

Lemma convert_string_error s e :
  convert (Some s) = Err e -> Language_get s = Err e.
Proof.
  unfold convert_three_two_letters, rbind.
  destruct (contains dash s && _).
  - destruct (Language_get s); [discriminate | congruence].
  - destruct (negb _); [discriminate|].
    destruct (pycountry_languages_get s); [discriminate|].
    destruct (Language_get s); [discriminate | congruence].
Qed.

Lemma convert_plain_code s :
  contains dash s = false -> length s <> 3 -> convert (Some s) = Ok (Some s).
Proof.
  intros Hd Hl. unfold convert_three_two_letters. rewrite Hd. simpl.
  apply Nat.eqb_neq in Hl. now rewrite Hl.
Qed.

(** What one language adds to the list. *)
Lemma expand_body_adds appended language out :
  expand_body appended language = Ok out ->
  exists added,
    out = appended ++ added /\ 1 <= length added <= 2 /\
    Forall (fun x => x <> None) added.
Proof.
  unfold expand_body, rbind.
  destruct (str_eqb language AUTO_DETECT).
  - intros H; inversion H. exists [Some language].
    split; [reflexivity|]. split; [simpl; lia|]. repeat constructor. discriminate.
  - destruct (contains dash language).
    + destruct (Language_get (hd [] (split dash language))) as [l|]; [|discriminate].
      destruct (negb _).
      * destruct (convert (Some (hd [] (split dash language)))) as [c1|] eqn:H1;
          [|discriminate].
        destruct (convert (Some language)) as [c2|] eqn:H2; [|discriminate].
        intros H; inversion H.
        apply convert_string_result in H1, H2. destruct H1 as [x1 ->], H2 as [x2 ->].
        exists [Some x1; Some x2]. rewrite <- app_assoc.
        split; [reflexivity|]. split; [simpl; lia|]. repeat constructor; discriminate.
      * destruct (convert (Some language)) as [c2|] eqn:H2; [|discriminate].
        intros H; inversion H.
        apply convert_string_result in H2. destruct H2 as [x2 ->].
        exists [Some x2].
        split; [reflexivity|]. split; [simpl; lia|]. repeat constructor; discriminate.
    + destruct (convert (Some language)) as [c2|] eqn:H2; [|discriminate].
      intros H; inversion H.
      apply convert_string_result in H2. destruct H2 as [x2 ->].
      exists [Some x2].
      split; [reflexivity|]. split; [simpl; lia|]. repeat constructor; discriminate.
Qed.

Lemma expand_loop_adds list_languages : forall appended out,
  expand_loop list_languages appended = Ok out ->
  exists added,
    out = appended ++ added /\
    length list_languages <= length added <= 2 * length list_languages /\
    Forall (fun x => x <> None) added.
Proof.
  induction list_languages as [|language rest IH]; intros appended out; simpl.
  - intros H; inversion H. exists []. rewrite app_nil_r.
    split; [reflexivity|]. split; [simpl; lia | constructor].
  - unfold rbind at 1.
    destruct (expand_body appended language) as [mid|] eqn:Hbody; [|discriminate].
    intros Hrest. apply expand_body_adds in Hbody.
    destruct Hbody as (a1 & -> & Hl1 & Hf1).
    apply IH in Hrest. destruct Hrest as (a2 & -> & Hl2 & Hf2).
    exists (a1 ++ a2). rewrite <- app_assoc. split; [reflexivity|].
    rewrite length_app. split; [lia|]. now apply Forall_app.
Qed.

(** X7.  When [expand_languages_for_user] returns, every entry of its
    result is a string (never [None]), and the result has at least as many
    entries as the input and at most twice as many. *)
Theorem expanded_list_shape :
  forall list_languages out,
    expand_languages_for_user Language_get Language_str pycountry_languages_get
      Language_display_name list_languages = Ok out ->
    length list_languages <= length out <= 2 * length list_languages /\
    Forall (fun x => x <> None) out.
Proof.
  intros list_languages out H. apply expand_loop_adds in H.
  destruct H as (added & -> & Hl & Hf). simpl. auto.
Qed.

Lemma expand_body_error appended language e :
  expand_body appended language = Err e ->
  Language_get language = Err e \/
  Language_get (hd [] (split dash language)) = Err e.
Proof.
  unfold expand_body, rbind.
  destruct (str_eqb language AUTO_DETECT); [discriminate|].
  destruct (contains dash language).
  - destruct (Language_get (hd [] (split dash language))) as [l|e0] eqn:Hg;
      [|intros H; inversion H; subst; now right].
    destruct (negb _).
    + destruct (convert (Some (hd [] (split dash language)))) as [c1|e1] eqn:H1.
      * destruct (convert (Some language)) as [c2|e2] eqn:H2; [discriminate|].
        intros H; inversion H; subst. left. now apply convert_string_error.
      * intros H; inversion H; subst. apply convert_string_error in H1. congruence.
    + destruct (convert (Some language)) as [c2|e2] eqn:H2; [discriminate|].
      intros H; inversion H; subst. left. now apply convert_string_error.
  - destruct (convert (Some language)) as [c2|e2] eqn:H2; [discriminate|].
    intros H; inversion H; subst. left. now apply convert_string_error.
Qed.

(** X8.  [expand_languages_for_user] raises only what the tag parser
    raises, on one of the listed languages or on its first subtag. *)
Theorem expansion_fails_only_in_parser :
  forall list_languages e,
    expand_languages_for_user Language_get Language_str pycountry_languages_get
      Language_display_name list_languages = Err e ->
    exists language,
      In language list_languages /\
      (Language_get language = Err e \/
       Language_get (hd [] (split dash language)) = Err e).
Proof.
  intros list_languages e. unfold expand_languages_for_user.
  generalize (@nil (option str)) as appended.
  induction list_languages as [|language rest IH]; intros appended; simpl.
  - discriminate.
  - unfold rbind at 1.
    destruct (expand_body appended language) as [mid|e0] eqn:Hbody.
    + intros H. apply IH in H. destruct H as (t & Hin & Ht). exists t. auto.
    + intros H; inversion H; subst. exists language.
      split; [now left|]. now apply expand_body_error in Hbody.
Qed.

(** X9.  A list made only of ['auto-detect'] and of codes without a dash
    whose length is not 3 (two-letter codes, for instance) is returned as it
    is, entry for entry. *)
Theorem plain_codes_are_kept :
  forall list_languages,
    (forall language, In language list_languages ->
       language = AUTO_DETECT \/
       (contains dash language = false /\ length language <> 3)) ->
    expand_languages_for_user Language_get Language_str pycountry_languages_get
      Language_display_name list_languages
    = Ok (map Some list_languages).
Proof.
  intros list_languages H. unfold expand_languages_for_user.
  change (map Some list_languages) with ([] ++ map Some list_languages).
  generalize (@nil (option str)) as appended.
  induction list_languages as [|language rest IH]; intros appended; simpl.
  - now rewrite app_nil_r.
  - assert (Hbody : expand_body appended language = Ok (appended ++ [Some language])).
    { unfold expand_body.
      destruct (str_eqb language AUTO_DETECT) eqn:Hauto; [reflexivity|].
      destruct (H language (or_introl eq_refl)) as [-> | [Hd Hl]].
      - rewrite (proj2 (str_eqb_eq _ _) eq_refl) in Hauto. discriminate.
      - rewrite Hd. unfold rbind. now rewrite (convert_plain_code _ Hd Hl). }
    unfold rbind at 1. rewrite Hbody.
    rewrite IH by (intros t Ht; apply H; now right).
    now rewrite <- app_assoc.
Qed.

Local Abbreviation standardized_loop :=
  (standardized_loop Language_get Language_str pycountry_languages_get load_provider
     Language_display_name list_of_set).

(** The loop over the providers, when every provider loads and expands. *)
Lemma standardized_loop_spec feature subfeature
      (infos : str -> provider_info) (lists : str -> list (option str)) :
  (forall l x, In x (list_of_set l) <-> In x l) ->
  (forall l, NoDup (list_of_set l)) ->
  forall providers acc l,
    NoDup acc ->
    (forall p, In p providers ->
       load_provider p feature subfeature = Ok (infos p) /\
       expand (constraint_list (infos p)) = Ok (lists p)) ->
    exists out,
      standardized_loop feature subfeature providers acc l =
        (Return out, l ++ map (fun p => LoadProvider p feature subfeature) providers) /\
      NoDup out /\
      forall x, In x out <-> In x acc \/ exists p, In p providers /\ In x (lists p).
Proof.
  intros Hin Hnodup. induction providers as [|p rest IH]; intros acc l Hacc Hall.
  - exists acc. simpl. rewrite app_nil_r. split; [reflexivity|]. split; [assumption|].
    intros x. split; [auto | intros [Hx | (p & [] & _)]; assumption].
  - destruct (Hall p (or_introl eq_refl)) as [Hload Hexp].
    simpl. unfold bind at 1.
    erewrite load_language_constraints_run by exact Hload.
    unfold bind at 1. rewrite Hexp. simpl call. unfold ret at 1.
    destruct (IH (list_of_set (lists p ++ acc))
                 (l ++ [LoadProvider p feature subfeature]) (Hnodup _))
      as (out & Hrun & Hnd & Hmem).
    { intros q Hq. apply Hall. now right. }
    exists out. rewrite Hrun. rewrite <- app_assoc. simpl.
    split; [reflexivity|]. split; [assumption|].
    intros x. rewrite Hmem, Hin, in_app_iff. split.
    + intros [[Hx | Hx] | (q & Hq & Hx)]; eauto.
    + intros [Hx | (q & [<- | Hq] & Hx)]; eauto.
Qed.

(** X10.  When every provider loads and expands, and [list(set(...))]
    keeps the elements of a list without repetition,
    [load_standardized_language] loads each provider once, in order, and
    returns a list without repetition whose entries are exactly the
    entries of the providers' expanded lists. *)
Theorem standardized_languages_are_the_union :
  forall feature subfeature providers
         (infos : str -> provider_info) (lists : str -> list (option str)) l,
    (forall k x, In x (list_of_set k) <-> In x k) ->
    (forall k, NoDup (list_of_set k)) ->
    (forall p, In p providers ->
       load_provider p feature subfeature = Ok (infos p) /\
       expand (constraint_list (infos p)) = Ok (lists p)) ->
    exists out,
      load_standardized_language Language_get Language_str pycountry_languages_get
        load_provider Language_display_name list_providers list_of_set
        feature subfeature (Some providers) l =
        (Return out, l ++ map (fun p => LoadProvider p feature subfeature) providers) /\
      NoDup out /\
      forall x, In x out <-> exists p, In p providers /\ In x (lists p).
Proof.
  intros feature subfeature providers infos lists l Hin Hnodup Hall.
  destruct (@standardized_loop_spec feature subfeature infos lists Hin Hnodup
              providers [] l (NoDup_nil _) Hall) as (out & Hrun & Hnd & Hmem).
  exists out. unfold load_standardized_language, bind, ret. rewrite Hrun.
  split; [reflexivity|]. split; [assumption|].
  intros x. rewrite Hmem. split; [intros [[] | H]; exact H | auto].
Qed.

End ListingFacts.

(* ===================================================================== *)
(** * The other OneAI adapters *)
(* ===================================================================== *)

Module OneAISentimentFacts.
Import OneAI.

Section Aggregation.

Variable enum_value : SentimentEnum -> str.
Variable post_sentiments : str -> http_response.

(** The items the loop collects: one per label, in order. *)
Lemma loop_items ls : forall its g,
  fst (fold_left (loop_body enum_value) ls (its, g)) =
  its ++ map (fun item => {| segment := span_text item;
                             sentiment := enum_value (sentiment_of item) |}) ls.
Proof.
  induction ls as [|item ls IH]; intros its g; simpl.
  - now rewrite app_nil_r.
  - unfold loop_body at 2. simpl fst. simpl snd. rewrite IH.
    now rewrite <- app_assoc.
Qed.

(** X11.  On a 200 answer with an output block, the adapter returns one
    item per label, in order, and a general sentiment that is the value of
    [NEGATIVE] when the labels counted negative outnumber those counted
    positive and the value of [NEUTRAL] in every other case: never that of
    [POSITIVE]. *)
Theorem general_sentiment_negative_or_neutral :
  forall language text block rest,
    status_code (post_sentiments text) = 200%Z ->
    output (json (post_sentiments text)) = block :: rest ->
    exists response,
      text__sentiment_analysis enum_value post_sentiments language text = Ok response /\
      general_sentiment (standardized_response response) =
        enum_value (if positives (labels block) <? negatives (labels block)
                    then NEGATIVE else NEUTRAL) /\
      items (standardized_response response) =
        map (fun item => {| segment := span_text item;
                            sentiment := enum_value (sentiment_of item) |})
            (labels block).
Proof.
  intros language text block rest Hstatus Hout.
  unfold text__sentiment_analysis. rewrite Hstatus, Hout. simpl negb. cbv iota.
  eexists. split; [reflexivity|]. simpl.
  unfold aggregate.
  pose proof (OneAIFacts.loop_counts_from_start enum_value (labels block)) as Hg.
  pose proof (loop_items (labels block) [] 0%Z) as Hi.
  destruct (fold_left (loop_body enum_value) (labels block) ([], 0%Z)) as [its g].
  simpl in Hg, Hi. subst g its.
  destruct (Nat.ltb_spec (positives (labels block)) (negatives (labels block)));
    destruct (Z.ltb_spec (Z.of_nat (positives (labels block)) -
                          Z.of_nat (negatives (labels block))) 0); try lia.
  - split; reflexivity.
  - destruct (_ >? 0)%Z; split; reflexivity.
Qed.

End Aggregation.

End OneAISentimentFacts.

Module OneAITextFacts.
Import OneAIText.

Section Adapters.

Variable post_names : str -> names_response.
Variable post_detect_language : str -> OneAI.http_response.
Variable Language_str : Language -> str.
Variable Language_find : str -> result Language.

Lemma names_loop labels : forall items,
  fold_left names_body labels items =
  items ++ map (fun item =>
                  {| entity := value item;
                     category := if str_eqb (name item) (py "GEO")
                                 then py "LOCATION" else name item |}) labels.
Proof.
  induction labels as [|item labels IH]; intros items; simpl.
  - now rewrite app_nil_r.
  - rewrite IH. unfold names_body. now rewrite <- app_assoc.
Qed.

(** X12.  On a 200 answer with an output block, entity recognition gives
    one item per label with the labels' values as entities, in order; no
    item has the category ['GEO'], a label named ['GEO'] giving
    ['LOCATION'] and every other name being kept. *)
Theorem geo_is_renamed_location :
  forall language text labels rest,
    status_code (post_names text) = 200%Z ->
    output (post_names text) = labels :: rest ->
    exists items,
      text__named_entity_recognition post_names language text = Ok items /\
      map entity items = map value labels /\
      Forall (fun i => category i <> py "GEO") items /\
      forall k item, nth_error labels k = Some item ->
        exists i, nth_error items k = Some i /\
                  (name item = py "GEO" -> category i = py "LOCATION") /\
                  (name item <> py "GEO" -> category i = name item).
Proof.
  intros language text labels rest Hstatus Hout.
  unfold text__named_entity_recognition. rewrite Hstatus, Hout. simpl negb. cbv iota.
  eexists. split; [reflexivity|]. rewrite names_loop. simpl app.
  split; [|split].
  - rewrite map_map. reflexivity.
  - apply Forall_forall. intros i Hi. apply in_map_iff in Hi.
    destruct Hi as (item & <- & _). simpl.
    destruct (str_eqb (name item) (py "GEO")) eqn:Hg; [discriminate|].
    intros Heq. apply str_eqb_eq in Heq. congruence.
  - intros k item Hk. eexists. split.
    + rewrite nth_error_map, Hk. reflexivity.
    + simpl. split.
      * intros Hn. apply str_eqb_eq in Hn. now rewrite Hn.
      * intros Hn. destruct (str_eqb (name item) (py "GEO")) eqn:Hg; [|reflexivity].
        apply str_eqb_eq in Hg. contradiction.
Qed.

Lemma get_code_total n :
  (forall m e, Language_find m = Err e -> is_LookupError e = true) ->
  exists code,
    get_code_from_language_name Language_str Language_find (Some n) = Ok code /\
    (code = py "Unknow" \/ exists l, Language_find n = Ok l /\ code = Language_str l).
Proof.
  intros Hlookup. unfold get_code_from_language_name.
  destruct (truthy (Some n)); simpl; [|eauto].
  destruct (Language_find n) as [l|e] eqn:Hf.
  - eexists; split; [reflexivity|]. right; eauto.
  - rewrite (Hlookup _ _ Hf). eauto.
Qed.

Lemma detection_loop_total labels :
  (forall m e, Language_find m = Err e -> is_LookupError e = true) ->
  forall items,
  exists added,
    detection_loop Language_str Language_find labels items = Ok (items ++ added) /\
    map display_name added = map OneAI.value labels /\
    Forall (fun i => language i = py "Unknow" \/
                     exists l, Language_find (display_name i) = Ok l /\
                               language i = Language_str l) added.
Proof.
  intros Hlookup. induction labels as [|item labels IH]; intros items; simpl.
  - exists []. rewrite app_nil_r. repeat split; constructor.
  - destruct (get_code_total (OneAI.value item) Hlookup) as (code & Hcode & Hwhich).
    unfold rbind. rewrite Hcode.
    destruct (IH (items ++ [{| language := code; display_name := OneAI.value item |}]))
      as (added & Hrun & Hnames & Hall).
    exists ({| language := code; display_name := OneAI.value item |} :: added).
    rewrite Hrun, <- app_assoc. simpl. rewrite Hnames.
    repeat split. constructor; [exact Hwhich | exact Hall].
Qed.

(** X13.  When [Language.find] fails only with [LookupError]s, language
    detection on a 200 answer with an output block never fails: it returns
    one item per label, in order, with the label's value as display name
    and, as language, either the found language's tag or ['Unknow']. *)
Theorem language_detection_never_fails_on_unknown_names :
  forall text block rest,
    (forall m e, Language_find m = Err e -> is_LookupError e = true) ->
    OneAI.status_code (post_detect_language text) = 200%Z ->
    OneAI.output (OneAI.json (post_detect_language text)) = block :: rest ->
    exists items,
      translation__language_detection post_detect_language Language_str Language_find text
        = Ok items /\
      map display_name items = map OneAI.value (OneAI.labels block) /\
      Forall (fun i => language i = py "Unknow" \/
                       exists l, Language_find (display_name i) = Ok l /\
                                 language i = Language_str l) items.
Proof.
  intros text block rest Hlookup Hstatus Hout.
  unfold translation__language_detection. rewrite Hstatus, Hout. simpl negb. cbv iota.
  destruct (detection_loop_total (OneAI.labels block) Hlookup []) as (added & Hrun & H).
  exists added. rewrite Hrun. auto.
Qed.

End Adapters.

End OneAITextFacts.

(* ===================================================================== *)
(** * The other Amazon adapters *)
(* ===================================================================== *)

Module AmazonTextFacts.
Import AmazonText.

Lemma lookup_in {V : Type} (d : list (str * V)) k v :
  NoDup (map fst d) -> In (k, v) d -> lookup k d = Some v.
Proof.
  induction d as [|[k0 v0] d IH]; simpl; intros Hnd Hin; [contradiction|].
  inversion Hnd as [|? ? Hnot Hnd']; subst.
  destruct Hin as [Heq | Hin].
  - inversion Heq; subst. now rewrite (proj2 (str_eqb_eq k k) eq_refl).
  - destruct (str_eqb k k0) eqn:Hk.
    + apply str_eqb_eq in Hk. subst k0. exfalso. apply Hnot.
      apply in_map_iff. now exists (k, v).
    + auto.
Qed.

Section SentimentFacts.

Variable score : Type.
Variable zero : score.
Variable leb : score -> score -> bool.
Variable detect_sentiment : str -> str -> client_answer (list (str * score)).

Hypothesis leb_total : forall a b, leb a b = true \/ leb b a = true.
Hypothesis leb_trans : forall a b c, leb a b = true -> leb b c = true -> leb a c = true.

Local Abbreviation Mixed := (py "Mixed").

Local Abbreviation best_so_far := (best_so_far zero leb).

Lemma leb_refl a : leb a a = true.
Proof. destruct (leb_total a a); assumption. Qed.

Lemma leb_false_le a b : leb a b = false -> leb b a = true.
Proof. intros H. destruct (leb_total a b); congruence. Qed.

Ltac in_snoc H :=
  apply in_app_iff in H; destruct H as [H | [H | []]];
  [ | inversion H; subst; clear H ].

Lemma sentiment_loop scores :
  NoDup (map fst scores) ->
  forall done todo,
    scores = done ++ todo ->
    exists b,
      fold_left (sentiment_body leb scores) (map fst done)
        (Value {| general_sentiment := None; general_sentiment_rate := zero |}) = Value b /\
      best_so_far done b.
Proof.
  intros Hnd done. induction done as [|[k v] done IH] using rev_ind; intros todo Hsplit.
  - exists {| general_sentiment := None; general_sentiment_rate := zero |}.
    split; [reflexivity|]. unfold best_so_far; simpl.
    split; [apply leb_refl|]. split; [reflexivity|]. intros ? ? [].
  - destruct (IH ((k, v) :: todo)) as (b & Hrun & Hzero & Hbest).
    { rewrite Hsplit, <- app_assoc. reflexivity. }
    rewrite map_app, fold_left_app, Hrun. simpl.
    destruct (str_eqb k Mixed) eqn:Hmixed.
    + (* the key 'Mixed' is skipped *)
      exists b. split; [reflexivity|].
      apply str_eqb_eq in Hmixed. subst k.
      unfold best_so_far. split; [assumption|].
      destruct (general_sentiment b) as [key|].
      * destruct Hbest as (Hnm & before & after & -> & Hmax & Hlast).
        split; [assumption|].
        exists before, (after ++ [(Mixed, v)]).
        split; [now rewrite <- app_assoc|]. split.
        -- intros k0 v0 Hin Hk0. in_snoc Hin; [eauto | contradiction].
        -- intros k0 v0 Hin Hk0. in_snoc Hin; [eauto | contradiction].
      * destruct Hbest as (Hrate & Hneg). split; [assumption|].
        intros k0 v0 Hin Hk0. in_snoc Hin; [eauto | contradiction].
    + assert (Hk : k <> Mixed).
      { intros ->. now rewrite (proj2 (str_eqb_eq _ _) eq_refl) in Hmixed. }
      assert (Hlook : lookup k scores = Some v).
      { apply lookup_in; [assumption|]. rewrite Hsplit.
        apply in_app_iff. left. apply in_app_iff. right. now left. }
      rewrite Hlook.
      destruct (leb (general_sentiment_rate b) v) eqn:Hcmp.
      * (* a new best *)
        eexists. split; [reflexivity|]. unfold best_so_far; simpl.
        split; [eapply leb_trans; eauto|]. split; [assumption|].
        exists done, []. split; [reflexivity|]. split; [|intros ? ? []].
        intros k0 v0 Hin Hk0. in_snoc Hin; [|apply leb_refl].
        destruct (general_sentiment b) as [key|].
        -- destruct Hbest as (_ & before & after & _ & Hmax & _).
           eapply leb_trans; [eapply Hmax; eauto | exact Hcmp].
        -- destruct Hbest as (Hrate & Hneg). rewrite Hrate in Hcmp.
           eapply leb_trans; [|exact Hcmp]. apply leb_false_le. eauto.
      * (* the best stays *)
        exists b. split; [reflexivity|]. unfold best_so_far.
        split; [assumption|].
        destruct (general_sentiment b) as [key|].
        -- destruct Hbest as (Hnm & before & after & -> & Hmax & Hlast).
           split; [assumption|].
           exists before, (after ++ [(k, v)]).
           split; [now rewrite <- app_assoc|]. split.
           ++ intros k0 v0 Hin Hk0. in_snoc Hin; [eauto | now apply leb_false_le].
           ++ intros k0 v0 Hin Hk0. in_snoc Hin; [eauto | assumption].
        -- destruct Hbest as (Hrate & Hneg). split; [assumption|].
           rewrite Hrate in Hcmp.
           intros k0 v0 Hin Hk0. in_snoc Hin; [eauto | assumption].
Qed.

(** X14.  When the client answers with its scores (distinct keys, totally
    ordered values), sentiment analysis returns a rate that is at least 0;
    with a sentiment reported, it is never ['Mixed'], its rate is its own
    score and is the largest among the keys other than ['Mixed'], and among
    equal scores the last one in the answer's order is the one reported;
    with none reported, the rate is 0 and every score other than
    ['Mixed']'s is below 0. *)
Theorem reported_sentiment_is_the_last_maximum :
  forall language text scores,
    detect_sentiment text language = Answer scores ->
    NoDup (map fst scores) ->
    exists b,
      text__sentiment_analysis zero leb detect_sentiment language text = Value b /\
      leb zero (general_sentiment_rate b) = true /\
      match general_sentiment b with
      | None =>
          general_sentiment_rate b = zero /\
          forall k v, In (k, v) scores -> k <> Mixed -> leb zero v = false
      | Some key =>
          key <> Mixed /\
          exists before after,
            scores = before ++ (key, general_sentiment_rate b) :: after /\
            (forall k v, In (k, v) scores -> k <> Mixed ->
                         leb v (general_sentiment_rate b) = true) /\
            (forall k v, In (k, v) after -> k <> Mixed ->
                         leb (general_sentiment_rate b) v = false)
      end.
Proof.
  intros language text scores Hdetect Hnd.
  unfold text__sentiment_analysis. rewrite Hdetect.
  destruct (@sentiment_loop scores Hnd scores []) as (b & Hrun & Hzero & Hbest).
  { now rewrite app_nil_r. }
  exists b. split; [exact Hrun|]. split; [exact Hzero | exact Hbest].
Qed.

End SentimentFacts.

Section ListFacts.

Variable number : Type.
Variable score : Type.
Variable zero : score.
Variable leb : score -> score -> bool.
Variable detect_sentiment : str -> str -> client_answer (list (str * score)).
Variable detect_key_phrases : str -> str -> client_answer (list (key_phrase number)).
Variable detect_entities : str -> str -> client_answer (list (detected_entity number)).
Variable detect_syntax : str -> str -> client_answer (list (syntax_token number)).
Variable tags : list (str * str).

(** X15.  A [ClientError] whose message does not mention ["languageCode"]
    is turned into a [ProviderException] carrying that message by entity
    recognition, but is swallowed by sentiment analysis, key-phrase
    extraction and syntax analysis, which then fail with
    [UnboundLocalError] on [response]; a message that mentions it gives a
    [LanguageException] in all four. *)
Theorem client_error_handling :
  forall language text message,
    detect_sentiment text language = ClientErr message ->
    detect_key_phrases text language = ClientErr message ->
    detect_entities text language = ClientErr message ->
    detect_syntax text language = ClientErr message ->
    (substring_in (py "languageCode") message = false ->
     text__sentiment_analysis zero leb detect_sentiment language text
       = Raised (UnboundLocalError (py "response")) /\
     text__keyword_extraction detect_key_phrases language text
       = Raised (UnboundLocalError (py "response")) /\
     text__syntax_analysis detect_syntax tags language text
       = Raised (UnboundLocalError (py "response")) /\
     text__named_entity_recognition detect_entities language text
       = Raised (ProviderExceptionStr message)) /\
    (substring_in (py "languageCode") message = true ->
     text__sentiment_analysis zero leb detect_sentiment language text
       = Raised (LanguageException message) /\
     text__keyword_extraction detect_key_phrases language text
       = Raised (LanguageException message) /\
     text__syntax_analysis detect_syntax tags language text
       = Raised (LanguageException message) /\
     text__named_entity_recognition detect_entities language text
       = Raised (LanguageException message)).
Proof.
  intros language text message Hs Hk He Hy.
  unfold text__sentiment_analysis, text__keyword_extraction, text__syntax_analysis,
    text__named_entity_recognition, language_error_only.
  rewrite Hs, Hk, He, Hy.
  split; intros ->; repeat split; reflexivity.
Qed.

Lemma syntax_loop_ok (tokens : list (syntax_token number)) :
  (forall t, In t tokens -> lookup (tok_Tag t) tags <> None) ->
  forall items,
  exists added,
    syntax_loop tags tokens items = Value (items ++ added) /\
    map (@word number) added = map (@tok_Text number) tokens /\
    Forall2 (fun t i => lookup (tok_Tag t) tags = Some (tag i)) tokens added.
Proof.
  induction tokens as [|t tokens IH]; intros Hall items; simpl.
  - exists []. rewrite app_nil_r. repeat split. constructor.
  - destruct (lookup (tok_Tag t) tags) as [tg|] eqn:Hl.
    + destruct (IH (fun u Hu => Hall u (or_intror Hu))
                   (items ++ [{| word := tok_Text t; syn_importance := tok_Score t;
                                 tag := tg |}]))
        as (added & Hrun & Hwords & Htags).
      eexists (_ :: added). rewrite Hrun, <- app_assoc. simpl.
      split; [reflexivity|]. split; [now rewrite Hwords|].
      constructor; [exact Hl | exact Htags].
    + exfalso. apply (Hall t (or_introl eq_refl)). exact Hl.
Qed.

Lemma syntax_loop_missing (tokens : list (syntax_token number)) :
  (exists t, In t tokens /\ lookup (tok_Tag t) tags = None) ->
  forall items, syntax_loop tags tokens items = Raised (Exn KeyError).
Proof.
  induction tokens as [|t tokens IH]; intros (u & Hin & Hu) items; simpl.
  - contradiction.
  - destruct (lookup (tok_Tag t) tags) as [tg|] eqn:Hl; [|reflexivity].
    apply IH. destruct Hin as [-> | Hin]; [congruence | eauto].
Qed.

(** X16.  When the client answers with its tokens, syntax analysis raises
    [KeyError] exactly when some token carries a tag that the [tags] table
    does not have; otherwise it returns one item per token, in order, with
    the token's text and the table's entry for its tag. *)
Theorem syntax_analysis_needs_known_tags :
  forall language text tokens,
    detect_syntax text language = Answer tokens ->
    ((exists t, In t tokens /\ lookup (tok_Tag t) tags = None) ->
     text__syntax_analysis detect_syntax tags language text = Raised (Exn KeyError)) /\
    ((forall t, In t tokens -> lookup (tok_Tag t) tags <> None) ->
     exists items,
       text__syntax_analysis detect_syntax tags language text = Value items /\
       map (@word number) items = map (@tok_Text number) tokens /\
       Forall2 (fun t i => lookup (tok_Tag t) tags = Some (tag i)) tokens items).
Proof.
  intros language text tokens Hdetect. unfold text__syntax_analysis. rewrite Hdetect.
  split.
  - intros H. now apply syntax_loop_missing.
  - intros H. destruct (syntax_loop_ok tokens H []) as (added & Hrun & Hrest).
    exists added. auto.
Qed.

Lemma append_each {A B : Type} (f : A -> B) (l : list A) : forall acc,
  fold_left (fun items x => items ++ [f x]) l acc = acc ++ map f l.
Proof.
  induction l as [|x l IH]; intros acc; simpl.
  - now rewrite app_nil_r.
  - rewrite IH. now rewrite <- app_assoc.
Qed.

(** X23.  When the client answers, key-phrase extraction and entity
    recognition return one item per phrase, or per entity, in the order of
    the answer, with the texts, scores and types of the answer unchanged. *)
Theorem amazon_items_follow_the_answer :
  forall language text phrases entities,
    detect_key_phrases text language = Answer phrases ->
    detect_entities text language = Answer entities ->
    (exists items,
        text__keyword_extraction detect_key_phrases language text = Value items /\
        map (@keyword number) items = map (@kp_Text number) phrases /\
        map (@importance number) items = map (@kp_Score number) phrases) /\
    (exists items,
        text__named_entity_recognition detect_entities language text = Value items /\
        map (@ner_entity number) items = map (@ent_Text number) entities /\
        map (@ner_importance number) items = map (@ent_Score number) entities /\
        map (@ner_category number) items = map (@ent_Type number) entities).
Proof.
  intros language text phrases entities Hk He.
  unfold text__keyword_extraction, text__named_entity_recognition. rewrite Hk, He.
  split; eexists; (split; [reflexivity|]);
    rewrite (append_each _ _ []); simpl app; rewrite !map_map; repeat split;
    apply map_ext; reflexivity.
Qed.

End ListFacts.

End AmazonTextFacts.

(* ===================================================================== *)
(** * Display names *)
(* ===================================================================== *)

Lemma drop_while_app_stop p run c post :
  forallb p run = true -> p c = false ->
  drop_while p (run ++ c :: post) = c :: post.
Proof.
  intros Hrun Hc. induction run as [|a run IH]; simpl in *.
  - now rewrite Hc.
  - apply andb_true_iff in Hrun. destruct Hrun as [Ha Hrun]. rewrite Ha. auto.
Qed.

Lemma drop_while_all p run : forallb p run = true -> drop_while p run = [].
Proof.
  induction run as [|a run IH]; simpl; [reflexivity|].
  intros H. apply andb_true_iff in H. destruct H as [Ha Hrun]. rewrite Ha. auto.
Qed.

(** What [drop_while] leaves is a suffix that does not start with a
    character of the class. *)
Lemma drop_while_shape p s :
  exists run, s = run ++ drop_while p s /\ forallb p run = true /\
              match drop_while p s with
              | c :: _ => p c = false
              | [] => True
              end.
Proof.
  induction s as [|a s IH]; simpl.
  - exists []. auto.
  - destruct (p a) eqn:Ha.
    + destruct IH as (run & Hs & Hrun & Hhd). exists (a :: run). simpl.
      rewrite Ha, Hrun. split; [now f_equal | auto].
    + exists []. simpl. auto.
Qed.

Lemma split_without_separator sep w :
  contains sep w = false -> split sep w = [w].
Proof.
  induction w as [|c w IH]; simpl; [reflexivity|].
  unfold chr_eqb at 1. rewrite N.eqb_sym. fold (chr_eqb c sep).
  destruct (chr_eqb c sep); simpl; [discriminate|].
  intros H. now rewrite (IH H).
Qed.

Lemma class_excludes p c w : forallb p w = true -> p c = false -> contains c w = false.
Proof.
  intros Hw Hc. unfold contains. apply not_true_is_false. intros Hex.
  apply existsb_exists in Hex. destruct Hex as (x & Hin & Hx).
  unfold chr_eqb in Hx. apply N.eqb_eq in Hx. subst x.
  rewrite forallb_forall in Hw. specialize (Hw c Hin). congruence.
Qed.

Module ReSearchFacts.
Import ReSearch.

(** A greedy run of a class followed by something that cannot start with a
    character of the class stops exactly where the class stops. *)
Lemma star_class p (k : cont) :
  (forall c s, p c = true -> k (c :: s) = None) ->
  forall n s, length s <= n ->
    star (bt (Cls p)) n s k = k (drop_while p s).
Proof.
  intros Hk. induction n as [|n IH]; intros s Hn.
  - destruct s; [reflexivity | simpl in Hn; lia].
  - destruct s as [|c s]; [reflexivity|].
    cbn [star bt drop_while]. destruct (p c) eqn:Hc.
    + assert (Hlt : (length s <? length (c :: s)) = true)
        by (apply Nat.ltb_lt; simpl; lia).
      rewrite Hlt. rewrite IH by (simpl in Hn; lia).
      destruct (k (drop_while p s)); [reflexivity|]. now apply Hk.
    + reflexivity.
Qed.

Lemma firstn_prefix (a b : str) : firstn (length (a ++ b) - length b) (a ++ b) = a.
Proof.
  rewrite length_app. replace (length a + length b - length b) with (length a) by lia.
  rewrite firstn_app, Nat.sub_diag, firstn_all. simpl. now rewrite app_nil_r.
Qed.

Lemma search_here r s rest :
  match_here r s = Some rest ->
  search r s = Some (firstn (length s - length rest) s).
Proof. intros H. destruct s; simpl; now rewrite H. Qed.

Lemma search_skip r a s :
  match_here r (a :: s) = None -> search r (a :: s) = search r s.
Proof. intros H. simpl. now rewrite H. Qed.

End ReSearchFacts.

Section NamesFacts.
Import ReSearch.

Variable is_space : char -> bool.

(** Parentheses are not whitespace. *)
Hypothesis lparen_not_space : is_space lparen = false.
Hypothesis rparen_not_space : is_space rparen = false.

Local Abbreviation cls := (letter_or_space is_space).
Local Abbreviation before_re := (before_parenthesis_re is_space).
Local Abbreviation group_re := (parenthesised_re is_space).

Lemma cls_lparen : cls lparen = false.
Proof. unfold letter_or_space. now rewrite lparen_not_space. Qed.

Lemma cls_rparen : cls rparen = false.
Proof. unfold letter_or_space. now rewrite rparen_not_space. Qed.

Lemma then_lit_fails_on_class c :
  cls c = false -> forall x s, cls x = true -> then_lit c (x :: s) = None.
Proof.
  intros Hc x s Hx. simpl. destruct (chr_eqb c x) eqn:He; [|reflexivity].
  unfold chr_eqb in He. apply N.eqb_eq in He. congruence.
Qed.

Lemma match_before s :
  match_here before_re s = then_lit lparen (drop_while cls s).
Proof.
  transitivity (star (bt (Cls cls)) (length s) s (then_lit lparen)); [reflexivity|].
  apply ReSearchFacts.star_class; [|lia].
  apply then_lit_fails_on_class, cls_lparen.
Qed.

Lemma match_group s :
  match_here group_re s =
  match s with
  | x :: s' => if chr_eqb lparen x then then_lit rparen (drop_while cls s') else None
  | [] => None
  end.
Proof.
  destruct s as [|x s']; [reflexivity|].
  transitivity (if chr_eqb lparen x
                then star (bt (Cls cls)) (length s') s' (then_lit rparen) else None);
    [reflexivity|].
  destruct (chr_eqb lparen x); [|reflexivity].
  apply ReSearchFacts.star_class; [|lia].
  apply then_lit_fails_on_class, cls_rparen.
Qed.

(** Without an opening parenthesis the second pattern is not found. *)
Lemma match_before_fails s :
  contains lparen s = false -> match_here before_re s = None.
Proof.
  intros Hc. rewrite match_before.
  destruct (drop_while_shape cls s) as (run & Hs & _ & _).
  destruct (drop_while cls s) as [|x rest]; [reflexivity|].
  assert (Hx : chr_eqb lparen x = false).
  { rewrite Hs, contains_app in Hc. apply orb_false_iff in Hc.
    destruct Hc as [_ Hc]. rewrite contains_cons in Hc. now apply orb_false_iff in Hc. }
  cbn [then_lit]. now rewrite Hx.
Qed.

Lemma search_before_none s :
  contains lparen s = false -> search before_re s = None.
Proof.
  induction s as [|a s IH]; intros Hc.
  - reflexivity.
  - rewrite ReSearchFacts.search_skip by now apply match_before_fails.
    apply IH. rewrite contains_cons in Hc. now apply orb_false_iff in Hc.
Qed.

(** With one, it is found: the letters and spaces just before the first
    opening parenthesis, and that parenthesis. *)
Lemma search_before_found pre run post :
  contains lparen pre = false ->
  forallb cls run = true ->
  (pre = [] \/ exists pre' c, pre = pre' ++ [c] /\ cls c = false) ->
  search before_re (pre ++ run ++ lparen :: post) = Some (run ++ [lparen]).
Proof.
  intros Hpre Hrun. induction pre as [|a pre IH]; intros Hend.
  - simpl app.
    assert (Hm : match_here before_re (run ++ lparen :: post) = Some post).
    { rewrite match_before, (@drop_while_app_stop _ _ _ _ Hrun cls_lparen).
      cbn [then_lit]. unfold chr_eqb. now rewrite N.eqb_refl. }
    rewrite (ReSearchFacts.search_here _ _ Hm).
    replace (run ++ lparen :: post) with ((run ++ [lparen]) ++ post)
      by (now rewrite <- app_assoc).
    now rewrite ReSearchFacts.firstn_prefix.
  - destruct Hend as [Hnil | (pre' & c & Hsnoc & Hc)]; [discriminate|].
    assert (Hall : contains lparen (a :: pre) = false) by exact Hpre.
    rewrite contains_cons in Hpre. apply orb_false_iff in Hpre. destruct Hpre as [Ha Hpre].
    assert (Hfail : match_here before_re ((a :: pre) ++ run ++ lparen :: post) = None).
    { rewrite match_before, Hsnoc, <- app_assoc. simpl app.
      destruct (drop_while_shape cls pre') as (r0 & Hp' & Hr0 & Hhd).
      rewrite Hsnoc, contains_app in Hall. apply orb_false_iff in Hall.
      destruct Hall as [Hin' Hinc].
      rewrite Hp' at 1. rewrite <- app_assoc.
      destruct (drop_while cls pre') as [|x rest] eqn:Hd.
      - simpl app. rewrite (@drop_while_app_stop _ _ _ _ Hr0 Hc). cbn [then_lit].
        rewrite contains_cons in Hinc. apply orb_false_iff in Hinc. now rewrite (proj1 Hinc).
      - simpl app. rewrite (@drop_while_app_stop _ _ _ _ Hr0 Hhd). cbn [then_lit].
        rewrite Hp', contains_app in Hin'. apply orb_false_iff in Hin'.
        destruct Hin' as [_ Hin']. rewrite contains_cons in Hin'. apply orb_false_iff in Hin'.
        now rewrite (proj1 Hin'). }
    simpl app in *. rewrite (ReSearchFacts.search_skip _ _ _ Hfail).
    apply IH; [assumption|].
    destruct pre as [|b pre0]; [now left|]. right.
    destruct pre' as [|p0 pre'0].
    + simpl in Hsnoc. inversion Hsnoc.
    + simpl in Hsnoc. inversion Hsnoc. exists pre'0, c. auto.
Qed.

(** Every text splits into a part that is empty or ends outside the class,
    and a run of the class. *)
Lemma class_suffix (l : str) :
  exists pre run,
    l = pre ++ run /\ forallb cls run = true /\
    (pre = [] \/ exists pre' c, pre = pre' ++ [c] /\ cls c = false).
Proof.
  induction l as [|c l IH] using rev_ind.
  - exists [], []. auto.
  - destruct (cls c) eqn:Hc.
    + destruct IH as (pre & run & -> & Hrun & Hend).
      exists pre, (run ++ [c]). rewrite app_assoc. split; [reflexivity|].
      rewrite forallb_app, Hrun. simpl. rewrite Hc. auto.
    + exists (l ++ [c]), []. rewrite app_nil_r. split; [reflexivity|].
      split; [reflexivity|]. right. eauto.
Qed.

Lemma first_occurrence c s :
  contains c s = true ->
  exists before post, s = before ++ c :: post /\ contains c before = false.
Proof.
  induction s as [|a s IH]; simpl; [discriminate|].
  destruct (chr_eqb c a) eqn:Ha; simpl.
  - intros _. exists [], s. unfold chr_eqb in Ha. apply N.eqb_eq in Ha. now subst.
  - intros H. destruct (IH H) as (before & post & -> & Hb).
    exists (a :: before), post. simpl. now rewrite Ha, Hb.
Qed.

Lemma search_before_some s :
  contains lparen s = true -> exists g, search before_re s = Some g.
Proof.
  intros H. destruct (@first_occurrence _ _ H) as (before & post & -> & Hb).
  destruct (class_suffix before) as (pre & run & -> & Hrun & Hend).
  rewrite contains_app in Hb. apply orb_false_iff in Hb. destruct Hb as [Hpre _].
  rewrite <- app_assoc. erewrite search_before_found by eassumption. eauto.
Qed.

(** A match of the first pattern is a parenthesised run of the class. *)
Lemma match_group_shape s rest :
  match_here group_re s = Some rest ->
  exists run, s = (lparen :: run ++ [rparen]) ++ rest /\ forallb cls run = true.
Proof.
  rewrite match_group. destruct s as [|a s]; [discriminate|].
  destruct (chr_eqb lparen a) eqn:Ha; [|discriminate].
  destruct (drop_while_shape cls s) as (run & Hs & Hrun & _).
  destruct (drop_while cls s) as [|x tail]; [discriminate|].
  cbn [then_lit]. destruct (chr_eqb rparen x) eqn:Hx; [|discriminate].
  intros H. inversion H; subst tail. exists run. split; [|assumption].
  unfold chr_eqb in Ha, Hx. apply N.eqb_eq in Ha, Hx. subst a x.
  rewrite Hs at 1. simpl. now rewrite <- app_assoc.
Qed.

Lemma search_group_shape s g :
  search group_re s = Some g ->
  exists run, g = lparen :: run ++ [rparen] /\ forallb cls run = true.
Proof.
  induction s as [|a s IH].
  - discriminate.
  - destruct (match_here group_re (a :: s)) as [rest|] eqn:Hm.
    + rewrite (ReSearchFacts.search_here _ _ Hm).
      apply match_group_shape in Hm. destruct Hm as (run & Hs & Hrun).
      rewrite Hs, ReSearchFacts.firstn_prefix.
      intros H. inversion H. eauto.
    + rewrite (ReSearchFacts.search_skip _ _ _ Hm). exact IH.
Qed.

Lemma search_group_none s :
  contains lparen s = false -> search group_re s = None.
Proof.
  induction s as [|a s IH]; [reflexivity|].
  rewrite contains_cons. intros H. apply orb_false_iff in H. destruct H as [Ha Hs].
  rewrite ReSearchFacts.search_skip; [auto|].
  rewrite match_group. now rewrite Ha.
Qed.

Lemma search_group_found pre run post :
  contains lparen pre = false ->
  forallb cls run = true ->
  search group_re (pre ++ lparen :: run ++ rparen :: post)
  = Some (lparen :: run ++ [rparen]).
Proof.
  intros Hpre Hrun. induction pre as [|a pre IH].
  - simpl app.
    assert (Hm : match_here group_re (lparen :: run ++ rparen :: post) = Some post).
    { rewrite match_group. unfold chr_eqb at 1. rewrite N.eqb_refl.
      rewrite (@drop_while_app_stop _ _ _ _ Hrun cls_rparen). cbn [then_lit].
      unfold chr_eqb at 1. now rewrite N.eqb_refl. }
    rewrite (ReSearchFacts.search_here _ _ Hm).
    replace (lparen :: run ++ rparen :: post)
      with ((lparen :: run ++ [rparen]) ++ post)
      by (simpl; now rewrite <- app_assoc).
    now rewrite ReSearchFacts.firstn_prefix.
  - rewrite contains_cons in Hpre. apply orb_false_iff in Hpre. destruct Hpre as [Ha Hpre].
    simpl app. rewrite ReSearchFacts.search_skip; [auto|].
    rewrite match_group. now rewrite Ha.
Qed.

(** [group.split(')')[0].split('(')[1]] on such a match is the run. *)
Lemma inner_of_group run :
  forallb cls run = true ->
  nth_error (split lparen (hd [] (split rparen (lparen :: run ++ [rparen])))) 1
  = Some run.
Proof.
  intros Hrun.
  assert (H1 : hd [] (split rparen (lparen :: run ++ [rparen])) = lparen :: run).
  { change (lparen :: run ++ [rparen]) with ((lparen :: run) ++ [rparen]).
    apply split_first_piece; [|right; now exists []].
    simpl. apply forallb_forall. intros c Hc. apply negb_true_iff.
    rewrite forallb_forall in Hrun. specialize (Hrun c Hc).
    destruct (chr_eqb c rparen) eqn:He; [|reflexivity].
    unfold chr_eqb in He. apply N.eqb_eq in He. subst c.
    rewrite cls_rparen in Hrun. discriminate. }
  rewrite H1. simpl.
  rewrite (@split_without_separator _ _ (@class_excludes _ _ _ Hrun cls_lparen)).
  reflexivity.
Qed.

Local Abbreviation format := (format_language_name is_space).

Lemma format_raises language_name isocode e :
  format_language_name is_space language_name isocode = Raised e ->
  e = AttributeError no_group_message /\
  substring_in (py "Unknown language") language_name = false /\
  substring_in (py "Unknown Region") language_name = true /\
  contains lparen language_name = false.
Proof.
  unfold format_language_name. intros He.
  destruct (substring_in (py "Unknown language") language_name).
  - destruct (search group_re language_name) as [g|] eqn:Hs; [|discriminate].
    apply search_group_shape in Hs. destruct Hs as (run & -> & Hrun).
    rewrite (@inner_of_group _ Hrun) in He. discriminate.
  - destruct (substring_in (py "Unknown Region") language_name); [|discriminate].
    destruct (contains lparen language_name) eqn:Hc.
    + apply search_before_some in Hc. destruct Hc as [g Hg].
      rewrite Hg in He. discriminate.
    + rewrite (@search_before_none _ Hc) in He. inversion He. auto.
Qed.

(** X17.  [format_language_name] raises exactly when the name contains
    ["Unknown Region"], does not contain ["Unknown language"] and has no
    opening parenthesis; the exception is then the [AttributeError] of
    calling [group] on [None]. *)
Theorem format_language_name_raises_without_parenthesis :
  forall language_name isocode,
    (format_language_name is_space language_name isocode
       = Raised (AttributeError no_group_message) <->
     substring_in (py "Unknown language") language_name = false /\
     substring_in (py "Unknown Region") language_name = true /\
     contains lparen language_name = false) /\
    (forall e, format_language_name is_space language_name isocode = Raised e ->
               e = AttributeError no_group_message).
Proof.
  intros language_name isocode. split; [split|].
  - intros He. now apply format_raises in He.
  - intros (Hl & Hr & Hc). unfold format_language_name.
    now rewrite Hl, Hr, (@search_before_none _ Hc).
  - intros e He. now apply format_raises in He.
Qed.

(** X18.  For a name that contains ["Unknown Region"] and not
    ["Unknown language"], [format_language_name] returns the letters and
    spaces that stand just before the first opening parenthesis, stripped:
    ["French (Unknown Region)"] gives ["French"]. *)
Theorem format_language_name_keeps_the_language :
  forall pre run post isocode,
    substring_in (py "Unknown language") (pre ++ run ++ lparen :: post) = false ->
    substring_in (py "Unknown Region") (pre ++ run ++ lparen :: post) = true ->
    contains lparen pre = false ->
    forallb (letter_or_space is_space) run = true ->
    (pre = [] \/ exists pre' c, pre = pre' ++ [c] /\ letter_or_space is_space c = false) ->
    format_language_name is_space (pre ++ run ++ lparen :: post) isocode
    = Value (strip is_space run).
Proof.
  intros pre run post isocode Hl Hr Hpre Hrun Hend.
  unfold format_language_name. rewrite Hl, Hr.
  rewrite (@search_before_found _ _ post Hpre Hrun Hend).
  rewrite (@split_first_piece lparen run [lparen]).
  - reflexivity.
  - apply forallb_forall. intros c Hc. apply negb_true_iff.
    rewrite forallb_forall in Hrun. specialize (Hrun c Hc).
    destruct (chr_eqb c lparen) eqn:He; [|reflexivity].
    unfold chr_eqb in He. apply N.eqb_eq in He. subst c.
    rewrite cls_lparen in Hrun. discriminate.
  - right. now exists [].
Qed.

(** X19.  For a name that contains ["Unknown language"],
    [format_language_name] returns ["Region: "] followed by the stripped
    content of the first parenthesised run of letters and spaces, when the
    name's first opening parenthesis opens one:
    ["Unknown language (France)"] gives ["Region: France"]; and it returns
    the code it was given when the name has no opening parenthesis. *)
Theorem format_language_name_keeps_the_region :
  forall language_name isocode,
    substring_in (py "Unknown language") language_name = true ->
    (forall pre run post,
        language_name = pre ++ lparen :: run ++ rparen :: post ->
        contains lparen pre = false ->
        forallb (letter_or_space is_space) run = true ->
        format_language_name is_space language_name isocode
        = Value (py "Region: " ++ strip is_space run)) /\
    (contains lparen language_name = false ->
     format_language_name is_space language_name isocode = Value isocode).
Proof.
  intros language_name isocode Hl. unfold format_language_name. rewrite Hl. split.
  - intros pre run post -> Hpre Hrun.
    rewrite (@search_group_found _ _ post Hpre Hrun), (@inner_of_group _ Hrun).
    reflexivity.
  - intros Hc. now rewrite (@search_group_none _ Hc).
Qed.

Variable Language_get : str -> result Language.
Variable Language_display_name : Language -> str.
Variable pycountry_get_alpha_2 : str -> option pycountry_language.
Variable pycountry_get_alpha_3 : str -> option pycountry_language.
Variable pycountry_name : pycountry_language -> str.

Local Abbreviation name_of_code :=
  (get_language_name_from_code is_space Language_get Language_display_name
     pycountry_get_alpha_2 pycountry_get_alpha_3 pycountry_name).

(** X20.  [get_language_name_from_code] returns the empty string for
    [None] and ["Auto detection"] for ['auto-detect']; on any other code it
    raises only an exception of the tag parser on that code, or the
    [AttributeError] of [format_language_name] on a name that contains
    ["Unknown Region"] without an opening parenthesis. *)
Theorem get_language_name_from_code_failures :
  get_language_name_from_code is_space Language_get Language_display_name
    pycountry_get_alpha_2 pycountry_get_alpha_3 pycountry_name None = Value [] /\
  get_language_name_from_code is_space Language_get Language_display_name
    pycountry_get_alpha_2 pycountry_get_alpha_3 pycountry_name (Some AUTO_DETECT)
    = Value AUTO_DETECT_NAME /\
  forall iso e,
    get_language_name_from_code is_space Language_get Language_display_name
      pycountry_get_alpha_2 pycountry_get_alpha_3 pycountry_name (Some iso) = Raised e ->
    (exists e0, e = Exn e0 /\ Language_get iso = Err e0) \/
    (e = AttributeError no_group_message /\
     exists language_name,
       substring_in (py "Unknown Region") language_name = true /\
       contains lparen language_name = false /\
       ((exists l, Language_get iso = Ok l /\ language_name = Language_display_name l) \/
        (exists entry, language_name = pycountry_name entry))).
Proof.
  split; [reflexivity|]. split; [reflexivity|].
  intros iso e. unfold get_language_name_from_code.
  destruct (str_eqb iso AUTO_DETECT); [discriminate|].
  destruct (negb (contains dash iso)).
  - set (language := if length iso =? 2 then pycountry_get_alpha_2 iso
                     else pycountry_get_alpha_3 iso).
    destruct language as [entry|].
    + simpl. destruct iso; intros H; apply format_raises in H;
        destruct H as (-> & _ & Hr & Hc); right; split; eauto 8.
    + destruct iso as [|c iso]; [discriminate|].
      unfold pybind, lift.
      destruct (Language_get (c :: iso)) as [l|e0] eqn:Hg.
      * intros H. apply format_raises in H. destruct H as (-> & _ & Hr & Hc).
        right. split; [reflexivity|]. exists (Language_display_name l). eauto 8.
      * intros H. inversion H. left. eauto.
  - unfold pybind, lift.
    destruct (Language_get iso) as [l|e0] eqn:Hg.
    + intros H. apply format_raises in H. destruct H as (-> & _ & Hr & Hc).
      right. split; [reflexivity|]. exists (Language_display_name l). eauto 8.
    + intros H. inversion H. left. eauto.
Qed.

End NamesFacts.

(* ===================================================================== *)
(** * The result of a OneAI speech-to-text job *)
(* ===================================================================== *)

Lemma drop_while_head p s c rest : drop_while p s = c :: rest -> p c = false.
Proof.
  intros H. destruct (drop_while_shape p s) as (_ & _ & _ & Hhd).
  now rewrite H in Hhd.
Qed.

(** What [strip] returns neither starts nor ends with whitespace. *)
Lemma strip_clean is_space s :
  (forall c rest, strip is_space s = c :: rest -> is_space c = false) /\
  (forall init c, strip is_space s = init ++ [c] -> is_space c = false).
Proof.
  unfold strip.
  set (t := drop_while is_space s).
  set (u := drop_while is_space (rev t)).
  split.
  - intros c rest H.
    assert (Hu : u = rev rest ++ [c]).
    { rewrite <- (rev_involutive u), H. reflexivity. }
    destruct (drop_while_shape is_space (rev t)) as (run & Hrt & _ & _).
    fold u in Hrt. rewrite Hu in Hrt.
    apply (f_equal (@rev char)) in Hrt. rewrite rev_involutive in Hrt.
    rewrite !rev_app_distr, rev_involutive in Hrt. simpl in Hrt.
    unfold t in Hrt. now apply drop_while_head in Hrt.
  - intros init c H.
    assert (Hu : u = c :: rev init).
    { rewrite <- (rev_involutive u), H, rev_app_distr. reflexivity. }
    unfold u in Hu. now apply drop_while_head in Hu.
Qed.

Lemma set_add_spec x set :
  NoDup set ->
  NoDup (set_add x set) /\
  (forall y, In y (set_add x set) <-> y = x \/ In y set) /\
  length set <= length (set_add x set) <= S (length set).
Proof.
  intros Hnd. unfold set_add. destruct (existsb (str_eqb x) set) eqn:Hex.
  - apply existsb_exists in Hex. destruct Hex as (z & Hz & Hxz).
    apply str_eqb_eq in Hxz. subst z.
    split; [assumption|]. split; [|lia].
    intros y. split; [auto | intros [-> | H]; assumption].
  - assert (Hnot : ~ In x set).
    { intros Hin. assert (existsb (str_eqb x) set = true); [|congruence].
      apply existsb_exists. exists x. split; [assumption | now apply str_eqb_eq]. }
    split; [|split].
    + apply NoDup_app; [assumption | repeat constructor; intros [] |].
      intros y Hy [<- | []]. contradiction.
    + intros y. rewrite in_app_iff. simpl. intuition.
    + rewrite length_app. simpl. lia.
Qed.

Module OneAIAudioFacts.
Import OneAIAudio.

Section Job.

Variable number : Type.
Variable py_int : str -> option Z.
Variable is_space : char -> bool.
Variable get_task : str -> task_response number.

Local Abbreviation numbered := (@numbered number py_int).

Lemma words_loop_ok words :
  Forall numbered words ->
  forall speakers done,
    NoDup speakers ->
    exists speakers' added,
      words_loop py_int words speakers done = Value (speakers', done ++ added) /\
      map (@segment number) added = map (@span_text number) words /\
      NoDup speakers' /\
      (forall x, In x speakers' <-> In x speakers \/ In x (map (@speaker number) words)) /\
      length speakers <= length speakers' <= length speakers + length words.
Proof.
  induction words as [|w words IH]; intros Hall speakers done Hnd.
  - exists speakers, []. simpl. rewrite app_nil_r.
    repeat split; auto; try lia. intros [H | []]; assumption.
  - inversion Hall as [|? ? (digits & k & Hsplit & Hint) Hrest]; subst.
    destruct (set_add_spec (speaker w) Hnd) as (Hnd' & Hin' & Hlen').
    cbn [words_loop]. rewrite Hsplit, Hint.
    destruct (IH Hrest (set_add (speaker w) speakers)
                 (done ++ [{| segment := span_text w; start_time := timestamp w;
                              end_time := timestamp_end w; entry_speaker := k |}]) Hnd')
      as (speakers' & added & Hrun & Hseg & Hnd'' & Hin'' & Hlen'').
    exists speakers', ({| segment := span_text w; start_time := timestamp w;
                          end_time := timestamp_end w; entry_speaker := k |} :: added).
    rewrite Hrun, <- app_assoc. simpl. rewrite Hseg.
    repeat split; auto; try lia.
    + intros Hx. apply Hin'' in Hx. rewrite Hin' in Hx. intuition.
    + intros Hx. apply Hin''. rewrite Hin'. intuition.
Qed.

(** X21.  For a finished job (200, status ['COMPLETED']) whose speaker
    names all have the form that the loop can number, the call returns a
    transcript that neither starts nor ends with whitespace, and a
    diarization with one entry per word, in order, whose [total_speakers] is
    the number of distinct speaker names: at most the number of words, and
    at least 1 when there is a word. *)
Theorem finished_job_diarization :
  forall provider_job_id st res words rest,
    status_code (get_task provider_job_id) = 200%Z ->
    status (get_task provider_job_id) = Some st ->
    st = py "COMPLETED" ->
    result (get_task provider_job_id) = Some res ->
    output res = words :: rest ->
    Forall numbered words ->
    exists text d,
      audio__speech_to_text_async__get_job_result py_int is_space get_task provider_job_id
        = Value (Finished text d) /\
      (forall c tail, text = c :: tail -> is_space c = false) /\
      (forall init c, text = init ++ [c] -> is_space c = false) /\
      map (@segment number) (entries d) = map (@span_text number) words /\
      (exists distinct,
          NoDup distinct /\
          (forall x, In x distinct <-> In x (map (@speaker number) words)) /\
          total_speakers d = length distinct) /\
      total_speakers d <= length words /\
      (words <> [] -> 1 <= total_speakers d).
Proof.
  intros provider_job_id st res words rest Hcode Hst -> Hres Hout Hall.
  unfold audio__speech_to_text_async__get_job_result.
  rewrite Hcode, Hst, Hres, Hout. simpl Z.eqb. cbv iota.
  rewrite (proj2 (str_eqb_eq _ _) eq_refl).
  destruct (@words_loop_ok words Hall [] [] (NoDup_nil _))
    as (speakers & added & Hrun & Hseg & Hnd & Hin & Hlen).
  unfold pybind. rewrite Hrun. simpl app. simpl fst. simpl snd.
  eexists. eexists. split; [reflexivity|]. simpl.
  destruct (strip_clean is_space
              (fold_left text_body (split_str [newline; newline] (input_text res)) []))
    as [Hfirst Hlast].
  split; [exact Hfirst|]. split; [exact Hlast|]. split; [exact Hseg|].
  split; [|split].
  - exists speakers. split; [assumption|]. split; [|reflexivity].
    intros x. rewrite Hin. simpl. intuition.
  - simpl in Hlen. lia.
  - intros Hne. destruct words as [|w words']; [contradiction|].
    assert (Hw : In (speaker w) speakers) by (apply Hin; right; now left).
    destruct speakers; [contradiction | simpl; lia].
Qed.

(** X22.  The call answers that the job is pending exactly when the
    status code is 200 and the status is ['RUNNING'], and it returns a
    transcript only when the status code is 200 and the status is
    ['COMPLETED']. *)
Theorem job_status_dispatch :
  forall provider_job_id,
    (audio__speech_to_text_async__get_job_result py_int is_space get_task provider_job_id
       = Value (@Pending number) <->
     status_code (get_task provider_job_id) = 200%Z /\
     status (get_task provider_job_id) = Some (py "RUNNING")) /\
    (forall text d,
       audio__speech_to_text_async__get_job_result py_int is_space get_task provider_job_id
         = Value (Finished text d) ->
       status_code (get_task provider_job_id) = 200%Z /\
       status (get_task provider_job_id) = Some (py "COMPLETED")).
Proof.
  intros provider_job_id. unfold audio__speech_to_text_async__get_job_result.
  destruct (Z.eqb_spec (status_code (get_task provider_job_id)) 200) as [Hc | Hc].
  2:{ split; [split; [discriminate | intros [H _]; contradiction] | discriminate]. }
  destruct (status (get_task provider_job_id)) as [st|].
  2:{ split; [split; [discriminate | intros [_ H]; discriminate] | discriminate]. }
  destruct (str_eqb st (py "COMPLETED")) eqn:Hdone.
  - apply str_eqb_eq in Hdone. subst st. split.
    + split; [|intros [_ H]; discriminate].
      destruct (result (get_task provider_job_id)) as [res|]; [|discriminate].
      destruct (output res); [discriminate|].
      unfold pybind. destruct (words_loop _ _ _ _); discriminate.
    + auto.
  - destruct (str_eqb st (py "RUNNING")) eqn:Hrun.
    + apply str_eqb_eq in Hrun. subst st. split; [tauto | discriminate].
    + split; [|discriminate]. split; [discriminate|].
      intros [_ H]. inversion H; subst.
      rewrite (proj2 (str_eqb_eq _ _) eq_refl) in Hrun. discriminate.
Qed.

End Job.

End OneAIAudioFacts.

(* ===================================================================== *)
(** * The statements at concrete inputs *)
(* ===================================================================== *)

Module Runs.

(** A concrete tag is in the grammar when the validator accepts it. *)
Ltac well_formed := apply check_language_format_true; reflexivity.

(** The stand-in matcher settles after its flaky calls. *)
Ltac settled :=
  split;
  [ intros i Hi; repeat (destruct i as [|i]; [reflexivity|]); exfalso; lia
  | reflexivity ].

(** ['zh-Hant'] against [['zh']] is accepted through its script; ['pt-BR']
    against [['pt-PT']] is refused; ['en-US'] against [['en-Latn-USA']]
    raises the error of the parser, which refuses the candidate. *)
Lemma compound_tag_disambiguation_witness :
  fst (Sample.resolve [py "zh"] 1 5 (py "zh-Hant")) = Return (Some (py "zh")) /\
  fst (Sample.resolve [py "pt-PT"] 2 5 (py "pt-BR")) = Return None /\
  fst (Sample.ordered_resolve [py "en-Latn-USA"] 1 5 (py "en-US")) = Raise LanguageTagError.
Proof.
  split; [|split].
  - apply (proj1 (@compound_tag_disambiguation Sample.is_digit Sample.Language_get
                    (Sample.load_provider [py "zh"] false)
                    (Sample.closest_supported_match 1))
             5 (py "zh-Hant") Sample.providerX Sample.text_feature Sample.sentiment_analysis
             (Sample.info_of [py "zh"]) [] 1 (py "zh")
             {| language := Some (py "zh"); script := Some (py "Hant"); territory := None |}
             {| language := Some (py "zh"); script := None; territory := None |}).
    + well_formed.
    + reflexivity.
    + reflexivity.
    + settled.
    + discriminate.
    + reflexivity.
    + reflexivity.
    + lia.
    + left. split; reflexivity.
  - apply (proj1 (proj2 (@compound_tag_disambiguation Sample.is_digit Sample.Language_get
                           (Sample.load_provider [py "pt-PT"] false)
                           (Sample.closest_supported_match 2)))
             5 Sample.providerX Sample.text_feature Sample.sentiment_analysis
             (Sample.info_of [py "pt-PT"]) [] 2 (Some (py "pt-PT"))).
    + reflexivity.
    + reflexivity.
    + settled.
    + right. reflexivity.
    + reflexivity.
    + reflexivity.
    + lia.
  - apply (proj2 (proj2 (@compound_tag_disambiguation Sample.is_digit
                           Sample.ordered_Language_get
                           (Sample.load_provider [py "en-Latn-USA"] false)
                           (Sample.closest_supported_match 1)))
             5 (py "en-US") Sample.providerX Sample.text_feature Sample.sentiment_analysis
             (Sample.info_of [py "en-Latn-USA"]) [] 1 (py "en-Latn-USA") LanguageTagError).
    + well_formed.
    + reflexivity.
    + reflexivity.
    + settled.
    + discriminate.
    + right.
      exists {| language := Some (py "en"); script := None; territory := Some (py "US") |}.
      split; reflexivity.
    + lia.
Defined.

(** C1, as first stated, fails: ['aaa-bbb-Cccc-DDD'] is well formed and
    contains a dash, and the matcher returns it, a non-null candidate, from
    the list that holds it; yet the negotiator returns neither that
    candidate nor [None].  The tag parser refuses a three-letter alphabetic
    subtag that follows a script, and its [LanguageTagError] leaves the
    negotiator.  So it is for ['en-Latn-USA']. *)
Lemma compound_tag_disambiguation_counterexample :
  (check_language_format Sample.is_digit (Some (py "aaa-bbb-Cccc-DDD")) = Some true /\
   contains dash (py "aaa-bbb-Cccc-DDD") = true /\
   Sample.closest_supported_match 0 0 (py "aaa-bbb-Cccc-DDD") [py "aaa-bbb-Cccc-DDD"]
     = Ok (Some (py "aaa-bbb-Cccc-DDD")) /\
   Sample.ordered_Language_get (py "aaa-bbb-Cccc-DDD") = Err LanguageTagError /\
   fst (Sample.ordered_resolve [py "aaa-bbb-Cccc-DDD"] 0 5 (py "aaa-bbb-Cccc-DDD"))
     = Raise LanguageTagError /\
   fst (Sample.ordered_resolve [py "aaa-bbb-Cccc-DDD"] 0 5 (py "aaa-bbb-Cccc-DDD"))
     <> Return (Some (py "aaa-bbb-Cccc-DDD")) /\
   fst (Sample.ordered_resolve [py "aaa-bbb-Cccc-DDD"] 0 5 (py "aaa-bbb-Cccc-DDD"))
     <> Return None) /\
  (check_language_format Sample.is_digit (Some (py "en-Latn-USA")) = Some true /\
   Sample.closest_supported_match 0 0 (py "en-Latn-USA") [py "en"; py "en-Latn-USA"]
     = Ok (Some (py "en-Latn-USA")) /\
   fst (Sample.ordered_resolve [py "en"; py "en-Latn-USA"] 0 5 (py "en-Latn-USA"))
     = Raise LanguageTagError).
Proof.
  split.
  - repeat split; try reflexivity; discriminate.
  - repeat split; reflexivity.
Defined.

(** ['ENG'] is outside the grammar, and is refused before any lookup. *)
Lemma malformed_tag_raises_before_lookup_witness :
  ~ LanguageTag_grammar Sample.is_digit (py "ENG") /\
  Sample.resolve [py "en"] 0 5 (py "ENG") =
  (Raise (SyntaxError (py "Language code 'ENG' badly formatted")), []).
Proof.
  assert (Hbad : ~ LanguageTag_grammar Sample.is_digit (py "ENG")).
  { intros H. apply check_language_format_true in H. discriminate H. }
  split; [exact Hbad|].
  apply (proj1 (@malformed_tag_raises_before_lookup Sample.is_digit Sample.Language_get
                  (Sample.load_provider [py "en"] false)
                  (Sample.closest_supported_match 0))
           5 (py "ENG") Sample.providerX Sample.text_feature Sample.sentiment_analysis [] Hbad).
Defined.

(** Two failed calls, then [None]: three calls in all, and [None] returned;
    and a matcher that never stops failing keeps the negotiator in its loop. *)
Lemma runtime_errors_are_retried_witness :
  Sample.resolve [py "en"] 2 5 (py "fr") =
  (Return None,
   [LoadProvider Sample.providerX Sample.text_feature Sample.sentiment_analysis;
    ClosestMatch 0 (py "fr") [py "en"];
    ClosestMatch 1 (py "fr") [py "en"];
    ClosestMatch 2 (py "fr") [py "en"]]) /\
  forall fuel,
    fst (provide_appropriate_language Sample.is_digit Sample.Language_get
           (Sample.load_provider [py "en"] false) Sample.unstable_match fuel (py "fr")
           Sample.providerX Sample.text_feature Sample.sentiment_analysis [])
    = Spin.
Proof.
  assert (Hok : LanguageTag_grammar Sample.is_digit (py "fr")) by well_formed.
  assert (Hload : Sample.load_provider [py "en"] false
                    Sample.providerX Sample.text_feature Sample.sentiment_analysis
                  = Ok (Sample.info_of [py "en"])) by reflexivity.
  split.
  - destruct (@runtime_errors_are_retried Sample.is_digit Sample.Language_get
                (Sample.load_provider [py "en"] false)
                (Sample.closest_supported_match 2)
                5 (py "fr") Sample.providerX Sample.text_feature Sample.sentiment_analysis
                (Sample.info_of [py "en"]) [] Hok Hload) as (_ & Hretry & _).
    destruct (Hretry 2 None) as [Hlog Hnone].
    + settled.
    + lia.
    + apply injective_projections.
      * apply Hnone. reflexivity.
      * exact Hlog.
  - intros fuel.
    destruct (@runtime_errors_are_retried Sample.is_digit Sample.Language_get
                (Sample.load_provider [py "en"] false)
                Sample.unstable_match
                fuel (py "fr") Sample.providerX Sample.text_feature Sample.sentiment_analysis
                (Sample.info_of [py "en"]) [] Hok Hload) as (_ & _ & Hspin).
    rewrite Hspin; reflexivity.
Defined.

(** ['fr'] against [['fr'; 'en'; 'es']] resolves to ['fr']; ['xx-YY'] against
    an empty list resolves to [None]. *)
Lemma simple_tag_returns_matcher_answer_witness :
  fst (Sample.resolve [py "fr"; py "en"; py "es"] 0 5 (py "fr")) = Return (Some (py "fr")) /\
  fst (Sample.resolve [] 1 5 (py "xx-YY")) = Return None.
Proof.
  split.
  - apply (@simple_tag_returns_matcher_answer Sample.is_digit Sample.Language_get
             (Sample.load_provider [py "fr"; py "en"; py "es"] false)
             (Sample.closest_supported_match 0)
             5 (py "fr") Sample.providerX Sample.text_feature Sample.sentiment_analysis
             (Sample.info_of [py "fr"; py "en"; py "es"]) [] 0 (Some (py "fr"))).
    + well_formed.
    + reflexivity.
    + settled.
    + lia.
    + reflexivity.
  - apply (@simple_tag_returns_matcher_answer Sample.is_digit Sample.Language_get
             (Sample.load_provider [] false)
             (Sample.closest_supported_match 1)
             5 (py "xx-YY") Sample.providerX Sample.text_feature Sample.sentiment_analysis
             (Sample.info_of []) [] 1 None).
    + well_formed.
    + reflexivity.
    + settled.
    + lia.
    + reflexivity.
Defined.

Lemma sample_match_in_list flaky attempt desired supported c :
  Sample.closest_supported_match flaky attempt desired supported = Ok (Some c) ->
  In c supported.
Proof.
  unfold Sample.closest_supported_match.
  destruct (attempt <? flaky); [discriminate|].
  destruct (existsb (str_eqb desired) supported) eqn:Hex.
  - intros H; inversion H; subst.
    apply existsb_exists in Hex. destruct Hex as (x & Hin & Hx).
    apply str_eqb_eq in Hx. now subst.
  - intros H; inversion H as [Hfind]. now apply find_some in Hfind.
Qed.

(** The tag returned for ['en-US'] is drawn from the provider's list. *)
Lemma resolved_tag_in_constraint_list_witness :
  Sample.resolve [py "fr"; py "en-US"] 1 5 (py "en-US")
  = (Return (Some (py "en-US")),
     [LoadProvider Sample.providerX Sample.text_feature Sample.sentiment_analysis;
      ClosestMatch 0 (py "en-US") [py "fr"; py "en-US"];
      ClosestMatch 1 (py "en-US") [py "fr"; py "en-US"]]) /\
  exists info,
    Sample.load_provider [py "fr"; py "en-US"] false
      Sample.providerX Sample.text_feature Sample.sentiment_analysis = Ok info /\
    In (py "en-US") (constraint_list info).
Proof.
  split; [reflexivity|].
  apply (@resolved_tag_in_constraint_list Sample.is_digit Sample.Language_get
           (Sample.load_provider [py "fr"; py "en-US"] false)
           (Sample.closest_supported_match 1)
           5 (py "en-US") Sample.providerX Sample.text_feature Sample.sentiment_analysis []
           (py "en-US")
           [LoadProvider Sample.providerX Sample.text_feature Sample.sentiment_analysis;
            ClosestMatch 0 (py "en-US") [py "fr"; py "en-US"];
            ClosestMatch 1 (py "en-US") [py "fr"; py "en-US"]]).
  - intros attempt desired supported c. apply sample_match_in_list.
  - reflexivity.
Defined.

(** [None] and an unknown name both give ['Unknow']. *)
Lemma lookup_failure_returns_Unknow_witness :
  get_code_from_language_name Sample.Language_str Sample.Language_find None
    = Ok (py "Unknow") /\
  get_code_from_language_name Sample.Language_str Sample.Language_find
    (Some (py "Klingonese")) = Ok (py "Unknow") /\
  py "Unknow" <> py "Unknown".
Proof.
  split; [|split].
  - apply (@lookup_failure_returns_Unknow Sample.Language_str Sample.Language_find None).
    left. reflexivity.
  - apply (@lookup_failure_returns_Unknow Sample.Language_str Sample.Language_find
             (Some (py "Klingonese"))).
    right. exists (py "Klingonese"), LookupError. repeat split; reflexivity.
  - apply (@lookup_failure_returns_Unknow Sample.Language_str Sample.Language_find None).
    left. reflexivity.
Defined.

(** C8, as first stated, fails: on [None] the conversion returns [None],
    which is no string, and on ['abc-'] the tag parser's
    [LanguageTagError] leaves the function. *)
Lemma convert_three_two_letters_counterexample :
  convert_three_two_letters Sample.Language_get Sample.Language_str
    Sample.pycountry_languages_get None = Ok None /\
  convert_three_two_letters Sample.Language_get Sample.Language_str
    Sample.pycountry_languages_get (Some (py "abc-")) = Err LanguageTagError /\
  ~ (forall input, exists r,
        convert_three_two_letters Sample.Language_get Sample.Language_str
          Sample.pycountry_languages_get input = Ok (Some r)).
Proof.
  split; [reflexivity|]. split; [reflexivity|].
  intros H. destruct (H None) as [r Hr]. discriminate Hr.
Defined.

(** ['fra'] becomes ['fr'], ['ace'] stays ['ace'], ['en'] is returned as it
    is, and ['fra-FR'] goes through the tag parser. *)
Lemma convert_three_two_letters_cases_witness :
  convert_three_two_letters Sample.Language_get Sample.Language_str
    Sample.pycountry_languages_get (Some (py "fra")) = Ok (Some (py "fr")) /\
  convert_three_two_letters Sample.Language_get Sample.Language_str
    Sample.pycountry_languages_get (Some (py "ace")) = Ok (Some (py "ace")) /\
  convert_three_two_letters Sample.Language_get Sample.Language_str
    Sample.pycountry_languages_get (Some (py "en")) = Ok (Some (py "en")) /\
  exists r,
    convert_three_two_letters Sample.Language_get Sample.Language_str
      Sample.pycountry_languages_get (Some (py "fra-FR")) = Ok (Some r).
Proof.
  split; [|split; [|split]].
  - destruct (@convert_three_two_letters_cases Sample.Language_get Sample.Language_str
                Sample.pycountry_languages_get (py "fra")) as (_ & _ & H & _).
    apply (H {| alpha_3 := py "fra"; alpha_2 := Some (py "fr") |} (py "fr"));
      reflexivity.
  - destruct (@convert_three_two_letters_cases Sample.Language_get Sample.Language_str
                Sample.pycountry_languages_get (py "ace")) as (_ & _ & _ & H & _).
    apply (H {| alpha_3 := py "ace"; alpha_2 := None |}); reflexivity.
  - destruct (@convert_three_two_letters_cases Sample.Language_get Sample.Language_str
                Sample.pycountry_languages_get (py "en")) as (_ & _ & _ & _ & H & _).
    apply H; [discriminate | reflexivity].
  - destruct (@convert_three_two_letters_cases Sample.Language_get Sample.Language_str
                Sample.pycountry_languages_get (py "fra-FR")) as (H & _).
    apply (H {| language := Some (py "fra"); script := None;
                territory := Some (py "FR") |}).
    reflexivity.
Defined.

(** Two positive labels against one negative: the answer says ['Neutral']. *)
Lemma net_positive_yields_neutral_witness :
  OneAI.negatives (OneAI.labels
    (hd {| OneAI.labels := [] |} (OneAI.output (OneAI.json (Sample.post_sentiments (py "x"))))))
  < OneAI.positives (OneAI.labels
    (hd {| OneAI.labels := [] |} (OneAI.output (OneAI.json (Sample.post_sentiments (py "x"))))))
  /\
  exists response,
    OneAI.text__sentiment_analysis Sample.enum_value Sample.post_sentiments
      (py "en") (py "x") = Ok response /\
    OneAI.general_sentiment (OneAI.standardized_response response) = py "Neutral".
Proof.
  split; [vm_compute; lia|].
  destruct (@OneAIFacts.net_positive_yields_neutral Sample.enum_value Sample.post_sentiments
              (py "en") (py "x")
              {| OneAI.labels :=
                   [ {| OneAI.span_text := py "great"; OneAI.value := py "POS" |};
                     {| OneAI.span_text := py "awful"; OneAI.value := py "NEG" |};
                     {| OneAI.span_text := py "love it"; OneAI.value := py "POS" |} ] |}
              [])
    as (_ & _ & H).
  - reflexivity.
  - reflexivity.
  - vm_compute. lia.
  - exact H.
Defined.

(** The text after the phone number is dropped; with no entity nothing is
    kept. *)
Lemma anonymization_keeps_only_text_before_entities_witness :
  (exists response,
      Amazon.text__anonymization Sample.detect_pii_entities Sample.call_john (py "en")
        = Ok response /\
      Amazon.result_ (Amazon.standardized_response response)
        = py "Call <NAME> at <PHONE>") /\
  (exists response,
      Amazon.text__anonymization Sample.detect_nothing Sample.call_john (py "en")
        = Ok response /\
      Amazon.result_ (Amazon.standardized_response response) = []).
Proof.
  split.
  - destruct (@AmazonFacts.anonymization_keeps_only_text_before_entities
                Sample.detect_pii_entities Sample.call_john (py "en") _ eq_refl)
      as (response & Hrun & Hres & _).
    exists response. split; [exact Hrun|]. rewrite Hres. reflexivity.
  - destruct (@AmazonFacts.anonymization_keeps_only_text_before_entities
                Sample.detect_nothing Sample.call_john (py "en") _ eq_refl)
      as (response & Hrun & _ & _ & Hempty).
    exists response. split; [exact Hrun|]. apply Hempty. reflexivity.
Defined.

(** ['zh-Hant-TW'] has ten characters of the tag alphabet. *)
Lemma accepted_tag_shape_witness :
  check_language_format Sample.is_digit (Some (py "zh-Hant-TW")) = Some true /\
  2 <= length (py "zh-Hant-TW") <= 16 /\
  forallb (tag_char Sample.is_digit) (py "zh-Hant-TW") = true.
Proof.
  split; [reflexivity|].
  destruct (@accepted_tag_shape Sample.is_digit (py "zh-Hant-TW") eq_refl)
    as (Hlen & Hchars & _).
  split; assumption.
Defined.

(** The first subtag of ['zh-Hant-TW'] is ['zh']. *)
Lemma first_subtag_of_accepted_tag_witness :
  hd [] (split dash (py "zh-Hant-TW")) = py "zh" /\
  check_language_format Sample.is_digit (Some (hd [] (split dash (py "zh-Hant-TW"))))
    = Some true.
Proof.
  split; [reflexivity|].
  destruct (@first_subtag_of_accepted_tag Sample.is_digit (py "zh-Hant-TW") eq_refl)
    as (_ & _ & Hok & _).
  exact Hok.
Defined.

(** Two [RuntimeError]s, then a [LanguageTagError] that leaves the
    negotiator after the third call. *)
Lemma other_matcher_errors_propagate_witness :
  provide_appropriate_language Sample.is_digit Sample.Language_get
    (Sample.load_provider [py "en"] false) (Sample.rejecting_match 2) 5 (py "fr")
    Sample.providerX Sample.text_feature Sample.sentiment_analysis [] =
  (Raise LanguageTagError,
   [LoadProvider Sample.providerX Sample.text_feature Sample.sentiment_analysis;
    ClosestMatch 0 (py "fr") [py "en"];
    ClosestMatch 1 (py "fr") [py "en"];
    ClosestMatch 2 (py "fr") [py "en"]]).
Proof.
  apply (@other_matcher_errors_propagate Sample.is_digit Sample.Language_get
           (Sample.load_provider [py "en"] false) (Sample.rejecting_match 2)
           5 (py "fr") Sample.providerX Sample.text_feature Sample.sentiment_analysis
           (Sample.info_of [py "en"]) [] 2 LanguageTagError).
  - reflexivity.
  - reflexivity.
  - intros i Hi. repeat (destruct i as [|i]; [reflexivity|]). exfalso; lia.
  - reflexivity.
  - reflexivity.
  - lia.
Defined.

(** A loader that raises [KeyError]: no call of the matcher. *)
Lemma loader_error_propagates_witness :
  provide_appropriate_language Sample.is_digit Sample.Language_get
    Sample.failing_load_provider (Sample.closest_supported_match 0) 5 (py "fr")
    Sample.providerX Sample.text_feature Sample.sentiment_analysis [] =
  (Raise KeyError,
   [LoadProvider Sample.providerX Sample.text_feature Sample.sentiment_analysis]).
Proof.
  apply (@loader_error_propagates Sample.is_digit Sample.Language_get
           Sample.failing_load_provider (Sample.closest_supported_match 0)
           5 (py "fr") Sample.providerX Sample.text_feature Sample.sentiment_analysis
           KeyError []); reflexivity.
Defined.

(** ['pt-BR'], listed as it is, is returned. *)
Lemma supported_tag_is_returned_witness :
  fst (Sample.resolve [py "pt-PT"; py "pt-BR"] 1 5 (py "pt-BR"))
  = Return (Some (py "pt-BR")).
Proof.
  apply (@supported_tag_is_returned Sample.is_digit Sample.Language_get
           (Sample.load_provider [py "pt-PT"; py "pt-BR"] false)
           (Sample.closest_supported_match 1)
           5 (py "pt-BR") Sample.providerX Sample.text_feature Sample.sentiment_analysis
           (Sample.info_of [py "pt-PT"; py "pt-BR"]) [] 1
           {| language := Some (py "pt"); script := None; territory := Some (py "BR") |}).
  - reflexivity.
  - reflexivity.
  - settled.
  - reflexivity.
  - lia.
Defined.

(** ['pt-BR'] and ['pt-Latn-BR'] compare equal, in both orders. *)
Lemma compare_language_and_region_code_equivalence_witness :
  compare_language_and_region_code Sample.Language_get (py "pt-BR") (py "pt-Latn-BR")
  = compare_language_and_region_code Sample.Language_get (py "pt-Latn-BR") (py "pt-BR") /\
  compare_language_and_region_code Sample.Language_get (py "pt-BR") (py "pt-BR") = Ok true.
Proof.
  destruct (@compare_language_and_region_code_equivalence Sample.Language_get
              (py "pt-BR") (py "pt-Latn-BR") (py "pt-BR")
              {| language := Some (py "pt"); script := None; territory := Some (py "BR") |}
              {| language := Some (py "pt"); script := Some (py "Latn");
                 territory := Some (py "BR") |}
              {| language := Some (py "pt"); script := None; territory := Some (py "BR") |}
              eq_refl eq_refl eq_refl) as (Hrefl & Hsym & _).
  split; assumption.
Defined.

(** ['fr-FR'] contributes ['fr'] and ['fr-FR']; the other two one entry each. *)
Lemma expanded_list_shape_witness :
  expand_languages_for_user Sample.Language_get Sample.Language_str
    Sample.pycountry_languages_get Sample.Language_display_name
    [py "fr-FR"; AUTO_DETECT; py "fra"]
  = Ok [Some (py "fr"); Some (py "fr-FR"); Some AUTO_DETECT; Some (py "fr")] /\
  Forall (fun x : option str => x <> None)
    [Some (py "fr"); Some (py "fr-FR"); Some AUTO_DETECT; Some (py "fr")].
Proof.
  split; [reflexivity|].
  apply (@expanded_list_shape Sample.Language_get Sample.Language_str
           Sample.pycountry_languages_get Sample.Language_display_name
           [py "fr-FR"; AUTO_DETECT; py "fra"] _ eq_refl).
Defined.

(** ['abc-'] is refused by the parser, and so is the whole list. *)
Lemma expansion_fails_only_in_parser_witness :
  expand_languages_for_user Sample.Language_get Sample.Language_str
    Sample.pycountry_languages_get Sample.Language_display_name [py "en"; py "abc-"]
  = Err LanguageTagError /\
  exists language,
    In language [py "en"; py "abc-"] /\
    (Sample.Language_get language = Err LanguageTagError \/
     Sample.Language_get (hd [] (split dash language)) = Err LanguageTagError).
Proof.
  split; [reflexivity|].
  apply (@expansion_fails_only_in_parser Sample.Language_get Sample.Language_str
           Sample.pycountry_languages_get Sample.Language_display_name
           [py "en"; py "abc-"] LanguageTagError eq_refl).
Defined.

(** Two-letter codes and ['auto-detect'] come back unchanged. *)
Lemma plain_codes_are_kept_witness :
  expand_languages_for_user Sample.Language_get Sample.Language_str
    Sample.pycountry_languages_get Sample.Language_display_name
    [py "en"; AUTO_DETECT; py "fr"]
  = Ok [Some (py "en"); Some AUTO_DETECT; Some (py "fr")].
Proof.
  apply (@plain_codes_are_kept Sample.Language_get Sample.Language_str
           Sample.pycountry_languages_get Sample.Language_display_name
           [py "en"; AUTO_DETECT; py "fr"]).
  intros language [<- | [<- | [<- | []]]].
  - right. split; [reflexivity | discriminate].
  - left. reflexivity.
  - right. split; [reflexivity | discriminate].
Defined.

(** Two providers sharing ['en']: three languages, each once. *)
Lemma standardized_languages_are_the_union_witness :
  exists out,
    load_standardized_language Sample.Language_get Sample.Language_str
      Sample.pycountry_languages_get Sample.load_provider_by_name
      Sample.Language_display_name Sample.list_providers Sample.list_of_set
      Sample.text_feature Sample.sentiment_analysis (Some [py "p1"; py "p2"]) []
    = (Return out,
       [LoadProvider (py "p1") Sample.text_feature Sample.sentiment_analysis;
        LoadProvider (py "p2") Sample.text_feature Sample.sentiment_analysis]) /\
    NoDup out /\
    In (Some (py "es")) out.
Proof.
  destruct (@standardized_languages_are_the_union Sample.Language_get Sample.Language_str
              Sample.pycountry_languages_get Sample.load_provider_by_name
              Sample.Language_display_name Sample.list_providers Sample.list_of_set
              Sample.text_feature Sample.sentiment_analysis [py "p1"; py "p2"]
              Sample.provider_info_of
              (fun p => map Some (constraint_list (Sample.provider_info_of p))) [])
    as (out & Hrun & Hnd & Hmem).
  - intros k x. apply nodup_In.
  - intros k. apply NoDup_nodup.
  - intros p [<- | [<- | []]]; split; reflexivity.
  - exists out. split; [exact Hrun|]. split; [exact Hnd|].
    apply Hmem. exists (py "p2"). split; [right; now left|].
    right. left. reflexivity.
Defined.

(** Two negative labels against one positive: ['Negative']. *)
Lemma general_sentiment_negative_or_neutral_witness :
  exists response,
    OneAI.text__sentiment_analysis Sample.enum_value Sample.post_negative
      (py "en") (py "x") = Ok response /\
    OneAI.general_sentiment (OneAI.standardized_response response) = py "Negative" /\
    length (OneAI.items (OneAI.standardized_response response)) = 3.
Proof.
  destruct (@OneAISentimentFacts.general_sentiment_negative_or_neutral
              Sample.enum_value Sample.post_negative (py "en") (py "x")
              (hd {| OneAI.labels := [] |}
                  (OneAI.output (OneAI.json (Sample.post_negative (py "x")))))
              [] eq_refl eq_refl)
    as (response & Hrun & Hgen & Hitems).
  exists response. split; [exact Hrun|]. split.
  - rewrite Hgen. reflexivity.
  - rewrite Hitems. reflexivity.
Defined.

(** Paris, named ['GEO'], comes out as a ['LOCATION']. *)
Lemma geo_is_renamed_location_witness :
  exists items,
    OneAIText.text__named_entity_recognition Sample.post_names (py "en") (py "x")
      = Ok items /\
    map OneAIText.entity items = [py "Paris"; py "Ada"] /\
    Forall (fun i => OneAIText.category i <> py "GEO") items.
Proof.
  destruct (@OneAITextFacts.geo_is_renamed_location Sample.post_names (py "en") (py "x")
              (hd [] (OneAIText.output (Sample.post_names (py "x")))) []
              eq_refl eq_refl) as (items & Hrun & Hent & Hgeo & _).
  exists items. split; [exact Hrun|]. split; [exact Hent | exact Hgeo].
Defined.

(** An unknown language name does not stop the detection. *)
Lemma language_detection_never_fails_on_unknown_names_witness :
  exists items,
    OneAIText.translation__language_detection Sample.post_detect_language
      Sample.Language_str Sample.Language_find (py "x") = Ok items /\
    map OneAIText.display_name items = [py "French"; py "Klingonese"].
Proof.
  destruct (@OneAITextFacts.language_detection_never_fails_on_unknown_names
              Sample.post_detect_language Sample.Language_str Sample.Language_find
              (py "x")
              (hd {| OneAI.labels := [] |}
                  (OneAI.output (OneAI.json (Sample.post_detect_language (py "x")))))
              []) as (items & Hrun & Hnames & _).
  - intros m e. unfold Sample.Language_find.
    destruct (str_eqb m (py "French")); [discriminate|].
    intros H; inversion H; reflexivity.
  - reflexivity.
  - reflexivity.
  - exists items. split; [exact Hrun | exact Hnames].
Defined.

(** ['Positive'] and ['Neutral'] tie at 450: the later one is reported,
    and ['Mixed'], though larger, is not. *)
Lemma reported_sentiment_is_the_last_maximum_witness :
  AmazonText.text__sentiment_analysis 0%Z Z.leb Sample.detect_sentiment (py "en") (py "x")
  = Value {| AmazonText.general_sentiment := Some (py "Neutral");
                        AmazonText.general_sentiment_rate := 450%Z |} /\
  exists b,
    AmazonText.text__sentiment_analysis 0%Z Z.leb Sample.detect_sentiment (py "en") (py "x")
    = Value b /\
    (0 <=? AmazonText.general_sentiment_rate b)%Z = true.
Proof.
  split; [reflexivity|].
  destruct (@AmazonTextFacts.reported_sentiment_is_the_last_maximum Z 0%Z Z.leb
              Sample.detect_sentiment) with (language := py "en") (text := py "x")
              (scores := [ (py "Positive", 450%Z); (py "Negative", 50%Z);
                           (py "Neutral", 450%Z); (py "Mixed", 900%Z) ])
    as (b & Hrun & Hzero & _).
  - intros a b. destruct (Z.leb_spec a b); [now left|].
    right. apply Z.leb_le. lia.
  - intros a b c Hab Hbc. apply Z.leb_le in Hab, Hbc. apply Z.leb_le. lia.
  - reflexivity.
  - repeat constructor; simpl; intuition discriminate.
  - exists b. split; [exact Hrun | exact Hzero].
Defined.

(** A throttling error: lost by three functions, kept by the fourth. *)
Lemma client_error_handling_witness :
  AmazonText.text__sentiment_analysis 0%Z Z.leb (@Sample.throttled _) (py "en") (py "x")
    = Raised (UnboundLocalError (py "response")) /\
  AmazonText.text__named_entity_recognition (@Sample.throttled (list (AmazonText.detected_entity Z)))
    (py "en") (py "x")
    = Raised
        (ProviderExceptionStr (py "ThrottlingException: Rate exceeded")).
Proof.
  destruct (@AmazonTextFacts.client_error_handling Z Z 0%Z Z.leb
              (@Sample.throttled _) (@Sample.throttled _) (@Sample.throttled _)
              (@Sample.throttled _) Sample.tags (py "en") (py "x")
              (py "ThrottlingException: Rate exceeded") eq_refl eq_refl eq_refl eq_refl)
    as [Hlost _].
  destruct (Hlost eq_refl) as (Hs & _ & _ & Hn).
  split; assumption.
Defined.

(** Known tags give one item per token; an unknown tag gives [KeyError]. *)
Lemma syntax_analysis_needs_known_tags_witness :
  (exists items,
      AmazonText.text__syntax_analysis Sample.detect_syntax Sample.tags (py "en") (py "x")
        = Value items /\
      map (@AmazonText.word Z) items = [py "dogs"; py "bark"]) /\
  AmazonText.text__syntax_analysis Sample.detect_syntax_unknown Sample.tags (py "en") (py "x")
    = Raised (Exn KeyError).
Proof.
  split.
  - destruct (@AmazonTextFacts.syntax_analysis_needs_known_tags Z Sample.detect_syntax
                Sample.tags (py "en") (py "x") _ eq_refl) as [_ Hok].
    destruct Hok as (items & Hrun & Hwords & _).
    + intros t [<- | [<- | []]]; discriminate.
    + exists items. split; [exact Hrun | exact Hwords].
  - destruct (@AmazonTextFacts.syntax_analysis_needs_known_tags Z Sample.detect_syntax_unknown
                Sample.tags (py "en") (py "x") _ eq_refl) as [Hmissing _].
    apply Hmissing. eexists. split; [left; reflexivity | reflexivity].
Defined.

(** ['Unknown Region'] alone: no parenthesis to search for. *)
Lemma format_language_name_raises_without_parenthesis_witness :
  Sample.is_space lparen = false /\ Sample.is_space rparen = false /\
  format_language_name Sample.is_space (py "Unknown Region") (py "xx")
  = Raised (AttributeError (py "'NoneType' object has no attribute 'group'")).
Proof.
  split; [reflexivity|]. split; [reflexivity|].
  apply (proj1 (@format_language_name_raises_without_parenthesis Sample.is_space
                  eq_refl eq_refl (py "Unknown Region") (py "xx"))).
  repeat split; reflexivity.
Defined.

(** ['French (Unknown Region)'] gives ['French']. *)
Lemma format_language_name_keeps_the_language_witness :
  format_language_name Sample.is_space (py "French (Unknown Region)") (py "fr-XX")
  = Value (py "French").
Proof.
  apply (@format_language_name_keeps_the_language Sample.is_space eq_refl eq_refl
           [] (py "French ") (py "Unknown Region)") (py "fr-XX")).
  - reflexivity.
  - reflexivity.
  - reflexivity.
  - reflexivity.
  - now left.
Defined.

(** ['Unknown language (France)'] gives ['Region: France']. *)
Lemma format_language_name_keeps_the_region_witness :
  format_language_name Sample.is_space (py "Unknown language (France)") (py "xx-FR")
  = Value (py "Region: France") /\
  format_language_name Sample.is_space (py "Unknown language [xx]") (py "xx")
  = Value (py "xx").
Proof.
  split.
  - destruct (@format_language_name_keeps_the_region Sample.is_space eq_refl eq_refl
                (py "Unknown language (France)") (py "xx-FR") eq_refl) as [Hregion _].
    apply (Hregion (py "Unknown language ") (py "France") []); reflexivity.
  - destruct (@format_language_name_keeps_the_region Sample.is_space eq_refl eq_refl
                (py "Unknown language [xx]") (py "xx") eq_refl) as [_ Hcode].
    apply Hcode. reflexivity.
Defined.

(** A tag that the parser refuses: its error is the one raised. *)
Lemma get_language_name_from_code_failures_witness :
  get_language_name_from_code Sample.is_space Sample.Language_get
    Sample.display_name_with_region Sample.pycountry_get_alpha_2
    Sample.pycountry_languages_get Sample.pycountry_name (Some (py "abc-"))
  = Raised (Exn LanguageTagError) /\
  ((exists e0, Exn LanguageTagError = Exn e0 /\ Sample.Language_get (py "abc-") = Err e0) \/
   (Exn LanguageTagError = AttributeError no_group_message /\
    exists language_name,
      substring_in (py "Unknown Region") language_name = true /\
      contains lparen language_name = false /\
      ((exists l, Sample.Language_get (py "abc-") = Ok l /\
                  language_name = Sample.display_name_with_region l) \/
       (exists entry, language_name = Sample.pycountry_name entry)))).
Proof.
  split; [reflexivity|].
  destruct (@get_language_name_from_code_failures Sample.is_space eq_refl eq_refl
              Sample.Language_get Sample.display_name_with_region
              Sample.pycountry_get_alpha_2 Sample.pycountry_languages_get
              Sample.pycountry_name) as (_ & _ & Hfail).
  apply (Hfail (py "abc-") (Exn LanguageTagError)). reflexivity.
Defined.

(** Three words by two speakers. *)
Lemma finished_job_diarization_witness :
  exists text d,
    OneAIAudio.audio__speech_to_text_async__get_job_result Sample.py_int Sample.is_space
      Sample.get_task (py "done") = Value (OneAIAudio.Finished text d) /\
    map (@OneAIAudio.segment Z) (OneAIAudio.entries d) = [py "hello"; py "you"; py "hi"] /\
    OneAIAudio.total_speakers d <= 3 /\
    1 <= OneAIAudio.total_speakers d.
Proof.
  destruct (@OneAIAudioFacts.finished_job_diarization Z Sample.py_int Sample.is_space
              Sample.get_task (py "done") (py "COMPLETED")
              (match OneAIAudio.result Sample.finished_task with
               | Some res => res
               | None => {| OneAIAudio.input_text := []; OneAIAudio.output := [] |}
               end)
              (hd [] (match OneAIAudio.result Sample.finished_task with
                      | Some res => OneAIAudio.output res
                      | None => []
                      end))
              [] eq_refl eq_refl eq_refl eq_refl eq_refl)
    as (text & d & Hrun & _ & _ & Hseg & _ & Hle & Hge).
  - repeat constructor.
    + exists (py "1"), 1%Z. split; reflexivity.
    + exists (py "1"), 1%Z. split; reflexivity.
    + exists (py "2"), 2%Z. split; reflexivity.
  - exists text, d. split; [exact Hrun|]. split; [exact Hseg|].
    split; [exact Hle|]. apply Hge. discriminate.
Defined.

(** A running job is pending. *)
Lemma job_status_dispatch_witness :
  OneAIAudio.audio__speech_to_text_async__get_job_result Sample.py_int Sample.is_space
    Sample.get_task (py "later") = Value (OneAIAudio.Pending Z).
Proof.
  apply (@OneAIAudioFacts.job_status_dispatch Z Sample.py_int Sample.is_space
           Sample.get_task (py "later")).
  split; reflexivity.
Defined.

(** Two key phrases and one entity, as the client gave them. *)
Lemma amazon_items_follow_the_answer_witness :
  (exists items,
      AmazonText.text__keyword_extraction Sample.detect_key_phrases (py "en") (py "x")
        = Value items /\
      map (@AmazonText.keyword Z) items = [py "the dogs"; py "a bark"]) /\
  (exists items,
      AmazonText.text__named_entity_recognition Sample.detect_entities (py "en") (py "x")
        = Value items /\
      map (@AmazonText.ner_category Z) items = [py "PERSON"]).
Proof.
  destruct (@AmazonTextFacts.amazon_items_follow_the_answer Z
              Sample.detect_key_phrases Sample.detect_entities (py "en") (py "x")
              _ _ eq_refl eq_refl)
    as [(kw & Hkw & Hwords & _) (ents & Hents & _ & _ & Hcat)].
  split.
  - exists kw. split; [exact Hkw | exact Hwords].
  - exists ents. split; [exact Hents | exact Hcat].
Defined.

End Runs.
